(** * Generation strategy of Ax: a shallow embedding and its properties.

    The development follows [ax/modelbridge/generation_node.py] and
    [ax/modelbridge/generation_strategy.py].  Python integers are [Z]; Python
    dictionaries and sets are stdpp's [gmap] and [gset]; exceptions are values
    of [Exn] carried by [Result]; methods that mutate the strategy live in a
    state-and-exception monad whose state survives a raise, as a Python
    object does. *)

From Stdlib Require Import ZArith Lia.
From stdpp Require Import base option gmap sets list strings fin_maps fin_sets.

Open Scope Z_scope.

(** ** Exceptions and results *)

Inductive Exn :=
  | UserInputError
  | ValueError
  | IndexError
  | RuntimeError
  | NotImplementedError
  | NoDataError
  | DataRequiredError
  | GenerationStrategyCompleted
  | GenerationStrategyRepeatedPoints
  | MaxParallelismReachedException (step_index : Z) (model_name : string) (num_running : Z)
  | ModelError (tag : Z)
  (* Not Python exceptions: a bounded loop that ran out of its bound, and a
     position-kept reference that points outside its list. *)
  | OutOfFuel
  | DanglingReference.

Inductive Result (A : Type) :=
  | Ok (a : A)
  | Raise (e : Exn).
Arguments Ok {A} a.
Arguments Raise {A} e.

#[global] Instance Exn_eq_dec : EqDecision Exn.
Proof. solve_decision. Defined.

(** ** The experiment collaborator *)

(** Modelled from the spec: [ax.core.base_trial.TrialStatus] is not among the
    sources; these are the statuses the sources and the spec name (running,
    completed, failed, abandoned, early-stopped) and those a trial has before
    it runs. *)
Inductive TrialStatus :=
  | CANDIDATE | STAGED | FAILED | COMPLETED | RUNNING | ABANDONED
  | DISPATCHED | EARLY_STOPPED.

#[global] Instance TrialStatus_eq_dec : EqDecision TrialStatus.
Proof. solve_decision. Defined.

(** Modelled from the spec: [TrialStatus.is_running], the trial is in status
    RUNNING. *)
Definition is_running (s : TrialStatus) : bool := bool_decide (s = RUNNING).

(** A trial, reduced to the two fields the generation strategy reads. *)
Record Trial := {
  status : TrialStatus;
  _generation_step_index : option Z;
}.

Record Arm := {
  arm_name : string;
  signature : string;
}.

#[global] Instance Arm_eq_dec : EqDecision Arm.
Proof. solve_decision. Defined.

(** One row of a [Data] frame: the trial it belongs to and an opaque payload. *)
Record DataRow := {
  trial_index : Z;
  metric_name : string;
  mean : Z;
}.

#[global] Instance DataRow_eq_dec : EqDecision DataRow.
Proof. solve_decision. Defined.

(** [Data]: the rows of [data.df]; [data.df.empty] is [df_empty]. *)
Abbreviation Data := (list DataRow).

Definition df_empty (d : Data) : bool :=
  match d with [] => true | _ => false end.

(** A metric, reduced to [is_available_while_running()]. *)
Record Metric := {
  is_available_while_running : bool;
}.

Record Experiment := {
  exp_name : option string;                (* [experiment._name] *)
  trials : gmap Z Trial;                   (* [experiment.trials] *)
  metrics : gmap string Metric;            (* [experiment.metrics] *)
  arms_by_signature : gmap string Arm;     (* [experiment.arms_by_signature] *)
  attached_data : Data;                    (* the data attached to the experiment *)
}.

(** Modelled from the spec: [Experiment.trial_indices_by_status] is not among
    the sources; the spec describes it as the derived mapping from a status to
    the set of indices of the trials in that status. *)
Definition trial_indices_by_status (e : Experiment) (s : TrialStatus) : gset Z :=
  dom (filter (λ kv, status kv.2 = s) (trials e)).

(** Modelled from the spec: [Experiment.lookup_data] is not among the sources;
    the spec describes it as a data lookup optionally filtered by trial
    indices. *)
Definition lookup_data (e : Experiment) (trial_indices : option (gset Z)) : Data :=
  match trial_indices with
  | None => attached_data e
  | Some s => filter (λ r, trial_index r ∈ s) (attached_data e)
  end.

(** ** Generation steps: the accounting of [GenerationStep] *)

(** The [model] argument of a step: an entry of the registry, a factory
    callable, or any other Python object. *)
Inductive ModelRef :=
  | RegistryModel (key : string)
  | FactoryFunction (fname : option string)
  | NotAModel.

#[global] Instance ModelRef_eq_dec : EqDecision ModelRef.
Proof. solve_decision. Defined.

(** Keyword arguments; their values are opaque to this code except for the
    integer under ["n"]. *)
Abbreviation Kwargs := (gmap string Z).

(** [ModelSpec] and [FactoryFunctionModelSpec], reduced to what the node reads.
    A fitted model is named by the number of the fit that built it. *)
Record ModelSpec := {
  spec_model : ModelRef;
  spec_model_kwargs : option Kwargs;
  spec_model_gen_kwargs : option Kwargs;
  _fitted_model : option nat;
}.

(** [GenerationNode]. [_model_spec_to_gen_from] is a reference to one of
    [model_specs], kept as its position. *)
Record GenerationNode := {
  model_specs : list ModelSpec;
  best_model_selector : option nat;
  should_deduplicate : bool;
  _model_spec_to_gen_from : option nat;
}.

(** [GenerationStep(GenerationNode)]: the node it inherits from is the field
    [node].  Completion criteria are named by a number; the collaborator that
    evaluates them is a parameter of the strategy's section.  The
    back-reference [_generation_strategy] is not a field: the methods that
    follow it to reach the experiment take the result of
    [self.generation_strategy.experiment] as the argument [experiment], which
    is [None] where the property raises [ValueError]. *)
Record GenerationStep := {
  node :> GenerationNode;
  model : ModelRef;
  num_trials : Z;
  model_kwargs : option Kwargs;
  model_gen_kwargs : option Kwargs;
  completion_criteria : list nat;
  min_trials_observed : Z;
  max_parallelism : option Z;
  use_update : bool;
  enforce_num_trials : bool;
  index : Z;
  model_name : string;
}.

Section step_accounting.
Variable self : GenerationStep.

(** [GenerationStep.trial_indices]: a [defaultdict(set)], so every key has a
    value, the empty set where nothing was added. *)
Definition trial_indices (e : Experiment) (step : Z) : gset Z :=
  if bool_decide (step ≤ index self)
  then dom (filter (λ kv, _generation_step_index kv.2 = Some step) (trials e))
  else ∅.

(** [GenerationStep.num_can_complete]. *)
Definition num_can_complete (e : Experiment) : Z :=
  let step_trials := trial_indices e (index self) in
  let by_status := trial_indices_by_status e in
  let num_will_not_complete :=
    Z.of_nat (size (step_trials ∩ (by_status FAILED ∪ by_status ABANDONED))) in
  Z.of_nat (size step_trials) - num_will_not_complete.

(** [GenerationStep._num_completed]. *)
Definition _num_completed (e : Experiment) : Z :=
  let step_trials := trial_indices e (index self) in
  let by_status := trial_indices_by_status e in
  Z.of_nat (size (step_trials ∩ (by_status COMPLETED ∪ by_status EARLY_STOPPED))).

(** [GenerationStep.num_trials_to_gen_and_complete]. *)
Definition num_trials_to_gen_and_complete (experiment : option Experiment)
  : Result (Z * Z) :=
  if bool_decide (num_trials self = -1) then Ok (-1, -1)
  else match experiment with
       | None => Raise ValueError
       | Some e =>
           let left_to_gen := Z.max (num_trials self - num_can_complete e) 0 in
           let left_to_complete := Z.max (min_trials_observed self - _num_completed e) 0 in
           Ok (left_to_gen, left_to_complete)
       end.

(** [GenerationStep.num_running_trials]: the loop over
    [experiment.trials.values()]. *)
Definition num_running_trials (e : Experiment) : Z :=
  map_fold (λ _ trial num_running,
              if bool_decide (_generation_step_index trial = Some (index self))
                 && is_running (status trial)
              then num_running + 1 else num_running)
           0 (trials e).

(** [GenerationStep.num_remaining_trials_until_max_parallelism]. The running
    trials are counted before [max_parallelism] is looked at. *)
Definition num_remaining_trials_until_max_parallelism
    (experiment : option Experiment)
    (raise_max_parallelism_reached_exception : bool) : Result (option Z) :=
  match experiment with
  | None => Raise ValueError
  | Some e =>
      let num_running := num_running_trials e in
      match max_parallelism self with
      | None => Ok None
      | Some max_parallelism =>
          if raise_max_parallelism_reached_exception
             && (num_running >=? max_parallelism)
          then Raise (MaxParallelismReachedException
                        (index self) (model_name self) num_running)
          else Ok (Some (max_parallelism - num_running))
      end
  end.

(** The counts as the specification words them. *)
Definition own (P : TrialStatus → bool) (kv : Z * Trial) : Prop :=
  _generation_step_index kv.2 = Some (index self) ∧ P (status kv.2) = true.

#[global] Instance own_dec P kv : Decision (own P kv).
Proof. unfold own. apply _. Defined.

Definition step_trials_where (P : TrialStatus → bool) (e : Experiment) : nat :=
  size (filter (own P) (trials e)).

Definition not_failed_or_abandoned (s : TrialStatus) : bool :=
  negb (bool_decide (s = FAILED) || bool_decide (s = ABANDONED)).

Definition completed_or_early_stopped (s : TrialStatus) : bool :=
  bool_decide (s = COMPLETED) || bool_decide (s = EARLY_STOPPED).

End step_accounting.

(** A trial of the experiment changes status (the experiment's own
    bookkeeping, [BaseTrial.mark_completed] and the like). *)
Definition set_trial_status (i : Z) (s : TrialStatus) (e : Experiment) : Experiment :=
  {| exp_name := exp_name e;
     trials := alter (λ t, {| status := s;
                              _generation_step_index := _generation_step_index t |})
                     i (trials e);
     metrics := metrics e;
     arms_by_signature := arms_by_signature e;
     attached_data := attached_data e |}.

(** ** A state-and-exception monad

    A method runs on a state [S] and returns a value or raises; the state it
    leaves behind is kept in both cases. *)

Definition M (S A : Type) : Type := S → Result A * S.

#[global] Instance M_ret {S} : MRet (M S) := λ A a st, (Ok a, st).

#[global] Instance M_bind {S} : MBind (M S) := λ A B f m st,
  match m st with
  | (Ok a, st') => f a st'
  | (Raise e, st') => (Raise e, st')
  end.

Definition raise {S A} (e : Exn) : M S A := λ st, (Raise e, st).
Definition get {S} : M S S := λ st, (Ok st, st).
Definition put {S} (st : S) : M S unit := λ _, (Ok tt, st).
Definition modify {S} (f : S → S) : M S unit := λ st, (Ok tt, f st).

(** A result computed without touching the state. *)
Definition lift {S A} (r : Result A) : M S A := λ st, (r, st).

(** An optional value whose absence is the given exception. *)
Definition from_option {S A} (e : Exn) (o : option A) : M S A :=
  match o with Some a => mret a | None => raise e end.

(** [try: m except exn: handler]. *)
Definition try_except {S A} (m : M S A) (catches : Exn → bool) (handler : Exn → M S A)
  : M S A := λ st,
  match m st with
  | (Raise e, st') => if catches e then handler e st' else (Raise e, st')
  | r => r
  end.

(** Python's [l[i]]: a negative index counts from the end, an index out of
    range raises [IndexError]. The position found is returned with the
    element, to serve as a reference to it. *)
Definition py_index {A} (l : list A) (i : Z) : Result (nat * A) :=
  let pos := if bool_decide (i < 0) then i + Z.of_nat (length l) else i in
  if bool_decide (pos < 0) then Raise IndexError
  else match l !! Z.to_nat pos with
       | Some a => Ok (Z.to_nat pos, a)
       | None => Raise IndexError
       end.

(** ** Generator runs and the calls made to the model collaborator *)

Record GeneratorRun := {
  arms : list Arm;
  gr_generation_step_index : option Z;     (* [_generation_step_index] *)
  _model_state_after_gen : option Kwargs;
}.

(** [ObservationFeatures.from_arm]: the features of an arm, named by its
    signature. *)
Record ObservationFeatures := {
  from_arm : string;
}.

#[global] Instance ObservationFeatures_eq_dec : EqDecision ObservationFeatures.
Proof. solve_decision. Defined.

(** The contents of a [pending_observations] dictionary. *)
Abbreviation Pending := (gmap string (list ObservationFeatures)).

(** The calls that reach the model collaborator, in the order they are made.
    A fitted model is named by the position of the [CallFit] that built it. *)
Inductive Call :=
  | CallFit (model : ModelRef) (data : Data) (kwargs : Kwargs)
  | CallUpdate (fitted : nat) (new_data : Data)
  | CallCrossValidate (fitted : nat)
  | CallBestDiagnostic (selector : nat) (fitted : list nat)
  | CallGen (fitted : nat) (n : option Z) (pending_observations : option Pending)
            (kwargs : Kwargs).

(** The collaborators: what a model answers to a call is a function of the
    calls made so far (the last of which is the call being answered) and, for
    the calls that receive it, of the experiment. *)
Record Collaborators := {
  model_fit : list Call → Experiment → option Exn;
  model_update : list Call → Experiment → option Exn;
  model_cross_validate : list Call → option Exn;
  best_diagnostic : list Call → Z;
  model_gen : list Call → Result GeneratorRun;
  is_met : nat → Experiment → bool;
  _extract_model_state_after_gen : GeneratorRun → option nat → ModelRef → Kwargs;
}.

(** Python truth of an optional dictionary. *)
Definition truthy `{Countable K} {V} (d : option (gmap K V)) : bool :=
  match d with
  | None => false
  | Some m => negb (bool_decide (m = ∅))
  end.

(** ** [GenerationNode] *)

Record NodeSt := {
  nd : GenerationNode;
  nlog : list Call;
}.

Definition set_model_spec_to_gen_from (o : option nat) (self : GenerationNode)
  : GenerationNode :=
  {| model_specs := model_specs self;
     best_model_selector := best_model_selector self;
     should_deduplicate := should_deduplicate self;
     _model_spec_to_gen_from := o |}.

Definition set_model_specs (l : list ModelSpec) (self : GenerationNode)
  : GenerationNode :=
  {| model_specs := l;
     best_model_selector := best_model_selector self;
     should_deduplicate := should_deduplicate self;
     _model_spec_to_gen_from := _model_spec_to_gen_from self |}.

Definition set_fitted_model (o : option nat) (self : ModelSpec) : ModelSpec :=
  {| spec_model := spec_model self;
     spec_model_kwargs := spec_model_kwargs self;
     spec_model_gen_kwargs := spec_model_gen_kwargs self;
     _fitted_model := o |}.

Definition modify_nd (f : GenerationNode → GenerationNode) : M NodeSt unit :=
  modify (λ st, {| nd := f (nd st); nlog := nlog st |}).

(** A call is recorded; the log with the call in it is returned for the
    collaborator to answer. *)
Definition record_call (c : Call) : M NodeSt (list Call) := λ st,
  let l := nlog st ++ [c] in (Ok l, {| nd := nd st; nlog := l |}).

Section generation_node.
Variable collab : Collaborators.

(** Modelled from the spec: [ModelSpec.cross_validate] is not among the
    sources; the spec has it run the validation of the fitted model, which
    must have been fitted. *)
Definition model_spec_cross_validate (model_spec : ModelSpec) : M NodeSt unit :=
  fitted ← from_option UserInputError (_fitted_model model_spec);
  l ← record_call (CallCrossValidate fitted);
  match model_cross_validate collab l with
  | Some e => raise e
  | None => mret tt
  end.

(** [for model_spec in self.model_specs: model_spec.cross_validate()]. *)
Fixpoint cross_validate_all (specs : list ModelSpec) : M NodeSt unit :=
  match specs with
  | [] => mret tt
  | model_spec :: rest =>
      model_spec_cross_validate model_spec;; cross_validate_all rest
  end.

(** [GenerationNode._pick_fitted_model_to_gen_from]; the model spec picked
    is returned as its position in [model_specs]. *)
Definition _pick_fitted_model_to_gen_from : M NodeSt nat :=
  st ← get;
  let self := nd st in
  match best_model_selector self with
  | None =>
      if bool_decide (length (model_specs self) ≠ 1%nat)
      then raise NotImplementedError
      else mret 0%nat
  | Some selector =>
      cross_validate_all (model_specs self);;
      l ← record_call (CallBestDiagnostic selector
                         (omap _fitted_model (model_specs self)));
      let best_model_index := best_diagnostic collab l in
      '(pos, _) ← lift (py_index (model_specs self) best_model_index);
      mret pos
  end.

(** The property [GenerationNode.model_spec_to_gen_from]. *)
Definition model_spec_to_gen_from : M NodeSt nat :=
  st ← get;
  match _model_spec_to_gen_from (nd st) with
  | Some pos => mret pos
  | None =>
      pos ← _pick_fitted_model_to_gen_from;
      modify_nd (set_model_spec_to_gen_from (Some pos));;
      mret pos
  end.

(** Modelled from the spec: [ModelSpec.gen] is not among the sources; the
    spec has it delegate to the generation of the fitted model with the
    call's keyword arguments laid over the spec's [model_gen_kwargs], and
    fail when called before [fit]. *)
Definition model_spec_gen (model_spec : ModelSpec) (n : option Z)
    (pending_observations : option Pending) (model_gen_kwargs : Kwargs)
  : M NodeSt GeneratorRun :=
  fitted ← from_option UserInputError (_fitted_model model_spec);
  let kwargs := model_gen_kwargs ∪ default ∅ (spec_model_gen_kwargs model_spec) in
  l ← record_call (CallGen fitted n pending_observations kwargs);
  lift (model_gen collab l).

(** The test that decides whether [gen] draws again. *)
Definition has_duplicate_arm (arms_by_signature_for_deduplication : gmap string Arm)
    (generator_run : GeneratorRun) : bool :=
  existsb (λ arm, bool_decide (signature arm ∈ dom arms_by_signature_for_deduplication))
          (arms generator_run).

(** The [while should_generate_run] loop of [GenerationNode.gen], entered
    with [n_gen_draws] draws made.  The loop is written on a bound of
    iterations, [fuel]; [OutOfFuel] marks its exhaustion. *)
Fixpoint gen_draws (fuel : nat) (pos : nat) (n : option Z)
    (pending_observations : option Pending)
    (max_gen_draws_for_deduplication : Z)
    (arms_by_signature_for_deduplication : option (gmap string Arm))
    (model_gen_kwargs : Kwargs) (n_gen_draws : Z) : M NodeSt GeneratorRun :=
  match fuel with
  | O => raise OutOfFuel
  | S fuel =>
      st ← get;
      model_spec ← from_option DanglingReference (model_specs (nd st) !! pos);
      generator_run ←
        model_spec_gen model_spec
          (if bool_decide (n = None) && truthy (spec_model_gen_kwargs model_spec)
           then default ∅ (spec_model_gen_kwargs model_spec) !! "n"
           else n)
          pending_observations model_gen_kwargs;
      let should_generate_run :=
        should_deduplicate (nd st)
        && truthy arms_by_signature_for_deduplication
        && has_duplicate_arm (default ∅ arms_by_signature_for_deduplication)
                             generator_run in
      let n_gen_draws := n_gen_draws + 1 in
      if should_generate_run then
        if n_gen_draws >? max_gen_draws_for_deduplication
        then raise GenerationStrategyRepeatedPoints
        else gen_draws fuel pos n pending_observations
               max_gen_draws_for_deduplication
               arms_by_signature_for_deduplication model_gen_kwargs n_gen_draws
      else mret generator_run
  end.

(** The draws [GenerationNode.gen] can make: one, and one more for every
    value of [n_gen_draws] that does not exceed the maximum. *)
Definition draws_bound (max_gen_draws_for_deduplication : Z) : nat :=
  S (Z.to_nat max_gen_draws_for_deduplication).

(** [GenerationNode.gen]. *)
Definition node_gen (n : option Z) (pending_observations : option Pending)
    (max_gen_draws_for_deduplication : Z)
    (arms_by_signature_for_deduplication : option (gmap string Arm))
    (model_gen_kwargs : Kwargs) : M NodeSt GeneratorRun :=
  pos ← model_spec_to_gen_from;
  gen_draws (draws_bound max_gen_draws_for_deduplication) pos n
    pending_observations max_gen_draws_for_deduplication
    arms_by_signature_for_deduplication model_gen_kwargs 0.

End generation_node.

(** [MAX_GEN_DRAWS]. *)
Definition MAX_GEN_DRAWS : Z := 5.

(** The vocabulary of the draws of one [gen]. *)
Section draws.
Variable collab : Collaborators.
Variables (pos : nat) (n : option Z) (pending : option Pending).
Variables (seen : gmap string Arm) (kwargs : Kwargs).
Variables (model_spec : ModelSpec) (fitted : nat).

(** The call every draw of one [gen] makes: the inputs do not change. *)
Definition the_draw : Call :=
  CallGen fitted
    (if bool_decide (n = None) && truthy (spec_model_gen_kwargs model_spec)
     then default ∅ (spec_model_gen_kwargs model_spec) !! "n" else n)
    pending (kwargs ∪ default ∅ (spec_model_gen_kwargs model_spec)).

(** The node can draw from the model spec at [pos] and deduplicates against
    [seen]. *)
Definition ready (st : NodeSt) : Prop :=
  model_specs (nd st) !! pos = Some model_spec
  ∧ _fitted_model model_spec = Some fitted
  ∧ should_deduplicate (nd st) = true
  ∧ truthy (Some seen) = true.

Definition after_draws (k : nat) (st : NodeSt) : NodeSt :=
  {| nd := nd st; nlog := nlog st ++ replicate k the_draw |}.

(** The [i]-th draw is answered with a run that repeats a known arm. *)
Definition duplicate_draw (st : NodeSt) (i : nat) : Prop :=
  ∃ gr, model_gen collab (nlog st ++ replicate i the_draw) = Ok gr
        ∧ has_duplicate_arm seen gr = true.

(** A node as a [GenerationStep] builds it: one model spec, no selector. *)
Definition single_spec_node (st : NodeSt) : Prop :=
  best_model_selector (nd st) = None
  ∧ model_specs (nd st) = [model_spec]
  ∧ _model_spec_to_gen_from (nd st) = None
  ∧ _fitted_model model_spec = Some fitted
  ∧ should_deduplicate (nd st) = true
  ∧ seen ≠ ∅.

Definition picked (st : NodeSt) : NodeSt :=
  {| nd := set_model_spec_to_gen_from (Some 0%nat) (nd st); nlog := nlog st |}.
End draws.

(** ** A model stub for deduplication

    The first [k] draws return the arm [dup], every later draw the arm
    [unique]; nothing else ever fails. *)

Definition is_gen_call (c : Call) : bool :=
  match c with CallGen _ _ _ _ => true | _ => false end.

Definition single_arm_run (a : Arm) : GeneratorRun :=
  {| arms := [a]; gr_generation_step_index := None; _model_state_after_gen := None |}.

Definition stub_model_gen (k : nat) (dup unique : Arm) (l : list Call)
  : Result GeneratorRun :=
  if bool_decide (length (filter (λ c, is_gen_call c = true) l) ≤ k)%nat
  then Ok (single_arm_run dup)
  else Ok (single_arm_run unique).

Definition stub_collaborators (k : nat) (dup unique : Arm) : Collaborators :=
  {| model_fit := λ _ _, None;
     model_update := λ _ _, None;
     model_cross_validate := λ _, None;
     best_diagnostic := λ _, 0;
     model_gen := stub_model_gen k dup unique;
     is_met := λ _ _, false;
     _extract_model_state_after_gen := λ _ _ _, ∅ |}.

Definition dup_arm : Arm := {| arm_name := "0_0"; signature := "sig-dup" |}.
Definition unique_arm : Arm := {| arm_name := "1_0"; signature := "sig-new" |}.

(** A node with one fitted model spec and deduplication switched on. *)
Definition dedup_node : GenerationNode :=
  {| model_specs := [ {| spec_model := RegistryModel "Sobol";
                         spec_model_kwargs := None;
                         spec_model_gen_kwargs := None;
                         _fitted_model := Some 0%nat |} ];
     best_model_selector := None;
     should_deduplicate := true;
     _model_spec_to_gen_from := None |}.

Definition dedup_start : NodeSt :=
  {| nd := dedup_node; nlog := [CallFit (RegistryModel "Sobol") [] ∅] |}.

Definition seen_arms : gmap string Arm := {[ "sig-dup" := dup_arm ]}.

(** ** Construction of steps and strategies *)

#[global] Instance Result_ret : MRet Result := λ A a, Ok a.

#[global] Instance Result_bind : MBind Result := λ A B f r,
  match r with
  | Ok a => f a
  | Raise e => Raise e
  end.

Definition is_registry_model (m : ModelRef) : bool :=
  match m with RegistryModel _ => true | _ => false end.

(** [model_spec.model_key]; [None] where reading it raises [TypeError]. *)
Definition model_key (m : ModelRef) : option string :=
  match m with
  | RegistryModel key => Some key
  | FactoryFunction fname => fname
  | NotAModel => None
  end.

(** The fields a [GenerationStep(...)] call stores before [__post_init__]
    runs, with the defaults of the dataclass for [index] and for what the
    base class sets later. *)
Definition dataclass_fields (model : ModelRef) (num_trials : Z)
    (model_kwargs model_gen_kwargs : option Kwargs)
    (completion_criteria : list nat) (min_trials_observed : Z)
    (max_parallelism : option Z) (use_update enforce_num_trials : bool)
    (should_deduplicate : bool) (model_name : string) : GenerationStep :=
  {| node := {| model_specs := [];
                best_model_selector := None;
                should_deduplicate := should_deduplicate;
                _model_spec_to_gen_from := None |};
     model := model;
     num_trials := num_trials;
     model_kwargs := model_kwargs;
     model_gen_kwargs := model_gen_kwargs;
     completion_criteria := completion_criteria;
     min_trials_observed := min_trials_observed;
     max_parallelism := max_parallelism;
     use_update := use_update;
     enforce_num_trials := enforce_num_trials;
     index := -1;
     model_name := model_name |}.

Definition set_node (nd' : GenerationNode) (self : GenerationStep) : GenerationStep :=
  {| node := nd';
     model := model self;
     num_trials := num_trials self;
     model_kwargs := model_kwargs self;
     model_gen_kwargs := model_gen_kwargs self;
     completion_criteria := completion_criteria self;
     min_trials_observed := min_trials_observed self;
     max_parallelism := max_parallelism self;
     use_update := use_update self;
     enforce_num_trials := enforce_num_trials self;
     index := index self;
     model_name := model_name self |}.

Definition set_index (idx : Z) (self : GenerationStep) : GenerationStep :=
  {| node := node self;
     model := model self;
     num_trials := num_trials self;
     model_kwargs := model_kwargs self;
     model_gen_kwargs := model_gen_kwargs self;
     completion_criteria := completion_criteria self;
     min_trials_observed := min_trials_observed self;
     max_parallelism := max_parallelism self;
     use_update := use_update self;
     enforce_num_trials := enforce_num_trials self;
     index := idx;
     model_name := model_name self |}.

Definition set_model_name (name : string) (self : GenerationStep) : GenerationStep :=
  {| node := node self;
     model := model self;
     num_trials := num_trials self;
     model_kwargs := model_kwargs self;
     model_gen_kwargs := model_gen_kwargs self;
     completion_criteria := completion_criteria self;
     min_trials_observed := min_trials_observed self;
     max_parallelism := max_parallelism self;
     use_update := use_update self;
     enforce_num_trials := enforce_num_trials self;
     index := index self;
     model_name := name |}.

(** [GenerationStep.__post_init__]. *)
Definition __post_init__ (self : GenerationStep) : Result GenerationStep :=
  if enforce_num_trials self
     && (num_trials self >=? 0)
     && (min_trials_observed self >? num_trials self)
  then Raise UserInputError
  else
    if negb (is_registry_model (model self))
       && negb (match model self with FactoryFunction _ => true | _ => false end)
    then Raise UserInputError
    else
      let model_spec := {| spec_model := model self;
                           spec_model_kwargs := model_kwargs self;
                           spec_model_gen_kwargs := model_gen_kwargs self;
                           _fitted_model := None |} in
      let self :=
        if bool_decide (model_name self = "")
        then set_model_name
               (default "Unknown FactoryFunctionModelSpec" (model_key (model self)))
               self
        else self in
      Ok (set_node {| model_specs := [model_spec];
                      best_model_selector := None;
                      should_deduplicate := should_deduplicate self;
                      _model_spec_to_gen_from := None |} self).

(** The snapshot [_seen_trial_indices_by_status]. *)
Definition ByStatus := TrialStatus → gset Z.

(** [GenerationStrategy]. [_curr] is a reference to one of [_steps], kept as
    its position; [_experiment] is a reference to an experiment, which lives
    and changes outside the strategy; [_model] names a fitted model. *)
Record GenerationStrategy := {
  _name : option string;
  _steps : list GenerationStep;
  _curr : nat;
  _uses_registered_models : bool;
  _generator_runs : list GeneratorRun;
  _experiment : option nat;
  _seen_trial_indices_by_status : option ByStatus;
  _model : option nat;
}.

(** The loop of [GenerationStrategy.__init__] over [enumerate(self._steps)]:
    the steps with their [index] set, and [_uses_registered_models]. *)
Fixpoint init_steps (len : Z) (idx : Z) (steps : list GenerationStep)
    (uses_registered_models : bool) : Result (list GenerationStep * bool) :=
  match steps with
  | [] => Ok ([], uses_registered_models)
  | step :: rest =>
      (if (num_trials step =? -1)
          && (Z.of_nat (length (completion_criteria step)) <? 1)
       then (if idx <? len - 1 then Raise UserInputError else Ok tt)
       else if (num_trials step <? 1) && negb (num_trials step =? -1)
            then Raise UserInputError
            else Ok tt);;
      (match max_parallelism step with
       | Some max_parallelism =>
           if max_parallelism <? 1 then Raise UserInputError else Ok tt
       | None => Ok tt
       end);;
      let step := set_index idx step in
      let uses_registered_models :=
        if negb (is_registry_model (model step)) then false
        else uses_registered_models in
      '(rest, uses_registered_models) ←
        init_steps len (idx + 1) rest uses_registered_models;
      Ok (step :: rest, uses_registered_models)
  end.

(** [GenerationStrategy.__init__]. *)
Definition __init__ (steps : list GenerationStep) (name : option string)
  : Result GenerationStrategy :=
  '(steps, uses_registered_models) ←
    init_steps (Z.of_nat (length steps)) 0 steps true;
  '(curr, _) ← py_index steps 0;
  Ok {| _name := name;
        _steps := steps;
        _curr := curr;
        _uses_registered_models := uses_registered_models;
        _generator_runs := [];
        _experiment := None;
        _seen_trial_indices_by_status := None;
        _model := None |}.

(** ** The state a strategy runs on *)

(** The [pending_observations] dictionaries are Python objects that are
    shared and changed in place: a dictionary maps a metric name to a list
    object, and both kinds of object live in a store. *)
Record PHeap := {
  dicts : gmap nat (gmap string nat);
  lists : gmap nat (list ObservationFeatures);
}.

Record St := {
  gs : GenerationStrategy;
  calls : list Call;
  heap : PHeap;
}.

Definition modify_gs (f : GenerationStrategy → GenerationStrategy) : M St unit :=
  modify (λ st, {| gs := f (gs st); calls := calls st; heap := heap st |}).

Definition modify_heap (f : PHeap → PHeap) : M St unit :=
  modify (λ st, {| gs := gs st; calls := calls st; heap := f (heap st) |}).

Definition set_name (name : option string) (self : GenerationStrategy) :=
  {| _name := name;
     _steps := _steps self;
     _curr := _curr self;
     _uses_registered_models := _uses_registered_models self;
     _generator_runs := _generator_runs self;
     _experiment := _experiment self;
     _seen_trial_indices_by_status := _seen_trial_indices_by_status self;
     _model := _model self |}.

Definition set_steps (steps : list GenerationStep) (self : GenerationStrategy) :=
  {| _name := _name self;
     _steps := steps;
     _curr := _curr self;
     _uses_registered_models := _uses_registered_models self;
     _generator_runs := _generator_runs self;
     _experiment := _experiment self;
     _seen_trial_indices_by_status := _seen_trial_indices_by_status self;
     _model := _model self |}.

Definition set_curr (curr : nat) (self : GenerationStrategy) :=
  {| _name := _name self;
     _steps := _steps self;
     _curr := curr;
     _uses_registered_models := _uses_registered_models self;
     _generator_runs := _generator_runs self;
     _experiment := _experiment self;
     _seen_trial_indices_by_status := _seen_trial_indices_by_status self;
     _model := _model self |}.

Definition set_generator_runs (runs : list GeneratorRun) (self : GenerationStrategy) :=
  {| _name := _name self;
     _steps := _steps self;
     _curr := _curr self;
     _uses_registered_models := _uses_registered_models self;
     _generator_runs := runs;
     _experiment := _experiment self;
     _seen_trial_indices_by_status := _seen_trial_indices_by_status self;
     _model := _model self |}.

Definition set_experiment (experiment : option nat) (self : GenerationStrategy) :=
  {| _name := _name self;
     _steps := _steps self;
     _curr := _curr self;
     _uses_registered_models := _uses_registered_models self;
     _generator_runs := _generator_runs self;
     _experiment := experiment;
     _seen_trial_indices_by_status := _seen_trial_indices_by_status self;
     _model := _model self |}.

Definition set_seen (seen : option ByStatus) (self : GenerationStrategy) :=
  {| _name := _name self;
     _steps := _steps self;
     _curr := _curr self;
     _uses_registered_models := _uses_registered_models self;
     _generator_runs := _generator_runs self;
     _experiment := _experiment self;
     _seen_trial_indices_by_status := seen;
     _model := _model self |}.

Definition set_model (m : option nat) (self : GenerationStrategy) :=
  {| _name := _name self;
     _steps := _steps self;
     _curr := _curr self;
     _uses_registered_models := _uses_registered_models self;
     _generator_runs := _generator_runs self;
     _experiment := _experiment self;
     _seen_trial_indices_by_status := _seen_trial_indices_by_status self;
     _model := m |}.

Definition set_gr_generation_step_index (o : option Z) (gr : GeneratorRun) :=
  {| arms := arms gr;
     gr_generation_step_index := o;
     _model_state_after_gen := _model_state_after_gen gr |}.

(** A method of the node of the current step, run where the strategy stands:
    the node it leaves replaces the node of the step, the calls it made are
    added to the strategy's. *)
Definition on_current_node {A} (m : M NodeSt A) : M St A := λ st,
  match _steps (gs st) !! _curr (gs st) with
  | None => (Raise DanglingReference, st)
  | Some step =>
      let '(r, nst) := m {| nd := node step; nlog := calls st |} in
      (r, {| gs := set_steps (<[_curr (gs st) := set_node (nd nst) step]> (_steps (gs st)))
                             (gs st);
             calls := nlog nst;
             heap := heap st |})
  end.

(** [GenerationNode.fit] and what it calls. *)
Section node_fit.
Variable collab : Collaborators.

(** Modelled from the spec: [ModelSpec.fit] is not among the sources; the
    spec has it lay the call's keyword arguments over the spec's
    [model_kwargs], build and fit the model, keep it as the fitted model,
    and let a failure through. *)
Definition model_spec_fit (pos : nat) (experiment : Experiment) (data : Data)
    (kwargs : Kwargs) : M NodeSt unit :=
  st ← get;
  model_spec ← from_option DanglingReference (model_specs (nd st) !! pos);
  let combined := kwargs ∪ default ∅ (spec_model_kwargs model_spec) in
  l ← record_call (CallFit (spec_model model_spec) data combined);
  match model_fit collab l experiment with
  | Some e => raise e
  | None =>
      modify_nd (λ self,
        set_model_specs
          (<[pos := set_fitted_model (Some (length l - 1)%nat) model_spec]>
             (model_specs self)) self)
  end.

Fixpoint fit_each (positions : list nat) (experiment : Experiment) (data : Data)
    (kwargs : Kwargs) : M NodeSt unit :=
  match positions with
  | [] => mret tt
  | pos :: rest =>
      model_spec_fit pos experiment data kwargs;;
      fit_each rest experiment data kwargs
  end.

(** [GenerationNode.fit]. *)
Definition node_fit (experiment : Experiment) (data : Data) (kwargs : Kwargs)
  : M NodeSt unit :=
  modify_nd (set_model_spec_to_gen_from None);;
  st ← get;
  fit_each (seq 0 (length (model_specs (nd st)))) experiment data kwargs.
End node_fit.

(** [GenerationStep.get_data_for_fit]. *)
Definition get_data_for_fit (self : GenerationStep) (experiment : option Experiment)
    (passed_in_data : option Data) (previous_step_required_observations : bool)
  : Result Data :=
  data ←
    match passed_in_data with
    | None =>
        match experiment with
        | None => Raise ValueError
        | Some e =>
            if use_update self then
              let avail_while_running_metrics :=
                filter (λ kv, is_available_while_running kv.2 = true) (metrics e) in
              if negb (bool_decide (avail_while_running_metrics = ∅))
              then Raise NotImplementedError
              else Ok (lookup_data e (Some (trial_indices_by_status e COMPLETED)))
            else Ok (lookup_data e None)
        end
    | Some data => Ok data
    end;
  if df_empty data && previous_step_required_observations
  then Raise NoDataError
  else Ok data.

(** ** [GenerationStrategy]: the state machine *)

Section generation_strategy.
Variable collab : Collaborators.
(** The experiments, by reference, as they are when the method runs. *)
Variable experiments : nat → Experiment.

(** The property [experiment], that is [self.experiment]. *)
Definition self_experiment : M St Experiment :=
  st ← get;
  match _experiment (gs st) with
  | None => raise ValueError
  | Some r => mret (experiments r)
  end.

(** What [step.experiment] finds, [None] where it raises [ValueError]. *)
Definition bound_experiment (st : St) : option Experiment :=
  experiments <$> _experiment (gs st).

(** The setter of [experiment]. *)
Definition experiment_setter (experiment : nat) : M St unit :=
  st ← get;
  match _experiment (gs st) with
  | None => modify_gs (set_experiment (Some experiment))
  | Some r =>
      if bool_decide (exp_name (experiments experiment) = exp_name (experiments r))
      then modify_gs (set_experiment (Some experiment))
      else raise ValueError
  end.

(** [self._curr]. *)
Definition current_step : M St GenerationStep :=
  st ← get;
  from_option DanglingReference (_steps (gs st) !! _curr (gs st)).

Definition record (c : Call) : M St (list Call) := λ st,
  let l := calls st ++ [c] in
  (Ok l, {| gs := gs st; calls := l; heap := heap st |}).

(** [self._curr = self._steps[self._curr.index + 1]; self._model = None]. *)
Definition move_to_next (curr : GenerationStep) : M St unit :=
  st ← get;
  '(pos, _) ← lift (py_index (_steps (gs st)) (index curr + 1));
  modify_gs (set_curr pos);;
  modify_gs (set_model None).

(** [GenerationStrategy._maybe_move_to_next_step]. *)
Definition _maybe_move_to_next_step (raise_data_required_error : bool) : M St bool :=
  curr ← current_step;
  st ← get;
  '(to_gen, to_complete) ←
    lift (num_trials_to_gen_and_complete curr (bound_experiment st));
  if (to_gen =? to_complete) && (to_complete =? -1) then
    criteria_met ←
      (if Z.of_nat (length (completion_criteria curr)) >? 0
       then e ← self_experiment;
            mret (forallb (λ criterion, is_met collab criterion e)
                          (completion_criteria curr))
       else mret false);
    if criteria_met : bool then
      if Z.of_nat (length (_steps (gs st))) =? index curr + 1
      then raise GenerationStrategyCompleted
      else move_to_next curr;; mret true
    else mret false
  else
    let enforcing_num_trials := enforce_num_trials curr in
    let trials_left_to_gen := to_gen >? 0 in
    let trials_left_to_complete := to_complete >? 0 in
    if trials_left_to_gen || trials_left_to_complete then
      let raise_error := raise_data_required_error in
      if raise_error && enforcing_num_trials && negb trials_left_to_gen
      then raise DataRequiredError
      else mret false
    else
      if Z.of_nat (length (_steps (gs st))) =? index curr + 1
      then raise GenerationStrategyCompleted
      else move_to_next curr;; mret true.

(** [GenerationStrategy.current_generator_run_limit]. *)
Definition current_generator_run_limit : M St (Z * bool) :=
  completed ←
    try_except (_maybe_move_to_next_step false;; mret false)
               (λ e, bool_decide (e = GenerationStrategyCompleted))
               (λ _, mret true);
  if completed : bool then mret (0, true)
  else
    curr ← current_step;
    st ← get;
    '(to_gen, _) ← lift (num_trials_to_gen_and_complete curr (bound_experiment st));
    if to_gen <? -1 then raise RuntimeError
    else
      until_max_parallelism ←
        lift (num_remaining_trials_until_max_parallelism curr
                (bound_experiment st) false);
      match until_max_parallelism with
      | Some until_max_parallelism =>
          if to_gen =? -1 then mret (until_max_parallelism, false)
          else mret (Z.min to_gen until_max_parallelism, false)
      | None => mret (to_gen, false)
      end.

(** The property [name]: the default name is kept once computed. *)
Definition trim_get_ (n : string) : string :=
  if String.prefix "get_" n
  then String.substring 4 (String.length n - 4) n
  else n.

Definition name : M St string :=
  st ← get;
  match _name (gs st) with
  | Some name => mret name
  | None =>
      let factory_names := model_name <$> _steps (gs st) in
      let name := String.concat "+" (trim_get_ <$> factory_names) in
      modify_gs (set_name (Some name));;
      mret name
  end.

(** [GenerationStrategy.clone_reset]. The copies [deepcopy] makes of the
    steps are new objects with the fields of the old, what their nodes cache
    included; as values they are the old steps. *)
Definition deepcopy_steps (steps : list GenerationStep) : list GenerationStep :=
  steps.

Definition clone_reset : M St GenerationStrategy :=
  name ← name;
  st ← get;
  lift (__init__ (deepcopy_steps (_steps (gs st))) (Some name)).

(** [self._curr.model_spec], that is [self._curr.model_specs[0]]. *)
Definition curr_model_spec : M St ModelSpec :=
  curr ← current_step;
  '(_, model_spec) ← lift (py_index (model_specs (node curr)) 0);
  mret model_spec.

(** [GenerationStrategy._fit_current_model]. *)
Definition _fit_current_model (data : Data) : M St unit :=
  st ← get;
  curr ← current_step;
  let lgr := last (_generator_runs (gs st)) in
  let model_on_curr := model curr in
  model_state_on_lgr ←
    match lgr with
    | Some lgr =>
        if bool_decide (gr_generation_step_index lgr = Some (index curr))
           && truthy (_model_state_after_gen lgr)
        then
          model_spec ← curr_model_spec;
          if bool_decide (is_Some (_fitted_model model_spec))
             || is_registry_model model_on_curr
          then mret (_extract_model_state_after_gen collab lgr
                       (_fitted_model model_spec) model_on_curr)
          else mret ∅
        else mret ∅
    | None => mret ∅
    end;
  e ← self_experiment;
  on_current_node (node_fit collab e data model_state_on_lgr);;
  model_spec ← curr_model_spec;
  fitted ← from_option UserInputError (_fitted_model model_spec);
  modify_gs (set_model (Some fitted)).

(** [GenerationStrategy._update_current_model]. *)
Definition _update_current_model (new_data : Data) : M St unit :=
  st ← get;
  match _model (gs st) with
  | None => raise ValueError
  | Some fitted =>
      e ← self_experiment;
      l ← record (CallUpdate fitted new_data);
      match model_update collab l e with
      | Some exn => raise exn
      | None => mret tt
      end
  end.

(** [GenerationStrategy._find_trials_completed_since_last_gen]. *)
Definition _find_trials_completed_since_last_gen : M St (gset Z) :=
  e ← self_experiment;
  st ← get;
  let completed_now := trial_indices_by_status e COMPLETED in
  match _seen_trial_indices_by_status (gs st) with
  | None => mret completed_now
  | Some seen =>
      let completed_before := seen COMPLETED in
      mret (completed_now ∖ completed_before)
  end.

(** [GenerationStrategy._get_data_for_update]. *)
Definition _get_data_for_update (passed_in_data : option Data) : M St (option Data) :=
  newly_completed_trials ← _find_trials_completed_since_last_gen;
  if bool_decide (size newly_completed_trials = 0%nat) then mret None
  else
    match passed_in_data with
    | None =>
        e ← self_experiment;
        let new_data := lookup_data e (Some newly_completed_trials) in
        if df_empty new_data then mret None else mret (Some new_data)
    | Some passed_in_data =>
        if df_empty passed_in_data then mret None
        else mret (Some (filter (λ r, trial_index r ∈ newly_completed_trials)
                                passed_in_data))
    end.

(** [GenerationStrategy._save_seen_trial_indices]. *)
Definition _save_seen_trial_indices : M St unit :=
  e ← self_experiment;
  modify_gs (set_seen (Some (trial_indices_by_status e))).

(** [GenerationStrategy._fit_or_update_current_model]. *)
Definition _fit_or_update_current_model (data : option Data) : M St unit :=
  st ← get;
  curr ← current_step;
  (if bool_decide (is_Some (_model (gs st))) && use_update curr then
     new_data ← _get_data_for_update data;
     match new_data with
     | Some new_data => _update_current_model new_data
     | None => mret tt
     end
   else
     previous_step_req_observations ←
       (if index curr >? 0
        then '(_, previous) ← lift (py_index (_steps (gs st)) (index curr - 1));
             mret (min_trials_observed previous >? 0)
        else mret false);
     data ← lift (get_data_for_fit curr (bound_experiment st) data
                    previous_step_req_observations);
     _fit_current_model data);;
  _save_seen_trial_indices.

End generation_strategy.

(** The strategy after the move to the step at [pos]. *)
Definition moved_to (pos : nat) (st : St) : St :=
  {| gs := set_model None (set_curr pos (gs st)); calls := calls st; heap := heap st |}.

(** ** Pending observations in the store *)

Definition alloc_list (l : list ObservationFeatures) : M St nat := λ st,
  let r := fresh (dom (lists (heap st))) in
  (Ok r, {| gs := gs st; calls := calls st;
            heap := {| dicts := dicts (heap st);
                       lists := <[r := l]> (lists (heap st)) |} |}).

Definition alloc_dict (d : gmap string nat) : M St nat := λ st,
  let r := fresh (dom (dicts (heap st))) in
  (Ok r, {| gs := gs st; calls := calls st;
            heap := {| dicts := <[r := d]> (dicts (heap st));
                       lists := lists (heap st) |} |}).

Definition read_dict (r : nat) : M St (gmap string nat) :=
  st ← get;
  from_option DanglingReference (dicts (heap st) !! r).

Definition read_list (r : nat) : M St (list ObservationFeatures) :=
  st ← get;
  from_option DanglingReference (lists (heap st) !! r).

Definition write_dict (r : nat) (d : gmap string nat) : M St unit :=
  modify_heap (λ h, {| dicts := <[r := d]> (dicts h); lists := lists h |}).

Definition write_list (r : nat) (l : list ObservationFeatures) : M St unit :=
  modify_heap (λ h, {| dicts := dicts h; lists := <[r := l]> (lists h) |}).

(** The contents of a dictionary of pending observations. *)
Definition contents (h : PHeap) (r : nat) : option Pending :=
  match dicts h !! r with
  | Some d => Some (omap (λ l, lists h !! l) d)
  | None => None
  end.

(** [deepcopy] on the entries of a dictionary: every list is copied into a
    new list object. *)
Fixpoint deepcopy_entries (entries : list (string * nat)) : M St (gmap string nat) :=
  match entries with
  | [] => mret ∅
  | (k, r) :: rest =>
      l ← read_list r;
      r' ← alloc_list l;
      d ← deepcopy_entries rest;
      mret (<[k := r']> d)
  end.

(** [deepcopy(pending_observations)]. *)
Definition deepcopy (pending_observations : option nat) : M St (option nat) :=
  match pending_observations with
  | None => mret None
  | Some r =>
      d ← read_dict r;
      d' ← deepcopy_entries (map_to_list d);
      r' ← alloc_dict d';
      mret (Some r')
  end.

(** [deepcopy(pending_observations) or {}]. *)
Definition deepcopy_or_empty (pending_observations : option nat) : M St nat :=
  copy ← deepcopy pending_observations;
  match copy with
  | Some r =>
      d ← read_dict r;
      if bool_decide (d = ∅) then alloc_dict ∅ else mret r
  | None => alloc_dict ∅
  end.

(** Modelled from the spec: [extend_pending_observations] of
    [ax.modelbridge.modelbridge_utils] is not among the sources; the spec has
    it extend the map of pending observations with the candidates of the new
    generator run, which it does in place, under every metric of the
    experiment. *)
Fixpoint extend_for_metrics (metric_names : list string) (pending_observations : nat)
    (new : list ObservationFeatures) : M St unit :=
  match metric_names with
  | [] => mret tt
  | m :: rest =>
      d ← read_dict pending_observations;
      r ← match d !! m with
          | Some r => mret r
          | None =>
              r ← alloc_list [];
              write_dict pending_observations (<[m := r]> d);;
              mret r
          end;
      l ← read_list r;
      write_list r (l ++ new);;
      extend_for_metrics rest pending_observations new
  end.

Definition extend_pending_observations (experiment : Experiment)
    (pending_observations : nat) (generator_run : GeneratorRun) : M St unit :=
  extend_for_metrics (map_to_list (metrics experiment)).*1 pending_observations
    ((λ a, {| from_arm := signature a |}) <$> arms generator_run).

(** ** Generation *)

Section generation.
Variable collab : Collaborators.
Variable experiments : nat → Experiment.

(** [GenerationStep.gen] on the current step; [max_gen_draws_for_deduplication]
    is left at its default. *)
Definition step_gen (n : option Z) (pending_observations : nat)
    (arms_by_signature_for_deduplication : option (gmap string Arm))
    (model_gen_kwargs : Kwargs) : M St GeneratorRun :=
  curr ← current_step;
  st ← get;
  gr ← on_current_node
         (node_gen collab n (contents (heap st) pending_observations) MAX_GEN_DRAWS
            arms_by_signature_for_deduplication model_gen_kwargs);
  mret (set_gr_generation_step_index (Some (index curr)) gr).

(** The loop [for _ in range(num_generator_runs)] of [_gen_multiple], with
    [remaining] turns left and [generator_runs] produced so far. *)
Fixpoint gen_loop (remaining : nat) (experiment : nat) (n : Z)
    (pending_observations : nat) (model_gen_kwargs : Kwargs)
    (generator_runs : list GeneratorRun) : M St (list GeneratorRun) :=
  match remaining with
  | O => mret generator_runs
  | S remaining =>
      produced ←
        try_except
          (generator_run ←
             step_gen (Some n) pending_observations
               (Some (arms_by_signature (experiments experiment)))
               model_gen_kwargs;
           mret (Some generator_run))
          (λ e, bool_decide (e = DataRequiredError))
          (λ err,
             if bool_decide (length generator_runs = 0%nat)
             then raise err
             else mret None);
      match produced with
      | None => mret generator_runs
      | Some generator_run =>
          modify_gs (λ self,
            set_generator_runs (_generator_runs self ++ [generator_run]) self);;
          let generator_runs := generator_runs ++ [generator_run] in
          extend_pending_observations (experiments experiment)
            pending_observations generator_run;;
          gen_loop remaining experiment n pending_observations model_gen_kwargs
            generator_runs
      end
  end.

(** [GenerationStrategy._gen_multiple]. *)
Definition _gen_multiple (experiment : nat) (num_generator_runs : Z)
    (data : option Data) (n : Z) (pending_observations : option nat)
    (model_gen_kwargs : Kwargs) : M St (list GeneratorRun) :=
  experiment_setter experiments experiment;;
  _maybe_move_to_next_step collab experiments true;;
  _fit_or_update_current_model collab experiments data;;
  curr ← current_step;
  st ← get;
  num_until_max_parallelism ←
    lift (num_remaining_trials_until_max_parallelism curr
            (bound_experiment experiments st) true);
  let num_generator_runs :=
    match num_until_max_parallelism with
    | Some num_until_max_parallelism =>
        Z.min num_generator_runs num_until_max_parallelism
    | None => num_generator_runs
    end in
  num_generator_runs ←
    (if enforce_num_trials curr && (num_trials curr >? 0)
     then e ← self_experiment experiments;
          mret (Z.min num_generator_runs (num_trials curr - num_can_complete curr e))
     else mret num_generator_runs);
  pending_observations ← deepcopy_or_empty pending_observations;
  gen_loop (Z.to_nat num_generator_runs) experiment n pending_observations
    model_gen_kwargs [].

(** [GenerationStrategy.gen]. *)
Definition gen (experiment : nat) (data : option Data) (n : Z)
    (pending_observations : option nat) (model_gen_kwargs : Kwargs)
  : M St GeneratorRun :=
  runs ← _gen_multiple experiment 1 data n pending_observations model_gen_kwargs;
  '(_, generator_run) ← lift (py_index runs 0);
  mret generator_run.

End generation.

(** ** What construction accepts, in the words of the specification *)

(** A step as [GenerationStep(...)] accepts it: the budget and the minimum to
    observe agree, and the model is a registry entry or a callable. *)
Definition step_accepted (self : GenerationStep) : bool :=
  negb (enforce_num_trials self
        && (0 <=? num_trials self)
        && (num_trials self <? min_trials_observed self))
  && negb (bool_decide (model self = NotAModel)).

(** The step at position [idx] of [len] steps as [GenerationStrategy(...)]
    accepts it: a budget that is positive or -1, an unlimited budget without
    completion criteria only on the last step, a parallelism cap that is
    positive if there is one. *)
Definition step_definition_ok (len idx : Z) (step : GenerationStep) : bool :=
  ((num_trials step =? -1) || (1 <=? num_trials step))
  && negb ((num_trials step =? -1)
           && bool_decide (completion_criteria step = [])
           && (idx <? len - 1))
  && match max_parallelism step with
     | Some cap => 1 <=? cap
     | None => true
     end.

Fixpoint steps_ok (len idx : Z) (steps : list GenerationStep) : bool :=
  match steps with
  | [] => true
  | step :: rest => step_definition_ok len idx step && steps_ok len (idx + 1) rest
  end.

(** The steps numbered from [idx] on. *)
Fixpoint number_from (idx : Z) (steps : list GenerationStep) : list GenerationStep :=
  match steps with
  | [] => []
  | step :: rest => set_index idx step :: number_from (idx + 1) rest
  end.

(** A step with a budget of zero and nothing else amiss. *)
Definition zero_budget_fields : GenerationStep :=
  dataclass_fields (RegistryModel "Sobol") 0 None None [] 0 None false true false "".

(** The same with a budget of [k]. *)
Definition sobol_fields (k : Z) : GenerationStep :=
  dataclass_fields (RegistryModel "Sobol") k None None [] 0 None false true false "".

Definition sobol_step (k : Z) : GenerationStep :=
  match __post_init__ (sobol_fields k) with
  | Ok step => step
  | Raise _ => sobol_fields k
  end.

(** What [GenerationStrategy.__init__] leaves true of a strategy, and no
    method changes: there are steps, the constructor accepted them, each
    carries its position as [index], and [_curr] refers to one of them. *)
Definition constructed (g : GenerationStrategy) : Prop :=
  _steps g ≠ []
  ∧ steps_ok (Z.of_nat (length (_steps g))) 0 (_steps g) = true
  ∧ (∀ i step, _steps g !! i = Some step → index step = Z.of_nat i)
  ∧ (_curr g < length (_steps g))%nat.

Definition no_calls_no_heap (g : GenerationStrategy) : St :=
  {| gs := g; calls := []; heap := {| dicts := ∅; lists := ∅ |} |}.

(** A strategy of one Sobol step with a budget of five, not named. *)
Definition sobol_strategy : GenerationStrategy :=
  {| _name := None;
     _steps := [set_index 0 (sobol_step 5)];
     _curr := 0;
     _uses_registered_models := true;
     _generator_runs := [];
     _experiment := None;
     _seen_trial_indices_by_status := None;
     _model := None |}.

(** Collaborators that never fail and generate nothing. *)
Definition quiet_collaborators : Collaborators :=
  {| model_fit := λ _ _, None;
     model_update := λ _ _, None;
     model_cross_validate := λ _, None;
     best_diagnostic := λ _, 0;
     model_gen := λ _, Ok {| arms := []; gr_generation_step_index := None;
                             _model_state_after_gen := None |};
     is_met := λ _ _, false;
     _extract_model_state_after_gen := λ _ _ _, ∅ |}.

Definition empty_experiment : Experiment :=
  {| exp_name := Some "exp"; trials := ∅; metrics := ∅;
     arms_by_signature := ∅; attached_data := [] |}.

(** The strategy once its [name] has been read: a name that was not set is
    now the default name. *)
Definition default_name (g : GenerationStrategy) : string :=
  String.concat "+" (trim_get_ <$> (model_name <$> _steps g)).

Definition name_read (g : GenerationStrategy) : GenerationStrategy :=
  match _name g with
  | Some _ => g
  | None => set_name (Some (default_name g)) g
  end.

(** ** Concrete steps, experiments and strategies *)

Definition make_step (num_trials min_trials_observed : Z) (max_parallelism : option Z)
    (use_update should_deduplicate : bool) : GenerationStep :=
  let fields := dataclass_fields (RegistryModel "Sobol") num_trials None None []
                  min_trials_observed max_parallelism use_update true
                  should_deduplicate "" in
  match __post_init__ fields with
  | Ok step => step
  | Raise _ => fields
  end.

Definition trial_of (step : Z) (s : TrialStatus) : Trial :=
  {| status := s; _generation_step_index := Some step |}.

Definition experiment_with (ts : list (Z * Trial)) (data : Data) : Experiment :=
  {| exp_name := Some "exp";
     trials := list_to_map ts;
     metrics := {[ "m" := {| is_available_while_running := false |} ]};
     arms_by_signature := ∅;
     attached_data := data |}.

Definition strategy_of (steps : list GenerationStep) (curr : nat)
    (experiment : option nat) (seen : option ByStatus) (model : option nat)
  : GenerationStrategy :=
  {| _name := None;
     _steps := number_from 0 steps;
     _curr := curr;
     _uses_registered_models := true;
     _generator_runs := [];
     _experiment := experiment;
     _seen_trial_indices_by_status := seen;
     _model := model |}.

(** The boundary of the data-required error: a budget of three with two to
    observe; three trials generated, one of them completed. *)
Definition boundary_step : GenerationStep := set_index 0 (make_step 3 2 None false false).

Definition boundary_experiment : Experiment :=
  experiment_with [(0, trial_of 0 COMPLETED); (1, trial_of 0 RUNNING);
                   (2, trial_of 0 RUNNING)] [].

Definition boundary_state : St :=
  no_calls_no_heap (strategy_of [make_step 3 2 None false false] 0 (Some 0%nat) None None).

(** A cap of two on the running trials, and two trials running. *)
Definition capped_step : GenerationStep := set_index 0 (make_step 5 0 (Some 2) false false).

Definition two_running : Experiment :=
  experiment_with [(0, trial_of 0 RUNNING); (1, trial_of 0 RUNNING)] [].

(** ** Relations between the state before and after a method *)

(** A method [m] keeps the relation [R] between the state it starts from and
    the state it leaves, whether it returns or raises. *)
Definition preserves {S A} (R : S → S → Prop) (m : M S A) : Prop :=
  ∀ st, R st (m st).2.

(** What a step is defined by: all its fields but the node it inherits,
    which holds what fitting and generating cache. *)
Definition step_definition (step : GenerationStep) : GenerationStep :=
  set_node {| model_specs := []; best_model_selector := None;
              should_deduplicate := false; _model_spec_to_gen_from := None |} step.

(** The strategy stands on the same step, its steps are defined as before and
    the store of pending observations is as it was. *)
Definition evolves (st st' : St) : Prop :=
  step_definition <$> _steps (gs st') = step_definition <$> _steps (gs st)
  ∧ _curr (gs st') = _curr (gs st)
  ∧ _experiment (gs st') = _experiment (gs st)
  ∧ heap st' = heap st.

(** The same, but for the experiment, which may be bound or bound again. *)
Definition evolves_binding (st st' : St) : Prop :=
  step_definition <$> _steps (gs st') = step_definition <$> _steps (gs st)
  ∧ _curr (gs st') = _curr (gs st)
  ∧ heap st' = heap st.

Definition same_heap (st st' : St) : Prop := heap st' = heap st.

Definition same_gs (st st' : St) : Prop := gs st' = gs st ∧ calls st' = calls st.

(** From a constructed strategy: the steps are defined as before, the current
    step is where it was or further on, and the strategy is still
    constructed. *)
Definition advances (st st' : St) : Prop :=
  constructed (gs st) →
  step_definition <$> _steps (gs st') = step_definition <$> _steps (gs st)
  ∧ (_curr (gs st) ≤ _curr (gs st'))%nat
  ∧ constructed (gs st').

(** ** Sequences of calls on a strategy *)

(** The calls a scheduler makes. *)
Inductive Attempt :=
  | CallsGen (experiment : nat) (data : option Data) (n : Z)
             (pending_observations : option nat) (model_gen_kwargs : Kwargs)
  | CallsGenMultiple (experiment : nat) (num_generator_runs : Z) (data : option Data)
                     (n : Z) (pending_observations : option nat)
                     (model_gen_kwargs : Kwargs)
  | CallsCurrentGeneratorRunLimit.

(** The state a call leaves, whether it returns or raises. *)
Definition attempt (collab : Collaborators) (experiments : nat → Experiment)
    (a : Attempt) (st : St) : St :=
  match a with
  | CallsGen experiment data n pending_observations model_gen_kwargs =>
      (gen collab experiments experiment data n pending_observations
         model_gen_kwargs st).2
  | CallsGenMultiple experiment num_generator_runs data n pending_observations
                     model_gen_kwargs =>
      (_gen_multiple collab experiments experiment num_generator_runs data n
         pending_observations model_gen_kwargs st).2
  | CallsCurrentGeneratorRunLimit =>
      (current_generator_run_limit collab experiments st).2
  end.

Definition with_heap (h : PHeap) (st : St) : St :=
  {| gs := gs st; calls := calls st; heap := h |}.

(** A sequence of calls; before each of them the experiments and the store of
    pending observations are what the rest of the program has made of
    them. *)
Fixpoint run (collab : Collaborators)
    (trace : list ((nat → Experiment) * (PHeap → PHeap) * Attempt)) (st : St) : St :=
  match trace with
  | [] => st
  | (experiments, caller, a) :: rest =>
      run collab rest (attempt collab experiments a (with_heap (caller (heap st)) st))
  end.

(** The [index] of the current step. *)
Definition current_index (st : St) : option Z :=
  index <$> (_steps (gs st) !! _curr (gs st)).


Definition one_running : Experiment := experiment_with [(0, trial_of 0 RUNNING)] [].


(** What [_gen_multiple] does before its loop: the number of turns of the
    loop and the copy of the pending observations it works on. *)
Definition gen_multiple_prologue (collab : Collaborators)
    (experiments : nat → Experiment) (experiment : nat) (num_generator_runs : Z)
    (data : option Data) (pending_observations : option nat) : M St (Z * nat) :=
  experiment_setter experiments experiment;;
  _maybe_move_to_next_step collab experiments true;;
  _fit_or_update_current_model collab experiments data;;
  curr ← current_step;
  st ← get;
  num_until_max_parallelism ←
    lift (num_remaining_trials_until_max_parallelism curr
            (bound_experiment experiments st) true);
  let num_generator_runs :=
    match num_until_max_parallelism with
    | Some num_until_max_parallelism =>
        Z.min num_generator_runs num_until_max_parallelism
    | None => num_generator_runs
    end in
  num_generator_runs ←
    (if enforce_num_trials curr && (num_trials curr >? 0)
     then e ← self_experiment experiments;
          mret (Z.min num_generator_runs (num_trials curr - num_can_complete curr e))
     else mret num_generator_runs);
  pending_observations ← deepcopy_or_empty pending_observations;
  mret (num_generator_runs, pending_observations).

(** One turn of the loop of [_gen_multiple] after a generator run was
    produced: the run is recorded and the pending observations extended. *)
Definition keep_run (experiments : nat → Experiment) (experiment : nat)
    (pending_observations : nat) (generator_run : GeneratorRun) : M St unit :=
  modify_gs (λ self,
    set_generator_runs (_generator_runs self ++ [generator_run]) self);;
  extend_pending_observations (experiments experiment)
    pending_observations generator_run.

(** [produces k st runs st']: from [st], [k] turns of the loop in a row each
    produce a generator run; [runs] are those runs and [st'] the state after
    the last of them was kept. *)
Inductive produces (collab : Collaborators) (experiments : nat → Experiment)
    (experiment : nat) (n : Z) (pending_observations : nat)
    (model_gen_kwargs : Kwargs) : nat → St → list GeneratorRun → St → Prop :=
  | produces_none st :
      produces collab experiments experiment n pending_observations
        model_gen_kwargs 0 st [] st
  | produces_one_more k st runs st1 generator_run st2 st3 :
      produces collab experiments experiment n pending_observations
        model_gen_kwargs k st runs st1 →
      step_gen collab (Some n) pending_observations
        (Some (arms_by_signature (experiments experiment))) model_gen_kwargs st1
      = (Ok generator_run, st2) →
      keep_run experiments experiment pending_observations generator_run st2
      = (Ok tt, st3) →
      produces collab experiments experiment n pending_observations
        model_gen_kwargs (S k) st (runs ++ [generator_run]) st3.

(** A model that has data for [k] generator runs: from draw [k] + 1 on its
    [gen] raises the data-required error. *)
Definition needs_data_after (k : nat) : Collaborators :=
  {| model_fit := λ _ _, None;
     model_update := λ _ _, None;
     model_cross_validate := λ _, None;
     best_diagnostic := λ _, 0;
     model_gen := λ l,
       if bool_decide (length (filter (λ c, is_gen_call c = true) l) ≤ k)%nat
       then Ok (single_arm_run unique_arm)
       else Raise DataRequiredError;
     is_met := λ _ _, false;
     _extract_model_state_after_gen := λ _ _ _, ∅ |}.

(** A strategy of one step with a budget of five, not yet bound. *)
Definition five_shot : St :=
  no_calls_no_heap (strategy_of [make_step 5 0 None false false] 0 None None None).

(** ** Incremental update, in the words of the specification *)

(** The trials that entered COMPLETED since the snapshot; all completed
    trials where there is no snapshot. *)
Definition newly_completed (e : Experiment) (seen : option ByStatus) : gset Z :=
  match seen with
  | None => trial_indices_by_status e COMPLETED
  | Some seen => trial_indices_by_status e COMPLETED ∖ seen COMPLETED
  end.

(** The calls of [update] a cycle makes on the fitted model [m]. *)
Definition update_calls (m : nat) (e : Experiment) (seen : option ByStatus)
    (data : option Data) : list Call :=
  match data with
  | None =>
      let rows := lookup_data e (Some (newly_completed e seen)) in
      if df_empty rows then [] else [CallUpdate m rows]
  | Some passed =>
      if bool_decide (newly_completed e seen = ∅) || df_empty passed then []
      else [CallUpdate m (filter (λ row, trial_index row ∈ newly_completed e seen)
                                 passed)]
  end.

(** Trials 0, 1 and 2 completed, 0 and 1 before the last snapshot. *)
Definition seen_two : ByStatus :=
  λ s, match s with COMPLETED => {[0; 1]} | _ => ∅ end.

Definition row_of (i : Z) : DataRow :=
  {| trial_index := i; metric_name := "m"; mean := i |}.

Definition three_completed (data : Data) : Experiment :=
  experiment_with [(0, trial_of 0 COMPLETED); (1, trial_of 0 COMPLETED);
                   (2, trial_of 0 COMPLETED)] data.

(** A strategy on a step that uses [update], its model fitted (fit number 0)
    on the data of trials 0 and 1. *)
Definition updating : St :=
  {| gs := strategy_of [make_step 5 0 None true false] 0 (Some 0%nat)
             (Some seen_two) (Some 0%nat);
     calls := [CallFit (RegistryModel "Sobol") [row_of 0; row_of 1] ∅];
     heap := {| dicts := ∅; lists := ∅ |} |}.

(** ** The caller's pending observations *)

(** Every object of the store [h0] is in [h], unchanged. *)
Definition heap_extends (h0 h : PHeap) : Prop :=
  dicts h0 ⊆ dicts h ∧ lists h0 ⊆ lists h.

(** The dictionary at [p] and the lists it holds are not objects of [h0],
    all of which are unchanged. *)
Definition owned (h0 : PHeap) (p : nat) (st : St) : Prop :=
  heap_extends h0 (heap st)
  ∧ (p ∉ dom (dicts h0))
  ∧ (∀ d k l, dicts (heap st) !! p = Some d → d !! k = Some l → l ∉ dom (lists h0)).

(** A property of the state that a method keeps. *)
Definition keeping (I : St → Prop) (st st' : St) : Prop := I st → I st'.

(** A caller's dictionary with one list under the metric ["m"]. *)
Definition callers_heap : PHeap :=
  {| dicts := {[ 7%nat := {[ "m" := 3%nat ]} ]};
     lists := {[ 3%nat := [ {| from_arm := "sig-old" |} ] ]} |}.

Definition five_shot_with_pending : St :=
  {| gs := gs five_shot; calls := []; heap := callers_heap |}.

Definition one_metric_experiment : Experiment := experiment_with [] [].

(** A strategy of two steps, a budget of one and then no limit, and an
    experiment whose one trial, of the first step, is running. *)
Definition two_steps : St :=
  no_calls_no_heap
    (strategy_of [make_step 1 0 None false false; make_step (-1) 0 None false false]
       0 None None None).

(** ** Further methods of the strategy, and the vocabulary of their properties *)

(** The property [GenerationStrategy.model_transitions]:
    [[sum(gen_changes[: i + 1]) for i in range(len(gen_changes))][:-1]]. *)
Definition model_transitions (self : GenerationStrategy) : list Z :=
  let gen_changes := num_trials <$> _steps self in
  removelast ((λ i, foldr Z.add 0 (take (S i) gen_changes))
                <$> seq 0 (length gen_changes)).

(** The property [GenerationStrategy.last_generator_run]:
    [self._generator_runs[-1] if self._generator_runs else None]. *)
Definition last_generator_run (self : GenerationStrategy) : Result (option GeneratorRun) :=
  if bool_decide (_generator_runs self = []) then Ok None
  else '(_, generator_run) ← py_index (_generator_runs self) (-1);
       Ok (Some generator_run).



(** The calls of [gen] in a log of calls, counted. *)
Definition gen_calls (l : list Call) : nat :=
  length (filter (λ c, is_gen_call c = true) l).


(** The gen calls made and the switch of deduplication are what they were. *)
Definition quiet_pick (st st' : NodeSt) : Prop :=
  gen_calls (nlog st') = gen_calls (nlog st)
  ∧ should_deduplicate (nd st') = should_deduplicate (nd st)
  ∧ model_specs (nd st') = model_specs (nd st).

(** The generator runs kept on the strategy are those that were. *)
Definition same_runs (st st' : St) : Prop :=
  _generator_runs (gs st') = _generator_runs (gs st).

(** The strategy stands on the step it stood on. *)
Definition same_curr (st st' : St) : Prop := _curr (gs st') = _curr (gs st).

(** What [_gen_multiple] does between the check of the transition and the
    loop: the model is fitted or updated, the number of generator runs is cut
    to what parallelism and the budget of the step leave, and the pending
    observations are copied. *)
Definition limits_and_copy (collab : Collaborators) (experiments : nat → Experiment)
    (num_generator_runs : Z) (data : option Data) (pending_observations : option nat)
  : M St (Z * nat) :=
  _fit_or_update_current_model collab experiments data;;
  curr ← current_step;
  st ← get;
  num_until_max_parallelism ←
    lift (num_remaining_trials_until_max_parallelism curr
            (bound_experiment experiments st) true);
  let num_generator_runs :=
    match num_until_max_parallelism with
    | Some num_until_max_parallelism =>
        Z.min num_generator_runs num_until_max_parallelism
    | None => num_generator_runs
    end in
  num_generator_runs ←
    (if enforce_num_trials curr && (num_trials curr >? 0)
     then e ← self_experiment experiments;
          mret (Z.min num_generator_runs (num_trials curr - num_can_complete curr e))
     else mret num_generator_runs);
  pending_observations ← deepcopy_or_empty pending_observations;
  mret (num_generator_runs, pending_observations).

(** The strategy is bound to the experiment it was bound to. *)
Definition same_experiment (st st' : St) : Prop :=
  _experiment (gs st') = _experiment (gs st).

(** The step the strategy stands on is defined as the step it stood on. *)
Definition same_definition (st st' : St) : Prop :=
  step_definition <$> (_steps (gs st') !! _curr (gs st'))
  = step_definition <$> (_steps (gs st) !! _curr (gs st)).

(** The call of [ModelSpec.fit] on [data] with the keyword arguments of the
    call laid over those of the model spec. *)
Definition fit_call (data : Data) (kwargs : Kwargs) (model_spec : ModelSpec) : Call :=
  CallFit (spec_model model_spec) data
          (kwargs ∪ default ∅ (spec_model_kwargs model_spec)).

(** The model spec [b] is the model spec [a], fitted or not. *)
Definition same_spec (a b : ModelSpec) : Prop :=
  set_fitted_model None b = set_fitted_model None a.

(** The calls made to the models are those that were, followed by calls that
    satisfy [P]. *)
Definition calls_extend (P : Call → Prop) (st st' : St) : Prop :=
  ∃ new, calls st' = calls st ++ new ∧ Forall P new.

Definition same_calls (st st' : St) : Prop := calls st' = calls st.

(** A call of [fit] is made on data that is not empty. *)
Definition fits_on_data (c : Call) : Prop :=
  match c with
  | CallFit _ data _ => data ≠ []
  | _ => True
  end.

(** The strategy is what it was; calls may have been made. *)
Definition gs_kept (st st' : St) : Prop := gs st' = gs st.

(** A strategy on the second of two steps, the first of which requires two
    observations; bound to experiment 0. *)
Definition after_required : St :=
  no_calls_no_heap
    (strategy_of [make_step 3 2 None false false; make_step (-1) 0 None false false]
       1 (Some 0%nat) None None).

(** The strategy stands on a step of unlimited budget that has no completion
    criteria. *)
Definition on_unlimited_step (st : St) : Prop :=
  ∃ curr, _steps (gs st) !! _curr (gs st) = Some curr
          ∧ num_trials curr = -1
          ∧ completion_criteria curr = [].

(** The steps are defined as before and the strategy stands where it stood. *)
Definition stays (st st' : St) : Prop :=
  step_definition <$> _steps (gs st') = step_definition <$> _steps (gs st)
  ∧ _curr (gs st') = _curr (gs st).

(** A strategy on its second and last step, of unlimited budget. *)
Definition on_last_step : St :=
  no_calls_no_heap
    (strategy_of [make_step 1 0 None false false; make_step (-1) 0 None false false]
       1 (Some 0%nat) None None).

(** The name of the strategy and its flag of registered models are what they
    were. *)
Definition same_identity (st st' : St) : Prop :=
  _name (gs st') = _name (gs st)
  ∧ _uses_registered_models (gs st') = _uses_registered_models (gs st).

(** Three steps, with budgets of five, of three and without limit. *)
Definition three_steps : list GenerationStep :=
  [make_step 5 0 None false false; make_step 3 0 None false false;
   make_step (-1) 0 None false false].


(** The property [GenerationStrategy.model]:
    [self._curr.model_spec._fitted_model]. *)
Definition model_property : M St (option nat) :=
  model_spec ← curr_model_spec;
  mret (_fitted_model model_spec).

(** The model specs of the steps, the current step and the model the
    strategy holds. *)
Definition models_view (st : St) : list (list ModelSpec) * nat * option nat :=
  ((λ s : GenerationStep, model_specs (node s)) <$> _steps (gs st),
   _curr (gs st), _model (gs st)).

Definition same_models (st st' : St) : Prop := models_view st' = models_view st.

(** Every step has one model spec, as [GenerationStep.__post_init__] leaves
    it. *)
Definition one_spec_each (st : St) : Prop :=
  ∀ i step, _steps (gs st) !! i = Some step →
            length (model_specs (node step)) = 1%nat.

(** The model the strategy holds, if it holds one, is the fitted model of
    the current step. *)
Definition model_is_current (st : St) : Prop :=
  ∀ m, _model (gs st) = Some m → (model_property st).1 = Ok (Some m).

Definition model_kept (st : St) : Prop := one_spec_each st ∧ model_is_current st.

(** Nothing is written. *)
Definition unchanged (st st' : St) : Prop := st' = st.

(** Whether the step the strategy stands on deduplicates. *)
Definition current_deduplicates (st : St) : bool :=
  match _steps (gs st) !! _curr (gs st) with
  | Some curr => should_deduplicate (node curr)
  | None => false
  end.

Definition same_deduplication (st st' : St) : Prop :=
  current_deduplicates st' = current_deduplicates st.

(** No arm of the generator run is among the known arms. *)
Definition new_arms (known : gmap string Arm) (generator_run : GeneratorRun) : Prop :=
  ∀ arm, arm ∈ arms generator_run → signature arm ∉ dom known.

(** A strategy of one step that deduplicates, and an experiment on which the
    arm of signature ["sig-dup"] is known. *)
Definition deduplicating : St :=
  no_calls_no_heap (strategy_of [make_step 5 0 None false true] 0 None None None).

Definition experiment_with_arm : Experiment :=
  {| exp_name := Some "exp"; trials := ∅; metrics := ∅;
     arms_by_signature := seen_arms; attached_data := [] |}.


(** * Properties *)

(** ** Trial accounting of a step *)

Section accounting_facts.
Variable self : GenerationStep.
Variable e : Experiment.

Lemma elem_of_dom_filter (P : Z * Trial → Prop) `{!∀ kv, Decision (P kv)}
    (m : gmap Z Trial) (i : Z) :
  i ∈ dom (filter P m) ↔ ∃ t, m !! i = Some t ∧ P (i, t).
Proof.
  rewrite elem_of_dom. unfold is_Some.
  setoid_rewrite map_lookup_filter_Some. done.
Qed.

Lemma trial_indices_own :
  trial_indices self e (index self)
  = dom (filter (λ kv, _generation_step_index kv.2 = Some (index self)) (trials e)).
Proof. unfold trial_indices. rewrite bool_decide_true; [done | lia]. Qed.

(** The trials of the step outside a set of statuses, as a set difference. *)
Lemma step_trials_difference (P : TrialStatus → bool) (s1 s2 : TrialStatus) :
  (∀ s, P s = true ↔ s ≠ s1 ∧ s ≠ s2) →
  trial_indices self e (index self)
    ∖ (trial_indices_by_status e s1 ∪ trial_indices_by_status e s2)
  = dom (filter (own self P) (trials e)).
Proof.
  intros HP. rewrite trial_indices_own. unfold trial_indices_by_status.
  apply set_eq. intros i.
  rewrite elem_of_difference, elem_of_union, !elem_of_dom_filter. simpl.
  split.
  - intros [(t & Ht & Hs) Hno]. exists t. repeat split; try done.
    apply HP. split; intros Hst; apply Hno; [left | right]; by exists t.
  - intros (t & Ht & Hs & HPt). apply HP in HPt as [Hn1 Hn2]. split.
    + by exists t.
    + intros [(t' & Ht' & Hst) | (t' & Ht' & Hst)]; simplify_eq; done.
Qed.

Lemma step_trials_intersection (P : TrialStatus → bool) (s1 s2 : TrialStatus) :
  (∀ s, P s = true ↔ s = s1 ∨ s = s2) →
  trial_indices self e (index self)
    ∩ (trial_indices_by_status e s1 ∪ trial_indices_by_status e s2)
  = dom (filter (own self P) (trials e)).
Proof.
  intros HP. rewrite trial_indices_own. unfold trial_indices_by_status.
  apply set_eq. intros i.
  rewrite elem_of_intersection, elem_of_union, !elem_of_dom_filter. simpl.
  split.
  - intros [(t & Ht & Hs) [(t' & Ht' & Hst) | (t' & Ht' & Hst)]];
      simplify_eq; exists t; repeat split; try done; apply HP; auto.
  - intros (t & Ht & Hs & HPt). apply HP in HPt. split.
    + by exists t.
    + destruct HPt; [left | right]; by exists t.
Qed.

Lemma num_can_complete_counts :
  num_can_complete self e
  = Z.of_nat (step_trials_where self not_failed_or_abandoned e).
Proof.
  unfold num_can_complete, step_trials_where. cbv zeta.
  rewrite <- Nat2Z.inj_sub by (apply subseteq_size, intersection_subseteq_l).
  rewrite <- size_difference_alt.
  rewrite (step_trials_difference not_failed_or_abandoned).
  - by rewrite size_dom.
  - intros s. unfold not_failed_or_abandoned. destruct s; compute; intuition congruence.
Qed.

Lemma num_completed_counts :
  _num_completed self e
  = Z.of_nat (step_trials_where self completed_or_early_stopped e).
Proof.
  unfold _num_completed, step_trials_where. cbv zeta.
  rewrite (step_trials_intersection completed_or_early_stopped).
  - by rewrite size_dom.
  - intros s. unfold completed_or_early_stopped. destruct s; compute; intuition congruence.
Qed.

Lemma num_running_trials_counts :
  num_running_trials self e = Z.of_nat (step_trials_where self is_running e).
Proof.
  unfold num_running_trials, step_trials_where.
  induction (trials e) as [| i t m Hi Hfold IH] using map_first_key_ind.
  - by rewrite map_fold_empty, map_filter_empty, map_size_empty.
  - rewrite map_fold_insert_first_key by done. rewrite IH.
    destruct (decide (_generation_step_index t = Some (index self))) as [Hs | Hs];
      destruct (is_running (status t)) eqn:Hr.
    + rewrite bool_decide_true by done. simpl.
      rewrite map_filter_insert_True by done.
      rewrite map_size_insert_None by (by rewrite map_lookup_filter_None; left).
      lia.
    + rewrite andb_false_r.
      rewrite map_filter_insert_not' ; [done | | ].
      * unfold own. simpl. intros [_ ?]. congruence.
      * intros y Hy. congruence.
    + rewrite bool_decide_false by done. simpl.
      rewrite map_filter_insert_not'; [done | | ].
      * unfold own. simpl. intros [? _]. done.
      * intros y Hy. congruence.
    + rewrite bool_decide_false by done. simpl.
      rewrite map_filter_insert_not'; [done | | ].
      * unfold own. simpl. intros [? _]. done.
      * intros y Hy. congruence.
Qed.

End accounting_facts.

(** C3. [num_trials_to_gen_and_complete] returns (-1, -1) for a step of
    unlimited budget, whether or not an experiment is bound; for any other
    budget, on a bound experiment, it returns
    (max(num_trials - num_can_complete, 0), max(min_trials_observed - num_completed, 0)),
    where num_can_complete is the number of the step's trials that are neither
    FAILED nor ABANDONED and num_completed the number of the step's trials
    that are COMPLETED or EARLY_STOPPED. *)
Theorem num_trials_to_gen_and_complete_spec (self : GenerationStep) :
  (num_trials self = -1 →
   ∀ experiment, num_trials_to_gen_and_complete self experiment = Ok (-1, -1))
  ∧ (num_trials self ≠ -1 →
     ∀ e, num_trials_to_gen_and_complete self (Some e)
          = Ok (Z.max (num_trials self
                       - Z.of_nat (step_trials_where self not_failed_or_abandoned e)) 0,
                Z.max (min_trials_observed self
                       - Z.of_nat (step_trials_where self completed_or_early_stopped e)) 0)).
Proof.
  split; intros Hn; intros; unfold num_trials_to_gen_and_complete.
  - by rewrite bool_decide_true.
  - rewrite bool_decide_false by done.
    by rewrite num_can_complete_counts, num_completed_counts.
Qed.

Section status_change.
Variable self : GenerationStep.

Lemma step_trials_where_insert_fresh P e i t m :
  trials e = <[i:=t]> m → m !! i = None →
  step_trials_where self P e
  = ((if decide (own self P (i, t)) then 1 else 0) + size (filter (own self P) m))%nat.
Proof.
  intros He Hi. unfold step_trials_where. rewrite He.
  destruct (decide (own self P (i, t))) as [Hp | Hp].
  - rewrite map_filter_insert_True by done.
    rewrite map_size_insert_None by (by rewrite map_lookup_filter_None; left).
    done.
  - rewrite map_filter_insert_not' by (done || intros; congruence). done.
Qed.

(** A running trial of the step that leaves RUNNING lowers the running
    count by one. *)
Lemma num_running_after_status_change e i t s :
  trials e !! i = Some t →
  _generation_step_index t = Some (index self) →
  status t = RUNNING → s ≠ RUNNING →
  num_running_trials self (set_trial_status i s e) = num_running_trials self e - 1.
Proof.
  intros Hi Hstep Hrun Hs. rewrite !num_running_trials_counts.
  rewrite (step_trials_where_insert_fresh is_running e i t (delete i (trials e)));
    [ | by rewrite insert_delete_id | by rewrite lookup_delete_eq ].
  rewrite (step_trials_where_insert_fresh is_running (set_trial_status i s e) i
             {| status := s; _generation_step_index := _generation_step_index t |}
             (delete i (trials e)));
    [ | | by rewrite lookup_delete_eq ].
  - assert (own self is_running (i, t)) as Hown
      by (split; simpl; [done | by rewrite Hrun]).
    repeat case_decide; try lia; try done.
    exfalso.
    match goal with
    | Hs' : own self is_running (i, {| status := s; _generation_step_index := _ |}) |- _ =>
        destruct Hs' as [_ Hr]
    end.
    simpl in Hr. unfold is_running in Hr.
    by apply bool_decide_eq_true in Hr.
  - simpl. apply map_eq. intros j. destruct (decide (i = j)) as [-> | Hne].
    + by rewrite lookup_alter_eq, lookup_insert_eq, Hi.
    + by rewrite lookup_alter_ne, lookup_insert_ne, lookup_delete_ne.
Qed.
End status_change.

(** C6. On a bound experiment, [num_remaining_trials_until_max_parallelism]
    returns None when [max_parallelism] is unset; when the number of the
    step's RUNNING trials is at least [max_parallelism] and the flag is set it
    raises the max-parallelism error with the step index, the model name and
    the running count; otherwise it returns [max_parallelism] minus the running
    count.  With a cap of 2 and two RUNNING trials of the step the call
    raises, and once one of them is COMPLETED the next call returns 1. *)
Theorem num_remaining_trials_until_max_parallelism_spec
    (self : GenerationStep) (e : Experiment) (raise_flag : bool) :
  let running := Z.of_nat (step_trials_where self is_running e) in
  num_remaining_trials_until_max_parallelism self (Some e) raise_flag
  = match max_parallelism self with
    | None => Ok None
    | Some cap =>
        if raise_flag && (running >=? cap)
        then Raise (MaxParallelismReachedException (index self) (model_name self) running)
        else Ok (Some (cap - running))
    end
  ∧ (∀ i t,
       max_parallelism self = Some 2 → running = 2 →
       trials e !! i = Some t →
       _generation_step_index t = Some (index self) → status t = RUNNING →
       num_remaining_trials_until_max_parallelism self (Some e) true
       = Raise (MaxParallelismReachedException (index self) (model_name self) 2)
       ∧ num_remaining_trials_until_max_parallelism self
           (Some (set_trial_status i COMPLETED e)) true
         = Ok (Some 1)).
Proof.
  intros running. split.
  - unfold num_remaining_trials_until_max_parallelism.
    by rewrite num_running_trials_counts.
  - intros i t Hcap Hrun Hi Hstep Hst.
    unfold num_remaining_trials_until_max_parallelism.
    rewrite (num_running_after_status_change self e i t COMPLETED) by done.
    rewrite num_running_trials_counts. fold running. rewrite Hcap, Hrun. done.
Qed.

(** ** Deduplication in [GenerationNode.gen] *)

Ltac unfold_monad :=
  unfold mbind, M_bind, mret, M_ret, raise, get, put, modify, lift,
         from_option, try_except in *.

(** The bound of [node_gen] is never what stops the loop: from [n_gen_draws]
    draws the loop makes at most one draw for each further value up to the
    maximum, and with more fuel than that it does the same. *)
Lemma gen_draws_fuel collab pos n pending max_draws seen kwargs fuel :
  ∀ n_gen_draws st extra,
    (Z.to_nat (max_draws - n_gen_draws) < fuel)%nat →
    gen_draws collab (fuel + extra) pos n pending max_draws seen kwargs n_gen_draws st
    = gen_draws collab fuel pos n pending max_draws seen kwargs n_gen_draws st.
Proof.
  induction fuel as [| fuel IH]; intros n_gen_draws st extra Hfuel; [lia |].
  change (S fuel + extra)%nat with (S (fuel + extra)). simpl.
  unfold mbind, M_bind, get, from_option.
  destruct (model_specs (nd st) !! pos) as [model_spec |]; simpl; [| done].
  destruct (model_spec_gen _ _ _ _ _ _) as [[gr | e] st']; [| done].
  destruct (_ && _ && _); [| done].
  destruct (n_gen_draws + 1 >? max_draws) eqn:Hgt; [done |].
  apply IH. lia.
Qed.

(** [node_gen] never ends on [OutOfFuel] of its own: the loop it runs is the
    loop on any larger bound. *)
Lemma node_gen_total collab n pending max_draws seen kwargs st extra :
  node_gen collab n pending max_draws seen kwargs st
  = (pos ← model_spec_to_gen_from collab;
     gen_draws collab (draws_bound max_draws + extra) pos n pending max_draws seen
       kwargs 0) st.
Proof.
  unfold node_gen, mbind, M_bind.
  destruct (model_spec_to_gen_from collab st) as [[pos | e] st']; [| done].
  symmetry. apply gen_draws_fuel. unfold draws_bound. lia.
Qed.

Section gen_draws_facts.
Variable collab : Collaborators.
Variables (pos : nat) (n : option Z) (pending : option Pending) (max_draws : Z).
Variables (seen : gmap string Arm) (kwargs : Kwargs).
Variables (model_spec : ModelSpec) (fitted : nat).

Local Abbreviation draw := (the_draw n pending kwargs model_spec fitted).
Local Abbreviation is_ready := (ready pos seen model_spec fitted).
Local Abbreviation after := (after_draws n pending kwargs model_spec fitted).
Local Abbreviation duplicate := (duplicate_draw collab n pending seen kwargs model_spec fitted).

Lemma after_draws_S k st :
  after 1 (after k st) = after (S k) st.
Proof.
  unfold after_draws. cbn [nd nlog]. f_equal. rewrite <- app_assoc. f_equal.
  rewrite <- replicate_add. f_equal. lia.
Qed.

(** One turn of the loop. *)
Lemma gen_draws_unfold fuel n_gen_draws st :
  is_ready st →
  gen_draws collab (S fuel) pos n pending max_draws (Some seen) kwargs n_gen_draws st
  = match model_gen collab (nlog st ++ [draw]) with
    | Ok gr =>
        if has_duplicate_arm seen gr then
          if n_gen_draws + 1 >? max_draws
          then (Raise GenerationStrategyRepeatedPoints, after 1 st)
          else gen_draws collab fuel pos n pending max_draws (Some seen) kwargs
                 (n_gen_draws + 1) (after 1 st)
        else (Ok gr, after 1 st)
    | Raise e => (Raise e, after 1 st)
    end.
Proof.
  intros (Hspec & Hfit & Hdedup & Hseen).
  simpl. unfold_monad. simpl. rewrite Hspec. simpl.
  unfold model_spec_gen. unfold_monad. rewrite Hfit. simpl.
  fold draw. destruct (model_gen collab (nlog st ++ [draw])); [| done].
  rewrite Hdedup. simpl in Hseen. rewrite Hseen. simpl.
  destruct (has_duplicate_arm seen a); [| done].
  by destruct (n_gen_draws + 1 >? max_draws).
Qed.

(** One draw that repeats a known arm, below the maximum: the loop goes
    round. *)
Lemma gen_draws_step fuel n_gen_draws st :
  is_ready st → duplicate st 1 → n_gen_draws + 1 ≤ max_draws →
  gen_draws collab (S fuel) pos n pending max_draws (Some seen) kwargs n_gen_draws st
  = gen_draws collab fuel pos n pending max_draws (Some seen) kwargs
      (n_gen_draws + 1) (after 1 st).
Proof.
  intros Hready (gr & Hgr & Hdup) Hle. rewrite gen_draws_unfold by done.
  change (replicate 1 draw) with [draw] in Hgr. rewrite Hgr, Hdup.
  destruct (n_gen_draws + 1 >? max_draws) eqn:Hgt; [lia | done].
Qed.

(** [k] draws that repeat a known arm, none of them beyond the maximum. *)
Lemma gen_draws_duplicates k : ∀ fuel n_gen_draws st,
  is_ready st → (∀ i, (1 ≤ i ≤ k)%nat → duplicate st i) →
  n_gen_draws + Z.of_nat k ≤ max_draws →
  gen_draws collab (k + fuel) pos n pending max_draws (Some seen) kwargs n_gen_draws st
  = gen_draws collab fuel pos n pending max_draws (Some seen) kwargs
      (n_gen_draws + Z.of_nat k) (after k st).
Proof.
  induction k as [| k IH]; intros fuel n_gen_draws st Hready Hdups Hle.
  - simpl. rewrite Z.add_0_r. unfold after_draws. simpl. rewrite app_nil_r.
    by destruct st.
  - replace (S k + fuel)%nat with (k + S fuel)%nat by lia.
    rewrite IH; [ | done | intros; apply Hdups; lia | lia ].
    rewrite gen_draws_step.
    + rewrite after_draws_S. f_equal. lia.
    + done.
    + destruct (Hdups (S k)) as (gr & Hgr & Hdup); [lia |].
      exists gr. split; [| done]. cbn [after_draws nd nlog].
      rewrite <- app_assoc, <- replicate_add.
      by replace (k + 1)%nat with (S k) by lia.
    + lia.
Qed.

(** A draw that repeats a known arm once the maximum is reached ends the
    loop with the repeated-points error. *)
Lemma gen_draws_exceeded fuel n_gen_draws st :
  is_ready st → duplicate st 1 → n_gen_draws + 1 > max_draws →
  gen_draws collab (S fuel) pos n pending max_draws (Some seen) kwargs n_gen_draws st
  = (Raise GenerationStrategyRepeatedPoints, after 1 st).
Proof.
  intros Hready (gr & Hgr & Hdup) Hgt. rewrite gen_draws_unfold by done.
  change (replicate 1 draw) with [draw] in Hgr. rewrite Hgr, Hdup.
  destruct (n_gen_draws + 1 >? max_draws) eqn:Hc; [done | lia].
Qed.

(** A draw with no known arm in it is returned. *)
Lemma gen_draws_unique fuel n_gen_draws st gr :
  is_ready st → model_gen collab (nlog st ++ [draw]) = Ok gr →
  has_duplicate_arm seen gr = false →
  gen_draws collab (S fuel) pos n pending max_draws (Some seen) kwargs n_gen_draws st
  = (Ok gr, after 1 st).
Proof.
  intros Hready Hgr Hdup. rewrite gen_draws_unfold by done. by rewrite Hgr, Hdup.
Qed.

End gen_draws_facts.

Section node_gen_facts.
Variable collab : Collaborators.
Variables (n : option Z) (pending : option Pending) (max_draws : Z).
Variables (seen : gmap string Arm) (kwargs : Kwargs).
Variables (model_spec : ModelSpec) (fitted : nat).

Local Abbreviation draw := (the_draw n pending kwargs model_spec fitted).
Local Abbreviation dup_draw := (duplicate_draw collab n pending seen kwargs model_spec fitted).
Local Abbreviation single_spec := (single_spec_node seen model_spec fitted).

Lemma node_gen_single_spec st :
  single_spec st →
  node_gen collab n pending max_draws (Some seen) kwargs st
  = gen_draws collab (draws_bound max_draws) 0 n pending max_draws (Some seen)
      kwargs 0 (picked st).
Proof.
  intros (Hsel & Hspecs & Hcache & _).
  unfold node_gen, model_spec_to_gen_from, _pick_fitted_model_to_gen_from, modify_nd.
  unfold_monad. simpl. rewrite Hcache. simpl. rewrite Hsel, Hspecs. simpl. done.
Qed.

Lemma single_spec_ready st :
  single_spec st → ready 0 seen model_spec fitted (picked st).
Proof.
  intros (Hsel & Hspecs & Hcache & Hfit & Hdedup & Hseen).
  repeat split; simpl; try done.
  - by rewrite Hspecs.
  - by rewrite bool_decide_false.
Qed.


(** As many duplicates as the maximum, then a run of new arms: [gen]
    returns that run, the draw after the maximum-th. *)
Lemma node_gen_unique_after_max_duplicates st gr :
  single_spec st → 0 ≤ max_draws →
  (∀ i, (1 ≤ i ≤ Z.to_nat max_draws)%nat → dup_draw (picked st) i) →
  model_gen collab (nlog st ++ replicate (S (Z.to_nat max_draws)) draw) = Ok gr →
  has_duplicate_arm seen gr = false →
  node_gen collab n pending max_draws (Some seen) kwargs st
  = (Ok gr, {| nd := set_model_spec_to_gen_from (Some 0%nat) (nd st);
               nlog := nlog st ++ replicate (S (Z.to_nat max_draws)) draw |}).
Proof.
  intros Hnode Hmax Hdups Hgr Hnew.
  pose proof (single_spec_ready st Hnode) as Hready.
  rewrite node_gen_single_spec by done. unfold draws_bound.
  replace (S (Z.to_nat max_draws)) with (Z.to_nat max_draws + 1)%nat at 1 by lia.
  rewrite (gen_draws_duplicates collab 0 n pending max_draws seen kwargs model_spec fitted);
    [ | done | done | lia ].
  rewrite (gen_draws_unique collab 0 n pending max_draws seen kwargs model_spec fitted _ _ _ gr).
  - by rewrite after_draws_S.
  - destruct Hready as (? & ? & ? & ?). done.
  - cbn [after_draws nd nlog picked]. fold draw.
    by rewrite <- app_assoc, <- replicate_S_end.
  - done.
Qed.

(** One duplicate more than the maximum: [gen] raises. *)
Lemma node_gen_exhausted st :
  single_spec st → 0 ≤ max_draws →
  (∀ i, (1 ≤ i ≤ S (Z.to_nat max_draws))%nat → dup_draw (picked st) i) →
  node_gen collab n pending max_draws (Some seen) kwargs st
  = (Raise GenerationStrategyRepeatedPoints,
     {| nd := set_model_spec_to_gen_from (Some 0%nat) (nd st);
        nlog := nlog st ++ replicate (S (Z.to_nat max_draws)) draw |}).
Proof.
  intros Hnode Hmax Hdups.
  pose proof (single_spec_ready st Hnode) as Hready.
  rewrite node_gen_single_spec by done. unfold draws_bound.
  replace (S (Z.to_nat max_draws)) with (Z.to_nat max_draws + 1)%nat at 1 by lia.
  rewrite (gen_draws_duplicates collab 0 n pending max_draws seen kwargs model_spec fitted);
    [ | done | intros; apply Hdups; lia | lia ].
  rewrite (gen_draws_exceeded collab 0 n pending max_draws seen kwargs model_spec fitted).
  - by rewrite after_draws_S.
  - destruct Hready as (? & ? & ? & ?). done.
  - destruct (Hdups (S (Z.to_nat max_draws))) as (gr & Hgr & Hdup); [lia |].
    exists gr. split; [| done]. cbn [after_draws nd nlog picked].
    rewrite <- app_assoc, <- replicate_add.
    by replace (Z.to_nat max_draws + 1)%nat with (S (Z.to_nat max_draws)) by lia.
  - lia.
Qed.

End node_gen_facts.

(** C2, on the stub of the specification: the model returns one and the same
    known arm on its first five draws and a new arm on the sixth.  With
    [max_gen_draws_for_deduplication = 5] the sixth draw is made and its run
    returned, where the error of exhaustion was to be raised; the error comes
    only with a sixth duplicate.  With the maximum at 6 the new arm is
    returned, too. *)
Theorem gen_limit_five_returns_sixth_draw :
  node_gen (stub_collaborators 5 dup_arm unique_arm) (Some 1) None 5
           (Some seen_arms) ∅ dedup_start
  = (Ok (single_arm_run unique_arm),
     {| nd := set_model_spec_to_gen_from (Some 0%nat) dedup_node;
        nlog := nlog dedup_start ++ replicate 6 (CallGen 0 (Some 1) None ∅) |})
  ∧ fst (node_gen (stub_collaborators 5 dup_arm unique_arm) (Some 1) None 6
                  (Some seen_arms) ∅ dedup_start)
    = Ok (single_arm_run unique_arm)
  ∧ fst (node_gen (stub_collaborators 6 dup_arm unique_arm) (Some 1) None 5
                  (Some seen_arms) ∅ dedup_start)
    = Raise GenerationStrategyRepeatedPoints.
Proof. repeat split; vm_compute; reflexivity. Qed.

(** ** The transition between steps *)

Section transition.
Variable collab : Collaborators.
Variable experiments : nat → Experiment.

Lemma current_step_eq st curr :
  _steps (gs st) !! _curr (gs st) = Some curr →
  current_step st = (Ok curr, st).
Proof. intros H. unfold current_step. unfold_monad. by rewrite H. Qed.

Lemma counts_not_unlimited (curr : GenerationStep) e to_gen to_complete :
  num_trials curr ≠ -1 →
  num_trials_to_gen_and_complete curr (Some e) = Ok (to_gen, to_complete) →
  0 ≤ to_gen ∧ 0 ≤ to_complete.
Proof.
  intros Hn. unfold num_trials_to_gen_and_complete.
  rewrite bool_decide_false by done. intros [= <- <-]. lia.
Qed.

(** The check on a step of finite budget. *)
Lemma maybe_move_finite flag st curr r to_gen to_complete :
  _steps (gs st) !! _curr (gs st) = Some curr →
  _experiment (gs st) = Some r →
  num_trials_to_gen_and_complete curr (Some (experiments r)) = Ok (to_gen, to_complete) →
  0 ≤ to_gen → 0 ≤ to_complete →
  _maybe_move_to_next_step collab experiments flag st
  = if (to_gen >? 0) || (to_complete >? 0) then
      if flag && enforce_num_trials curr && negb (to_gen >? 0)
      then (Raise DataRequiredError, st)
      else (Ok false, st)
    else if Z.of_nat (length (_steps (gs st))) =? index curr + 1
         then (Raise GenerationStrategyCompleted, st)
         else (move_to_next curr;; mret true) st.
Proof.
  intros Hcurr Hexp Hcounts Hg Hc.
  unfold _maybe_move_to_next_step.
  unfold mbind at 1. unfold M_bind at 1. rewrite (current_step_eq _ _ Hcurr).
  unfold mbind at 1. unfold M_bind at 1. unfold get at 1.
  unfold mbind at 1. unfold M_bind at 1. unfold lift at 1.
  unfold bound_experiment. rewrite Hexp. simpl fmap. rewrite Hcounts.
  replace ((to_gen =? to_complete) && (to_complete =? -1)) with false
    by (symmetry; apply andb_false_iff; right; lia).
  cbv zeta.
  destruct ((to_gen >? 0) || (to_complete >? 0)).
  - destruct (flag && enforce_num_trials curr && negb (to_gen >? 0)); done.
  - destruct (Z.of_nat (length (_steps (gs st))) =? index curr + 1); done.
Qed.

Lemma py_index_raise {A} (l : list A) i e : py_index l i = Raise e → e = IndexError.
Proof.
  unfold py_index. case_bool_decide; [congruence |].
  destruct (l !! _); congruence.
Qed.

Lemma py_index_Ok {A} (l : list A) i pos a :
  py_index l i = Ok (pos, a) → l !! pos = Some a.
Proof.
  unfold py_index. case_bool_decide; [congruence |].
  destruct (l !! _) eqn:E; congruence.
Qed.

Lemma py_index_nonneg {A} (l : list A) i pos a :
  py_index l i = Ok (pos, a) → 0 ≤ i → pos = Z.to_nat i.
Proof.
  unfold py_index. intros H Hi. rewrite (bool_decide_false (i < 0)) in H by lia.
  case_bool_decide; [congruence |]. destruct (l !! _); congruence.
Qed.

Lemma move_to_next_result curr st :
  (move_to_next curr;; mret true) st
  = match py_index (_steps (gs st)) (index curr + 1) with
    | Ok (pos, _) => (Ok true, moved_to pos st)
    | Raise e => (Raise e, st)
    end.
Proof.
  unfold move_to_next, modify_gs. unfold_monad.
  destruct (py_index _ _) as [[pos ?] | e]; done.
Qed.

End transition.

(** C1. On a step of finite budget, with the experiment bound, the check of
    the transition with the data-required error not suppressed raises that
    error exactly when nothing is left to generate, something is left to
    complete and the step enforces its budget; with the error suppressed the
    check never raises it, and in that very situation it returns without
    moving and leaves the strategy as it was. *)
Theorem data_required_iff (collab : Collaborators) (experiments : nat → Experiment)
    (st : St) (curr : GenerationStep) (r : nat) :
  _steps (gs st) !! _curr (gs st) = Some curr →
  _experiment (gs st) = Some r →
  num_trials curr ≠ -1 →
  ∃ to_gen to_complete,
    num_trials_to_gen_and_complete curr (Some (experiments r)) = Ok (to_gen, to_complete)
    ∧ ((_maybe_move_to_next_step collab experiments true st).1 = Raise DataRequiredError
       ↔ to_gen = 0 ∧ to_complete > 0 ∧ enforce_num_trials curr = true)
    ∧ (_maybe_move_to_next_step collab experiments false st).1 ≠ Raise DataRequiredError
    ∧ (to_gen = 0 ∧ to_complete > 0 ∧ enforce_num_trials curr = true →
       _maybe_move_to_next_step collab experiments false st = (Ok false, st)).
Proof.
  intros Hcurr Hexp Hn.
  destruct (num_trials_to_gen_and_complete curr (Some (experiments r)))
    as [[to_gen to_complete] | e] eqn:Hcounts.
  2:{ unfold num_trials_to_gen_and_complete in Hcounts.
      by rewrite bool_decide_false in Hcounts. }
  destruct (counts_not_unlimited _ _ _ _ Hn Hcounts) as [Hg Hc].
  exists to_gen, to_complete. split; [done |].
  rewrite !(maybe_move_finite collab experiments _ st curr r to_gen to_complete)
    by done.
  assert (∀ s : St, ((move_to_next curr;; mret true) s).1 ≠ Raise DataRequiredError)
    as Hmove.
  { intros s. rewrite move_to_next_result.
    destruct (py_index _ _) as [[pos ?] | e] eqn:E; simpl; [done |].
    by rewrite (py_index_raise _ _ _ E). }
  split; [split | split].
  - destruct (to_gen >? 0) eqn:H1; destruct (to_complete >? 0) eqn:H2; simpl;
      destruct (enforce_num_trials curr); simpl; try done; try (intros _; lia).
    all: destruct (_ =? _); simpl; try done; intros H; by apply Hmove in H.
  - intros (-> & Hpos & ->).
    destruct (to_complete >? 0) eqn:H2; [done | lia].
  - destruct ((to_gen >? 0) || (to_complete >? 0)); simpl; [done |].
    destruct (_ =? _); simpl; [done | apply Hmove].
  - intros (-> & Hpos & Henf).
    destruct (to_complete >? 0) eqn:H2; [done | lia].
Qed.

(** ** Construction *)

Lemma post_init_accepts (self : GenerationStep) :
  __post_init__ self
  = if step_accepted self
    then Ok (set_node {| model_specs := [ {| spec_model := model self;
                                             spec_model_kwargs := model_kwargs self;
                                             spec_model_gen_kwargs := model_gen_kwargs self;
                                             _fitted_model := None |} ];
                         best_model_selector := None;
                         should_deduplicate := should_deduplicate self;
                         _model_spec_to_gen_from := None |}
               (if bool_decide (model_name self = "")
                then set_model_name
                       (default "Unknown FactoryFunctionModelSpec"
                                (model_key (model self))) self
                else self))
    else Raise UserInputError.
Proof.
  unfold __post_init__, step_accepted.
  replace (num_trials self >=? 0) with (0 <=? num_trials self) by lia.
  replace (min_trials_observed self >? num_trials self)
    with (num_trials self <? min_trials_observed self) by lia.
  destruct (enforce_num_trials self && (0 <=? num_trials self)
            && (num_trials self <? min_trials_observed self)); simpl; [done |].
  destruct (model self) eqn:Hm; simpl; try done.
  all: case_bool_decide; simpl; done.
Qed.

(** The rest of one turn of the loop of the constructor, once the budget of
    the step has passed. *)
Ltac rest_of_turn IH :=
  destruct (max_parallelism _) as [cap |]; simpl;
  [ replace (cap <? 1) with (negb (1 <=? cap)) by lia;
    destruct (1 <=? cap); simpl; [| done]
  | ];
  rewrite IH; (destruct (steps_ok _ _ _); [| done]); simpl;
  (destruct (is_registry_model _); simpl; [done |]);
  by rewrite andb_false_r.

Lemma init_steps_ok len : ∀ steps idx uses,
  init_steps len idx steps uses
  = if steps_ok len idx steps
    then Ok (number_from idx steps,
             uses && forallb (λ s, is_registry_model (model s)) steps)
    else Raise UserInputError.
Proof.
  induction steps as [| step rest IH]; intros idx uses; simpl.
  - by rewrite andb_true_r.
  - unfold step_definition_ok.
    destruct (num_trials step =? -1) eqn:Hunl; simpl.
    + replace (Z.of_nat (length (completion_criteria step)) <? 1)
        with (bool_decide (completion_criteria step = [])).
      2:{ destruct (completion_criteria step); [done |].
          rewrite bool_decide_false by done. symmetry. apply Z.ltb_ge.
          rewrite length_cons. lia. }
      destruct (bool_decide (completion_criteria step = [])); simpl.
      * destruct (idx <? len - 1); simpl; [done |]. rest_of_turn IH.
      * replace (num_trials step <? 1) with true by lia. simpl. rest_of_turn IH.
    + replace (num_trials step <? 1) with (negb (1 <=? num_trials step)) by lia.
      destruct (1 <=? num_trials step); simpl; [| done]. rest_of_turn IH.
Qed.

Lemma number_from_lookup steps : ∀ idx i step,
  number_from idx steps !! i = Some step →
  index step = idx + Z.of_nat i.
Proof.
  induction steps as [| s rest IH]; intros idx i step; [done |].
  destruct i as [| i].
  - intros [= <-]. simpl. lia.
  - intros H. change (number_from (idx + 1) rest !! i = Some step) in H.
    apply IH in H. lia.
Qed.

Lemma number_from_id steps : ∀ idx,
  (∀ i step, steps !! i = Some step → index step = idx + Z.of_nat i) →
  number_from idx steps = steps.
Proof.
  induction steps as [| s rest IH]; intros idx Hidx; simpl; [done |].
  f_equal.
  - specialize (Hidx 0%nat s eq_refl). destruct s. unfold set_index. simpl in *.
    rewrite Hidx. f_equal. lia.
  - apply IH. intros i step Hi. rewrite (Hidx (S i) step Hi). lia.
Qed.

Lemma number_from_length steps : ∀ idx, length (number_from idx steps) = length steps.
Proof. induction steps; intros; simpl; [done | by f_equal]. Qed.

Lemma steps_ok_number_from len steps : ∀ idx k,
  steps_ok len idx (number_from k steps) = steps_ok len idx steps.
Proof.
  induction steps as [| s rest IH]; intros idx k; simpl; [done |].
  by rewrite IH.
Qed.

(** The constructor, on any list of steps. *)
Lemma init_result steps name :
  __init__ steps name
  = if steps_ok (Z.of_nat (length steps)) 0 steps then
      match steps with
      | [] => Raise IndexError
      | _ :: _ =>
          Ok {| _name := name;
                _steps := number_from 0 steps;
                _curr := 0;
                _uses_registered_models :=
                  forallb (λ s, is_registry_model (model s)) steps;
                _generator_runs := [];
                _experiment := None;
                _seen_trial_indices_by_status := None;
                _model := None |}
      end
    else Raise UserInputError.
Proof.
  unfold __init__. rewrite init_steps_ok.
  destruct (steps_ok _ _ _); [| done]. simpl.
  destruct steps; done.
Qed.

Lemma init_constructed steps name g :
  __init__ steps name = Ok g → constructed g.
Proof.
  rewrite init_result. destruct (steps_ok _ _ _) eqn:Hok; [| done].
  destruct steps as [| s rest] eqn:Hs; [done |]. intros [= <-].
  unfold constructed. cbn [_steps _curr].
  change (set_index 0 s :: number_from (0 + 1) rest) with (number_from 0 (s :: rest)).
  rewrite number_from_length.
  repeat split.
  - done.
  - by rewrite steps_ok_number_from.
  - intros i step Hi. apply number_from_lookup in Hi. lia.
  - simpl. lia.
Qed.

(** C8, as the code has it. A step is accepted exactly when its budget and
    minimum to observe agree and its model is a registry entry or a callable,
    and a list of steps exactly when it is not empty and every step has a
    budget that is positive or -1, an unlimited budget without completion
    criteria only in the last place, and a parallelism cap that is positive if
    set; every other construction raises the error of configuration, the
    empty list an index error.  A budget of 0 is rejected, a budget of 1
    accepted. *)
Theorem construction_accepts :
  (∀ self, (∃ step, __post_init__ self = Ok step) ↔ step_accepted self = true)
  ∧ (∀ self e, __post_init__ self = Raise e → e = UserInputError)
  ∧ (∀ steps name,
       (∃ g, __init__ steps name = Ok g)
       ↔ steps ≠ [] ∧ steps_ok (Z.of_nat (length steps)) 0 steps = true)
  ∧ (∀ steps name e,
       __init__ steps name = Raise e →
       (e = UserInputError ∧ steps_ok (Z.of_nat (length steps)) 0 steps = false)
       ∨ (e = IndexError ∧ steps = []))
  ∧ __init__ [sobol_step 0] None = Raise UserInputError
  ∧ (∃ g, __init__ [sobol_step 1] None = Ok g).
Proof.
  repeat split.
  - intros [step H]. rewrite post_init_accepts in H.
    by destruct (step_accepted self).
  - intros H. rewrite post_init_accepts, H. eauto.
  - intros self e. rewrite post_init_accepts.
    destruct (step_accepted self); congruence.
  - destruct H as [g H]. rewrite init_result in H.
    destruct (steps_ok _ _ _); [| done]. by destruct steps.
  - destruct H as [g H]. rewrite init_result in H.
    by destruct (steps_ok _ _ _).
  - intros [Hne Hok]. rewrite init_result, Hok. destruct steps; [done | eauto].
  - intros steps name e. rewrite init_result.
    destruct (steps_ok _ _ _); [| intros [= <-]; by left].
    destruct steps; [intros [= <-]; by right | done].
  - eexists. vm_compute. reflexivity.
Qed.

(** The claim C8 at a budget of 0: the step itself is accepted, the strategy
    that contains it is not. *)
Lemma zero_budget_rejected :
  __post_init__ zero_budget_fields = Ok (sobol_step 0)
  ∧ step_accepted zero_budget_fields = true
  ∧ __init__ [sobol_step 0] None = Raise UserInputError.
Proof. repeat split. Qed.

(** ** [clone_reset] *)

Lemma name_result st :
  name st
  = (Ok (default (default_name (gs st)) (_name (gs st))),
     {| gs := name_read (gs st); calls := calls st; heap := heap st |}).
Proof.
  unfold name, name_read, modify_gs. unfold_monad.
  destruct st as [g c h]. simpl. destruct (_name g); done.
Qed.

Lemma name_read_fields g :
  _steps (name_read g) = _steps g
  ∧ _curr (name_read g) = _curr g
  ∧ _uses_registered_models (name_read g) = _uses_registered_models g
  ∧ _generator_runs (name_read g) = _generator_runs g
  ∧ _experiment (name_read g) = _experiment g
  ∧ _seen_trial_indices_by_status (name_read g) = _seen_trial_indices_by_status g
  ∧ _model (name_read g) = _model g.
Proof. unfold name_read. destruct (_name g); done. Qed.

(** C9, as the code has it. [clone_reset] of a constructed strategy returns a
    strategy with the steps of the original, no generator runs, no experiment,
    no model, and the first step, of index 0, as its current step.  Of the
    original it changes nothing but the name: a name that was not set is set
    to the default name, which the call reads; steps, current step, generator
    runs, experiment, snapshot, model, calls and store are as they were, and a
    strategy that had a name is left exactly as it was. *)
Theorem clone_reset_spec (st : St) :
  constructed (gs st) →
  ∃ clone first,
    clone_reset st
    = (Ok clone, {| gs := name_read (gs st); calls := calls st; heap := heap st |})
    ∧ _steps clone = _steps (gs st)
    ∧ _generator_runs clone = []
    ∧ _experiment clone = None
    ∧ _model clone = None
    ∧ _seen_trial_indices_by_status clone = None
    ∧ _steps clone !! _curr clone = Some first
    ∧ _steps (gs st) !! 0%nat = Some first
    ∧ index first = 0
    ∧ _name clone = Some (default (default_name (gs st)) (_name (gs st)))
    ∧ _steps (name_read (gs st)) = _steps (gs st)
    ∧ _curr (name_read (gs st)) = _curr (gs st)
    ∧ _generator_runs (name_read (gs st)) = _generator_runs (gs st)
    ∧ _experiment (name_read (gs st)) = _experiment (gs st)
    ∧ _seen_trial_indices_by_status (name_read (gs st))
      = _seen_trial_indices_by_status (gs st)
    ∧ _model (name_read (gs st)) = _model (gs st)
    ∧ (is_Some (_name (gs st)) → name_read (gs st) = gs st).
Proof.
  intros (Hne & Hok & Hidx & Hcurr).
  destruct (name_read_fields (gs st)) as (Hs & Hc & _ & Hr & He & Hseen & Hm).
  destruct (_steps (gs st)) as [| first rest] eqn:Hsteps; [done |].
  eexists _, first.
  split.
  { unfold clone_reset. unfold mbind at 1. unfold M_bind at 1. rewrite name_result.
    unfold_monad. cbn [gs]. rewrite Hs. unfold deepcopy_steps.
    rewrite init_result. rewrite Hok. reflexivity. }
  cbn [_steps _generator_runs _experiment _model _seen_trial_indices_by_status
       _curr _name].
  rewrite number_from_id by (intros i step Hi; rewrite (Hidx i step Hi); lia).
  repeat split; try done.
  - apply (Hidx 0%nat first eq_refl).
  - intros [nm Hnm]. unfold name_read. by rewrite Hnm.
Qed.

(** The claim C9 on a strategy that was given no name: the call leaves the
    original with a name. *)
Lemma clone_reset_names_original :
  constructed sobol_strategy
  ∧ _name (gs (no_calls_no_heap sobol_strategy)) = None
  ∧ _name (gs (clone_reset (no_calls_no_heap sobol_strategy)).2) = Some "Sobol"
  ∧ (clone_reset (no_calls_no_heap sobol_strategy)).2 ≠ no_calls_no_heap sobol_strategy.
Proof.
  split; [| split; [| split]].
  - unfold constructed. repeat split; try done.
    + intros [| i] step; [intros [= <-]; done | done].
    + simpl. lia.
  - done.
  - vm_compute. reflexivity.
  - intros H. apply (f_equal (λ s, _name (gs s))) in H. vm_compute in H. done.
Qed.

(** ** What the methods keep *)

Section preserves_facts.
Context {S : Type} (R : S → S → Prop) `{!PreOrder R}.

Lemma preserves_ret {A} (a : A) : preserves R (mret a).
Proof. intros st. simpl. reflexivity. Qed.

Lemma preserves_raise {A} e : preserves R (raise e : M S A).
Proof. intros st. simpl. reflexivity. Qed.

Lemma preserves_lift {A} (r : Result A) : preserves R (lift r).
Proof. intros st. simpl. reflexivity. Qed.

Lemma preserves_get : preserves R get.
Proof. intros st. simpl. reflexivity. Qed.

Lemma preserves_from_option {A} e (o : option A) : preserves R (from_option e o).
Proof. destruct o; [apply preserves_ret | apply preserves_raise]. Qed.

Lemma preserves_bind {A B} (m : M S A) (f : A → M S B) :
  preserves R m → (∀ a, preserves R (f a)) → preserves R (m ≫= f).
Proof.
  intros Hm Hf st. unfold mbind, M_bind.
  specialize (Hm st). destruct (m st) as [[a | e] st']; simpl in *.
  - etransitivity; [exact Hm | apply Hf].
  - exact Hm.
Qed.

Lemma preserves_try_except {A} (m : M S A) catches handler :
  preserves R m → (∀ e, preserves R (handler e)) →
  preserves R (try_except m catches handler).
Proof.
  intros Hm Hh st. unfold try_except.
  specialize (Hm st). destruct (m st) as [[a | e] st']; simpl in *; [exact Hm |].
  destruct (catches e); simpl; [| exact Hm].
  etransitivity; [exact Hm | apply Hh].
Qed.

Lemma preserves_modify (f : S → S) :
  (∀ st, R st (f st)) → preserves R (modify f).
Proof. intros H st. apply H. Qed.
End preserves_facts.

(** One step of a proof that a method keeps a relation: through a bind, a
    case analysis, or a method that changes nothing. *)
Ltac preserves_step :=
  match goal with
  | |- PreOrder _ => apply _
  | |- preserves _ (mret _) => apply preserves_ret
  | |- preserves _ (raise _) => apply preserves_raise
  | |- preserves _ (lift _) => apply preserves_lift
  | |- preserves _ get => apply preserves_get
  | |- preserves _ (from_option _ _) => apply preserves_from_option
  | |- preserves _ (_ ≫= _) => apply preserves_bind; [apply _ | | intros ?]
  | |- preserves _ (try_except _ _ _) =>
      apply preserves_try_except; [apply _ | | intros ?]
  | |- preserves _ (match ?x with _ => _ end) => destruct x
  | |- preserves _ (let '(_, _) := ?x in _) => destruct x
  end.

Ltac preserves_auto := repeat (preserves_step; try done).

#[global] Instance evolves_preorder : PreOrder evolves.
Proof.
  split.
  - by intros st.
  - intros s1 s2 s3 (H1 & H2 & H3 & H4) (H1' & H2' & H3' & H4').
    repeat split; congruence.
Qed.

#[global] Instance evolves_binding_preorder : PreOrder evolves_binding.
Proof.
  split.
  - by intros st.
  - intros s1 s2 s3 (H1 & H2 & H4) (H1' & H2' & H4').
    repeat split; congruence.
Qed.

#[global] Instance same_heap_preorder : PreOrder same_heap.
Proof. split; unfold same_heap; [by intros st | intros s1 s2 s3; congruence]. Qed.

#[global] Instance same_gs_preorder : PreOrder same_gs.
Proof.
  split; unfold same_gs; [by intros st |].
  intros s1 s2 s3 [? ?] [? ?]. split; congruence.
Qed.

#[global] Instance advances_preorder : PreOrder advances.
Proof.
  split.
  - intros st Hc. split; [done | split; [lia | done]].
  - intros s1 s2 s3 H12 H23 Hc. destruct (H12 Hc) as (H1 & H2 & H3).
    destruct (H23 H3) as (H1' & H2' & H3').
    split; [congruence | split; [lia | done]].
Qed.

Lemma preserves_weaken {S A} (R R' : S → S → Prop) (m : M S A) :
  (∀ st st', R st st' → R' st st') → preserves R m → preserves R' m.
Proof. intros H Hm st. apply H, Hm. Qed.


Lemma evolves_binding_same_heap st st' : evolves_binding st st' → same_heap st st'.
Proof. by intros (? & ? & ?). Qed.

Lemma step_definition_fields step :
  index (step_definition step) = index step
  ∧ num_trials (step_definition step) = num_trials step
  ∧ completion_criteria (step_definition step) = completion_criteria step
  ∧ max_parallelism (step_definition step) = max_parallelism step.
Proof. done. Qed.

Lemma steps_ok_definition len : ∀ steps steps' idx,
  step_definition <$> steps' = step_definition <$> steps →
  steps_ok len idx steps' = steps_ok len idx steps.
Proof.
  induction steps as [| s rest IH]; intros [| s' rest'] idx H; try done.
  rewrite !fmap_cons in H.
  assert (step_definition s' = step_definition s) as Hs
    by (apply (f_equal head) in H; simpl in H; congruence).
  assert (step_definition <$> rest' = step_definition <$> rest) as Hrest
    by (apply (f_equal tail) in H; exact H).
  simpl. rewrite (IH rest' (idx + 1) Hrest). f_equal.
  unfold step_definition_ok.
  destruct (step_definition_fields s) as (_ & <- & <- & <-).
  destruct (step_definition_fields s') as (_ & <- & <- & <-).
  by rewrite Hs.
Qed.

Lemma constructed_definition g g' :
  step_definition <$> _steps g' = step_definition <$> _steps g →
  (_curr g' < length (_steps g'))%nat →
  constructed g → constructed g'.
Proof.
  intros Hdef Hcurr (Hne & Hok & Hidx & _).
  assert (length (_steps g') = length (_steps g)) as Hlen.
  { apply (f_equal length) in Hdef. by rewrite !length_fmap in Hdef. }
  repeat split; try done.
  - intros Hnil. rewrite Hnil in Hlen. destruct (_steps g); done.
  - by rewrite Hlen, (steps_ok_definition _ (_steps g)).
  - intros i step Hi.
    assert ((step_definition <$> _steps g') !! i = Some (step_definition step)) as Hd
      by (by rewrite list_lookup_fmap, Hi).
    rewrite Hdef, list_lookup_fmap in Hd.
    destruct (_steps g !! i) as [step0 |] eqn:Hi0; [| done].
    simpl in Hd. assert (step_definition step0 = step_definition step) as Hd'
      by congruence.
    clear Hd. rename Hd' into Hd. rewrite <- (Hidx i step0 Hi0).
    destruct (step_definition_fields step) as (<- & _).
    destruct (step_definition_fields step0) as (<- & _). by rewrite Hd.
Qed.

Lemma evolves_binding_advances st st' : evolves_binding st st' → advances st st'.
Proof.
  intros (Hdef & Hcurr & _) Hc. split; [done | split; [lia |]].
  apply (constructed_definition (gs st)); [done | | done].
  destruct Hc as (_ & _ & _ & Hlt). rewrite Hcurr.
  apply (f_equal length) in Hdef. rewrite !length_fmap in Hdef. lia.
Qed.

Lemma step_definition_set_node nd' step :
  step_definition (set_node nd' step) = step_definition step.
Proof. done. Qed.

Lemma on_current_node_evolves {A} (m : M NodeSt A) : preserves evolves (on_current_node m).
Proof.
  intros st. unfold on_current_node.
  destruct (_steps (gs st) !! _curr (gs st)) as [step |] eqn:Hcurr; [| reflexivity].
  destruct (m _) as [r nst]. repeat split; simpl; try done.
  rewrite list_fmap_insert, step_definition_set_node.
  apply list_insert_id. by rewrite list_lookup_fmap, Hcurr.
Qed.

Lemma record_evolves c : preserves evolves (record c).
Proof. by intros st. Qed.

Lemma modify_gs_evolves f :
  (∀ g, _steps (f g) = _steps g ∧ _curr (f g) = _curr g
        ∧ _experiment (f g) = _experiment g) →
  preserves evolves (modify_gs f).
Proof.
  intros H st. destruct (H (gs st)) as (H1 & H2 & H3).
  repeat split; simpl; try done. by rewrite H1.
Qed.

Section strategy_keeps.
Variable collab : Collaborators.
Variable experiments : nat → Experiment.

Lemma self_experiment_evolves : preserves evolves (self_experiment experiments).
Proof. unfold self_experiment. preserves_auto. Qed.

Lemma current_step_evolves : preserves evolves current_step.
Proof. unfold current_step. preserves_auto. Qed.

Lemma curr_model_spec_evolves : preserves evolves curr_model_spec.
Proof.
  unfold curr_model_spec. pose proof current_step_evolves. preserves_auto.
Qed.

Lemma experiment_setter_evolves_binding r :
  preserves evolves_binding (experiment_setter experiments r).
Proof.
  unfold experiment_setter. preserves_auto.
  all: try (intros st; by repeat split).
Qed.

Lemma fit_current_model_evolves data :
  preserves evolves (_fit_current_model collab experiments data).
Proof.
  unfold _fit_current_model.
  pose proof current_step_evolves. pose proof curr_model_spec_evolves.
  pose proof self_experiment_evolves.
  pose proof (@on_current_node_evolves unit).
  preserves_auto.
  all: try (apply modify_gs_evolves; done).
  all: destruct (_ && _); preserves_auto.
  all: destruct (_ || _); preserves_auto.
Qed.

Lemma update_current_model_evolves new_data :
  preserves evolves (_update_current_model collab experiments new_data).
Proof.
  unfold _update_current_model.
  pose proof self_experiment_evolves. pose proof record_evolves.
  preserves_auto.
Qed.

Lemma find_trials_evolves :
  preserves evolves (_find_trials_completed_since_last_gen experiments).
Proof.
  unfold _find_trials_completed_since_last_gen.
  pose proof self_experiment_evolves. preserves_auto.
Qed.

Lemma get_data_for_update_evolves data :
  preserves evolves (_get_data_for_update experiments data).
Proof.
  unfold _get_data_for_update.
  pose proof self_experiment_evolves. pose proof find_trials_evolves.
  preserves_auto.
Qed.

Lemma save_seen_evolves : preserves evolves (_save_seen_trial_indices experiments).
Proof.
  unfold _save_seen_trial_indices. pose proof self_experiment_evolves.
  preserves_auto.
Qed.

Lemma fit_or_update_evolves data :
  preserves evolves (_fit_or_update_current_model collab experiments data).
Proof.
  unfold _fit_or_update_current_model.
  pose proof current_step_evolves. pose proof save_seen_evolves.
  pose proof get_data_for_update_evolves. pose proof update_current_model_evolves.
  pose proof fit_current_model_evolves.
  preserves_auto.
Qed.

Lemma step_gen_evolves n pending seen kwargs :
  preserves evolves (step_gen collab n pending seen kwargs).
Proof.
  unfold step_gen.
  pose proof current_step_evolves. pose proof (@on_current_node_evolves GeneratorRun).
  preserves_auto.
Qed.

End strategy_keeps.

(** ** The transition either leaves the strategy as it was or moves it on *)

Section transition_outcome.
Variable collab : Collaborators.
Variable experiments : nat → Experiment.

(** The check, case by case. *)
Lemma maybe_move_unfold flag st curr :
  _steps (gs st) !! _curr (gs st) = Some curr →
  _maybe_move_to_next_step collab experiments flag st
  = match num_trials_to_gen_and_complete curr (bound_experiment experiments st) with
    | Raise e => (Raise e, st)
    | Ok (to_gen, to_complete) =>
        if (to_gen =? to_complete) && (to_complete =? -1) then
          if Z.of_nat (length (completion_criteria curr)) >? 0 then
            match _experiment (gs st) with
            | None => (Raise ValueError, st)
            | Some r =>
                if forallb (λ criterion, is_met collab criterion (experiments r))
                           (completion_criteria curr)
                then if Z.of_nat (length (_steps (gs st))) =? index curr + 1
                     then (Raise GenerationStrategyCompleted, st)
                     else (move_to_next curr;; mret true) st
                else (Ok false, st)
            end
          else (Ok false, st)
        else if (to_gen >? 0) || (to_complete >? 0) then
               if flag && enforce_num_trials curr && negb (to_gen >? 0)
               then (Raise DataRequiredError, st)
               else (Ok false, st)
             else if Z.of_nat (length (_steps (gs st))) =? index curr + 1
                  then (Raise GenerationStrategyCompleted, st)
                  else (move_to_next curr;; mret true) st
    end.
Proof.
  intros Hcurr. unfold _maybe_move_to_next_step.
  unfold mbind at 1. unfold M_bind at 1. rewrite (current_step_eq _ _ Hcurr).
  unfold mbind at 1. unfold M_bind at 1. unfold get at 1.
  unfold mbind at 1. unfold M_bind at 1. unfold lift at 1.
  destruct (num_trials_to_gen_and_complete curr (bound_experiment experiments st))
    as [[to_gen to_complete] | e]; [| done].
  set (move := (move_to_next curr;; mret true)).
  destruct ((to_gen =? to_complete) && (to_complete =? -1)).
  - unfold mbind at 1. unfold M_bind at 1.
    destruct (Z.of_nat (length (completion_criteria curr)) >? 0); [| done].
    unfold self_experiment. unfold_monad.
    destruct (_experiment (gs st)); [| done].
    destruct (forallb _ _); [| done]. by destruct (_ =? _).
  - cbv zeta. destruct ((to_gen >? 0) || (to_complete >? 0)).
    + by destruct (_ && _ && _).
    + by destruct (_ =? _).
Qed.

Lemma maybe_move_outcome flag st :
  (_maybe_move_to_next_step collab experiments flag st).2 = st
  ∨ ∃ curr pos next,
      _steps (gs st) !! _curr (gs st) = Some curr
      ∧ py_index (_steps (gs st)) (index curr + 1) = Ok (pos, next)
      ∧ _maybe_move_to_next_step collab experiments flag st
        = (Ok true, moved_to pos st).
Proof.
  destruct (_steps (gs st) !! _curr (gs st)) as [curr |] eqn:Hcurr.
  2:{ left. unfold _maybe_move_to_next_step, current_step. unfold_monad.
      by rewrite Hcurr. }
  rewrite (maybe_move_unfold flag st curr Hcurr).
  assert ((((move_to_next curr;; mret true) st).2 = st)
          ∨ ∃ curr0 pos next, Some curr = Some curr0
              ∧ py_index (_steps (gs st)) (index curr0 + 1) = Ok (pos, next)
              ∧ (move_to_next curr;; mret true) st = (Ok true, moved_to pos st))
    as Hmove.
  { rewrite move_to_next_result.
    destruct (py_index _ _) as [[pos next] | e] eqn:E; [| by left].
    right. exists curr, pos, next. by rewrite E. }
  set (move := (move_to_next curr;; mret true)) in *.
  destruct (num_trials_to_gen_and_complete _ _) as [[to_gen to_complete] | e];
    [| by left].
  destruct ((to_gen =? to_complete) && (to_complete =? -1)).
  - destruct (_ >? 0); [| by left].
    destruct (_experiment (gs st)); [| by left].
    destruct (forallb _ _); [| by left]. destruct (_ =? _); [by left | done].
  - destruct ((to_gen >? 0) || (to_complete >? 0)).
    + destruct (_ && _ && _); by left.
    + destruct (_ =? _); [by left | done].
Qed.


Lemma maybe_move_same_heap flag :
  preserves same_heap (_maybe_move_to_next_step collab experiments flag).
Proof.
  intros st. destruct (maybe_move_outcome flag st) as [-> | (? & ? & ? & _ & _ & ->)];
    done.
Qed.


End transition_outcome.

(** ** Generation keeps the strategy constructed and never steps back *)



(** The store is the only thing the methods on pending observations
    change. *)
Lemma alloc_list_same_gs l : preserves same_gs (alloc_list l).
Proof. by intros st. Qed.

Lemma alloc_dict_same_gs d : preserves same_gs (alloc_dict d).
Proof. by intros st. Qed.

Lemma modify_heap_same_gs f : preserves same_gs (modify_heap f).
Proof. by intros st. Qed.

Lemma read_dict_same_gs r : preserves same_gs (read_dict r).
Proof. unfold read_dict. preserves_auto. Qed.

Lemma read_list_same_gs r : preserves same_gs (read_list r).
Proof. unfold read_list. preserves_auto. Qed.

Lemma deepcopy_entries_same_gs entries : preserves same_gs (deepcopy_entries entries).
Proof.
  induction entries as [| [k r] rest IH]; simpl; [preserves_auto |].
  pose proof read_list_same_gs. pose proof alloc_list_same_gs. preserves_auto.
Qed.

Lemma deepcopy_same_gs p : preserves same_gs (deepcopy p).
Proof.
  unfold deepcopy. pose proof read_dict_same_gs. pose proof alloc_dict_same_gs.
  pose proof deepcopy_entries_same_gs. preserves_auto.
Qed.

Lemma deepcopy_or_empty_same_gs p : preserves same_gs (deepcopy_or_empty p).
Proof.
  unfold deepcopy_or_empty. pose proof read_dict_same_gs.
  pose proof alloc_dict_same_gs. pose proof deepcopy_same_gs. preserves_auto.
Qed.

Lemma extend_for_metrics_same_gs names p new :
  preserves same_gs (extend_for_metrics names p new).
Proof.
  induction names as [| m rest IH]; simpl; [preserves_auto |].
  pose proof read_dict_same_gs. pose proof read_list_same_gs.
  pose proof alloc_list_same_gs.
  unfold write_dict, write_list. pose proof modify_heap_same_gs.
  preserves_auto.
Qed.

Lemma extend_pending_observations_same_gs e p gr :
  preserves same_gs (extend_pending_observations e p gr).
Proof. apply extend_for_metrics_same_gs. Qed.

Section generation_advances.
Variable collab : Collaborators.
Variable experiments : nat → Experiment.





End generation_advances.

(** ** Sequences of calls *)





Section completed.
Variable collab : Collaborators.
Variable experiments : nat → Experiment.




End completed.



(** ** The loop of [_gen_multiple] *)

Section gen_loop_facts.
Variable collab : Collaborators.
Variable experiments : nat → Experiment.
Variables (experiment : nat) (n : Z) (pending : nat) (kwargs : Kwargs).

Local Abbreviation draw_run :=
  (step_gen collab (Some n) pending
     (Some (arms_by_signature (experiments experiment))) kwargs).
Local Abbreviation loop := (gen_loop collab experiments).

(** A turn of the loop, by what the step's [gen] does. *)
Lemma gen_loop_unfold remaining runs st :
  loop (S remaining) experiment n pending kwargs runs st
  = match draw_run st with
    | (Ok generator_run, st') =>
        match keep_run experiments experiment pending generator_run st' with
        | (Ok _, st'') =>
            loop remaining experiment n pending kwargs (runs ++ [generator_run]) st''
        | (Raise e, st'') => (Raise e, st'')
        end
    | (Raise e, st') =>
        if bool_decide (e = DataRequiredError)
        then if bool_decide (length runs = 0%nat)
             then (Raise e, st') else (Ok runs, st')
        else (Raise e, st')
    end.
Proof.
  simpl. unfold mbind at 1. unfold M_bind at 1. unfold try_except.
  unfold mbind at 1. unfold M_bind at 1.
  destruct (draw_run st) as [[generator_run | e] st']; simpl.
  - unfold keep_run. unfold mbind at 1 3. unfold M_bind at 1 3.
    unfold mbind at 1. unfold M_bind at 1.
    destruct (modify_gs _ st') as [[[] | e] st'']; simpl; [| done].
    by destruct (extend_pending_observations _ _ _ st'') as [[[] | e] st3].
  - case_bool_decide; [| done]. by case_bool_decide.
Qed.

End gen_loop_facts.

Lemma gen_multiple_split collab experiments experiment num data n pending kwargs st :
  _gen_multiple collab experiments experiment num data n pending kwargs st
  = match gen_multiple_prologue collab experiments experiment num data pending st with
    | (Ok (turns, copy), st') =>
        gen_loop collab experiments (Z.to_nat turns) experiment n copy kwargs [] st'
    | (Raise e, st') => (Raise e, st')
    end.
Proof.
  unfold _gen_multiple, gen_multiple_prologue.
  unfold mbind, M_bind.
  destruct (experiment_setter _ _ _) as [[[] | ?] st1]; [| done].
  destruct (_maybe_move_to_next_step _ _ _ _) as [[? | ?] st2]; [| done].
  destruct (_fit_or_update_current_model _ _ _ _) as [[[] | ?] st3]; [| done].
  destruct (current_step st3) as [[curr | ?] st4]; [| done].
  unfold get.
  destruct (lift _ st4) as [[until | ?] st5]; [| done].
  destruct (enforce_num_trials curr && (num_trials curr >? 0)).
  - destruct (self_experiment experiments st5) as [[e | ?] st6]; [| done].
    unfold mret, M_ret.
    by destruct (deepcopy_or_empty pending st6) as [[copy | ?] st7].
  - unfold mret, M_ret.
    by destruct (deepcopy_or_empty pending st5) as [[copy | ?] st7].
Qed.

Section produces_facts.
Variable collab : Collaborators.
Variable experiments : nat → Experiment.
Variables (experiment : nat) (n : Z) (pending : nat) (kwargs : Kwargs).

Local Abbreviation draw_run :=
  (step_gen collab (Some n) pending
     (Some (arms_by_signature (experiments experiment))) kwargs).
Local Abbreviation loop := (gen_loop collab experiments).
Local Abbreviation yields := (produces collab experiments experiment n pending kwargs).

Lemma produces_length k st runs st' : yields k st runs st' → length runs = k.
Proof.
  induction 1 as [| k st runs st1 gr st2 st3 _ IH _ _]; [done |].
  rewrite length_app, IH. simpl. lia.
Qed.

(** The turns that produce a run take the loop from one state to the other,
    with their runs added to those it had. *)
Lemma gen_loop_produces k st runs st' :
  yields k st runs st' →
  ∀ remaining acc,
    loop (k + remaining) experiment n pending kwargs acc st
    = loop remaining experiment n pending kwargs (acc ++ runs) st'.
Proof.
  induction 1 as [| k st runs st1 gr st2 st3 _ IH Hdraw Hkeep];
    intros remaining acc.
  - by rewrite app_nil_r.
  - replace (S k + remaining)%nat with (k + S remaining)%nat by lia.
    rewrite IH, gen_loop_unfold, Hdraw, Hkeep. by rewrite app_assoc.
Qed.

(** The data-required error after [k] turns that produced a run. *)
Lemma gen_loop_data_required k st runs st' remaining :
  yields k st runs st' →
  (draw_run st').1 = Raise DataRequiredError →
  loop (k + S remaining) experiment n pending kwargs [] st
  = (if bool_decide (k = 0%nat) then Raise DataRequiredError else Ok runs,
     (draw_run st').2).
Proof.
  intros Hyields Hraise.
  rewrite (gen_loop_produces _ _ _ _ Hyields), gen_loop_unfold. simpl.
  destruct (draw_run st') as [[gr | e] st'']; simpl in *; [done |].
  injection Hraise as ->. rewrite bool_decide_true by done.
  rewrite (produces_length _ _ _ _ Hyields).
  by case_bool_decide.
Qed.

End produces_facts.

(** C5. [_gen_multiple] enters its loop with no generator run.  When the
    step's [gen] raises the data-required error after [k] turns of the loop
    that each produced a run, [_gen_multiple] raises that error to the caller
    if [k] is 0, the very first turn, and returns the [k] runs produced so far
    if [k] is not 0. *)
Theorem data_required_first_raised_later_swallowed
    (collab : Collaborators) (experiments : nat → Experiment)
    (experiment : nat) (num_generator_runs : Z) (data : option Data) (n : Z)
    (pending_observations : option nat) (model_gen_kwargs : Kwargs)
    (st : St) (turns : Z) (copy : nat) (st0 : St)
    (k : nat) (runs : list GeneratorRun) (st1 : St) :
  gen_multiple_prologue collab experiments experiment num_generator_runs data
    pending_observations st
  = (Ok (turns, copy), st0) →
  produces collab experiments experiment n copy model_gen_kwargs k st0 runs st1 →
  (k < Z.to_nat turns)%nat →
  (step_gen collab (Some n) copy
     (Some (arms_by_signature (experiments experiment))) model_gen_kwargs st1).1
  = Raise DataRequiredError →
  length runs = k
  ∧ _gen_multiple collab experiments experiment num_generator_runs data n
      pending_observations model_gen_kwargs st
    = (if bool_decide (k = 0%nat) then Raise DataRequiredError else Ok runs,
       (step_gen collab (Some n) copy
          (Some (arms_by_signature (experiments experiment))) model_gen_kwargs
          st1).2).
Proof.
  intros Hprologue Hyields Hturns Hraise.
  split; [by apply produces_length in Hyields |].
  rewrite gen_multiple_split, Hprologue.
  replace (Z.to_nat turns) with (k + S (Z.to_nat turns - k - 1))%nat by lia.
  by apply gen_loop_data_required.
Qed.

(** ** Fit or update *)

Section update_path.
Variable collab : Collaborators.
Variable experiments : nat → Experiment.

Lemma self_experiment_eq st r :
  _experiment (gs st) = Some r →
  self_experiment experiments st = (Ok (experiments r), st).
Proof. intros H. unfold self_experiment. unfold_monad. by rewrite H. Qed.

Lemma find_trials_eq st r :
  _experiment (gs st) = Some r →
  _find_trials_completed_since_last_gen experiments st
  = (Ok (newly_completed (experiments r) (_seen_trial_indices_by_status (gs st))), st).
Proof.
  intros H. unfold _find_trials_completed_since_last_gen.
  unfold mbind at 1. unfold M_bind at 1. rewrite (self_experiment_eq _ _ H).
  unfold_monad. unfold newly_completed.
  by destruct (_seen_trial_indices_by_status (gs st)).
Qed.

Lemma lookup_data_empty_set e : lookup_data e (Some ∅) = [].
Proof.
  unfold lookup_data. induction (attached_data e) as [| row rows IH]; [done |].
  rewrite filter_cons_False; [done | set_solver].
Qed.

(** The data [_get_data_for_update] hands to [update], if any. *)
Lemma get_data_for_update_eq st r data :
  _experiment (gs st) = Some r →
  ∃ new_data,
    _get_data_for_update experiments data st = (Ok new_data, st)
    ∧ update_calls 0 (experiments r) (_seen_trial_indices_by_status (gs st)) data
      = match new_data with Some d => [CallUpdate 0 d] | None => [] end.
Proof.
  intros H. unfold _get_data_for_update.
  unfold mbind at 1. unfold M_bind at 1. rewrite (find_trials_eq _ _ H).
  unfold update_calls.
  set (newly := newly_completed _ _).
  case_bool_decide as Hsize.
  - apply size_empty_iff in Hsize. apply leibniz_equiv in Hsize. rewrite Hsize.
    exists None. split; [done |].
    destruct data; [by rewrite bool_decide_true | by rewrite lookup_data_empty_set].
  - assert (newly ≠ ∅) as Hne.
    { intros Hn. apply Hsize. by rewrite Hn, size_empty. }
    destruct data as [passed |].
    + rewrite (bool_decide_false _ Hne). simpl.
      destruct (df_empty passed); eexists; split; done.
    + unfold mbind at 1. unfold M_bind at 1. rewrite (self_experiment_eq _ _ H).
      destruct (df_empty _); eexists; split; done.
Qed.

Lemma save_seen_calls st :
  calls (_save_seen_trial_indices experiments st).2 = calls st.
Proof.
  unfold _save_seen_trial_indices, self_experiment, modify_gs. unfold_monad.
  by destruct (_experiment (gs st)).
Qed.

(** The cycle on a fitted model of a step that uses [update]. *)
Lemma fit_or_update_calls st curr m r data :
  _steps (gs st) !! _curr (gs st) = Some curr →
  _model (gs st) = Some m →
  use_update curr = true →
  _experiment (gs st) = Some r →
  calls (_fit_or_update_current_model collab experiments data st).2
  = calls st
    ++ update_calls m (experiments r) (_seen_trial_indices_by_status (gs st)) data.
Proof.
  intros Hcurr Hm Hupd Hexp. unfold _fit_or_update_current_model.
  unfold mbind at 1. unfold M_bind at 1. unfold get at 1.
  unfold mbind at 1. unfold M_bind at 1. rewrite (current_step_eq _ _ Hcurr).
  rewrite Hm, Hupd. rewrite bool_decide_true by eauto. simpl andb. cbv iota.
  unfold mbind at 1. unfold M_bind at 1.
  unfold mbind at 1. unfold M_bind at 1.
  destruct (get_data_for_update_eq st r data Hexp) as (new_data & -> & Hcalls).
  assert (update_calls m (experiments r) (_seen_trial_indices_by_status (gs st)) data
          = match new_data with Some d => [CallUpdate m d] | None => [] end) as ->.
  { clear -Hcalls. unfold update_calls in *.
    destruct data; repeat (destruct (_ || _) || destruct (df_empty _));
      destruct new_data; simpl in *; congruence. }
  destruct new_data as [d |].
  - unfold _update_current_model.
    unfold mbind at 1. unfold M_bind at 1. unfold get at 1. rewrite Hm.
    unfold mbind at 1. unfold M_bind at 1. rewrite (self_experiment_eq _ _ Hexp).
    unfold mbind at 1. unfold M_bind at 1. unfold record.
    destruct (model_update collab _ _); simpl; [done |].
    by rewrite save_seen_calls.
  - unfold mret, M_ret. rewrite save_seen_calls. by rewrite app_nil_r.
Qed.

End update_path.

(** C7, as the code has it. With the cached model set and [use_update] on
    the current step, a cycle makes no fit, and at most one call of [update],
    on the cached model, with rows of newly completed trials only.  Without
    passed-in data, the call is made exactly when the experiment holds rows
    for the trials that entered COMPLETED since the snapshot, and carries
    exactly those rows; when no trial completed since the snapshot, or none
    of the newly completed trials has data, there is no call. With passed-in
    data, the call is made when a trial completed since the snapshot and the
    passed data is not empty, and carries the passed rows of the newly
    completed trials. *)
Theorem update_with_new_data_only (collab : Collaborators)
    (experiments : nat → Experiment) (st : St) (curr : GenerationStep)
    (m r : nat) (data : option Data) :
  _steps (gs st) !! _curr (gs st) = Some curr →
  _model (gs st) = Some m →
  use_update curr = true →
  _experiment (gs st) = Some r →
  let e := experiments r in
  let seen := _seen_trial_indices_by_status (gs st) in
  let newly := newly_completed e seen in
  calls (_fit_or_update_current_model collab experiments data st).2
  = calls st ++ update_calls m e seen data
  ∧ (length (update_calls m e seen data) ≤ 1)%nat
  ∧ (∀ c, c ∈ update_calls m e seen data →
          ∃ rows, c = CallUpdate m rows ∧ ∀ row, row ∈ rows → trial_index row ∈ newly)
  ∧ (newly = ∅ → update_calls m e seen data = [])
  ∧ (data = None →
     ∃ rows, (∀ row, row ∈ rows ↔ row ∈ attached_data e ∧ trial_index row ∈ newly)
             ∧ update_calls m e seen data
               = if df_empty rows then [] else [CallUpdate m rows])
  ∧ (∀ passed, data = Some passed → newly ≠ ∅ → passed ≠ [] →
       update_calls m e seen data
       = [CallUpdate m (filter (λ row, trial_index row ∈ newly) passed)]).
Proof.
  intros Hcurr Hm Hupd Hexp e seen newly.
  split; [by apply (fit_or_update_calls collab experiments st curr) |].
  unfold update_calls. fold newly.
  split; [| split; [| split; [| split]]].
  - destruct data; [destruct (_ || _) | destruct (df_empty _)]; simpl; lia.
  - intros c Hc. destruct data as [passed |].
    + destruct (_ || _); [by apply elem_of_nil in Hc |].
      apply list_elem_of_singleton in Hc as ->. eexists. split; [done |].
      intros row Hrow. by apply list_elem_of_filter in Hrow as [? _].
    + destruct (df_empty _); [by apply elem_of_nil in Hc |].
      apply list_elem_of_singleton in Hc as ->. eexists. split; [done |].
      intros row Hrow. unfold lookup_data in Hrow.
      by apply list_elem_of_filter in Hrow as [? _].
  - intros Hnone. rewrite Hnone. destruct data; [by rewrite bool_decide_true |].
    by rewrite lookup_data_empty_set.
  - intros ->. exists (lookup_data e (Some newly)). split; [| done].
    intros row. unfold lookup_data. rewrite list_elem_of_filter. tauto.
  - intros passed -> Hne Hpassed. rewrite bool_decide_false by done.
    by destruct passed.
Qed.

(** The claim C7 on a model fitted on trials 0 and 1: trial 2 completes, but
    no data is attached for it, and the cycle makes no call of [update]. *)
Lemma completed_without_data_no_update :
  _model (gs updating) = Some 0%nat
  ∧ newly_completed (three_completed [row_of 0; row_of 1]) (Some seen_two) = {[2]}
  ∧ calls (_fit_or_update_current_model quiet_collaborators
             (λ _, three_completed [row_of 0; row_of 1]) None updating).2
    = calls updating.
Proof. repeat split; vm_compute; reflexivity. Qed.

(** ** The caller's pending observations are not touched *)

#[global] Instance keeping_preorder (I : St → Prop) : PreOrder (keeping I).
Proof. split; unfold keeping; [by intros st | intros s1 s2 s3; tauto]. Qed.

#[global] Instance heap_extends_preorder : PreOrder heap_extends.
Proof.
  split.
  - by intros h.
  - intros h1 h2 h3 [? ?] [? ?]. split; etransitivity; done.
Qed.

Lemma same_heap_keeping_owned h0 p st st' :
  same_heap st st' → keeping (owned h0 p) st st'.
Proof. unfold same_heap, keeping, owned. by intros ->. Qed.

Lemma fresh_not_in_sub {V} (m0 m : gmap nat V) :
  m0 ⊆ m → fresh (dom m) ∉ dom m0.
Proof.
  intros Hsub Hin. apply (is_fresh (dom m)).
  by apply (subseteq_dom _ _ Hsub).
Qed.

Lemma insert_outside {V} (m0 m : gmap nat V) i v :
  m0 ⊆ m → i ∉ dom m0 → m0 ⊆ <[i := v]> m.
Proof.
  intros Hsub Hi. apply insert_subseteq_r; [| done]. by apply not_elem_of_dom.
Qed.

Section owned_facts.
Variables (h0 : PHeap) (p : nat).

Lemma read_dict_keeps r : preserves (keeping (owned h0 p)) (read_dict r).
Proof. unfold read_dict. preserves_auto. Qed.

Lemma read_list_keeps r : preserves (keeping (owned h0 p)) (read_list r).
Proof. unfold read_list. preserves_auto. Qed.

(** One metric of [extend_pending_observations], on the owned dictionary. *)
Lemma extend_for_metrics_keeps names new :
  preserves (keeping (owned h0 p)) (extend_for_metrics names p new).
Proof.
  induction names as [| m rest IH]; simpl; [preserves_auto |].
  intros st Hown. unfold mbind at 1. unfold M_bind at 1.
  unfold read_dict at 1. unfold_monad. simpl.
  destruct (dicts (heap st) !! p) as [d |] eqn:Hd; simpl; [| done].
  destruct Hown as ([Hdicts Hlists] & Hp & Hvals).
  destruct (d !! m) as [r |] eqn:Hm; simpl.
  - unfold read_list. unfold_monad. simpl.
    destruct (lists (heap st) !! r) as [l |] eqn:Hl; simpl;
      [| by repeat split].
    unfold write_list, modify_heap. unfold_monad. simpl. apply IH.
    repeat split; simpl; try done.
    apply insert_outside; [done | by apply (Hvals d m r)].
  - unfold alloc_list, write_dict, read_list, write_list, modify_heap.
    unfold_monad. simpl. rewrite lookup_insert_eq. simpl.
    rewrite insert_insert_eq. apply IH.
    pose proof (fresh_not_in_sub _ _ Hlists) as Hfresh.
    repeat split; simpl; try done.
    + by apply insert_outside.
    + by apply insert_outside.
    + intros d' k l' Hd' Hk. rewrite lookup_insert_eq in Hd'. injection Hd' as <-.
      destruct (decide (k = m)) as [-> | Hne].
      * rewrite lookup_insert_eq in Hk. by injection Hk as <-.
      * rewrite lookup_insert_ne in Hk by done. by apply (Hvals d k l').
Qed.

Lemma keep_run_keeps experiments experiment gr :
  preserves (keeping (owned h0 p)) (keep_run experiments experiment p gr).
Proof.
  unfold keep_run, extend_pending_observations.
  pose proof extend_for_metrics_keeps. preserves_auto.
  by intros st Hown.
Qed.

End owned_facts.

Lemma heap_extends_alloc_list h0 st l :
  heap_extends h0 (heap st) → heap_extends h0 (heap (alloc_list l st).2).
Proof.
  intros [Hd Hl]. split; simpl; [done |].
  apply insert_outside; [done | by apply fresh_not_in_sub].
Qed.

Lemma heap_extends_alloc_dict h0 st d :
  heap_extends h0 (heap st) → heap_extends h0 (heap (alloc_dict d st).2).
Proof.
  intros [Hd Hl]. split; simpl; [| done].
  apply insert_outside; [done | by apply fresh_not_in_sub].
Qed.

(** [deepcopy] of the entries: the lists of the copy are new objects. *)
Lemma deepcopy_entries_spec h0 entries : ∀ st res st',
  deepcopy_entries entries st = (res, st') →
  heap_extends h0 (heap st) →
  heap_extends h0 (heap st')
  ∧ ∀ d', res = Ok d' → ∀ k l, d' !! k = Some l → l ∉ dom (lists h0).
Proof.
  induction entries as [| [k r] rest IH]; intros st res st' E Hext; simpl in E.
  - injection E as <- <-. split; [done |]. intros d' [= <-] k l.
    by rewrite lookup_empty.
  - unfold mbind, M_bind in E. unfold read_list at 1 in E. unfold_monad. simpl in E.
    destruct (lists (heap st) !! r) as [l |]; simpl in E.
    2:{ injection E as <- <-. by split. }
    pose proof (heap_extends_alloc_list h0 st l Hext) as Hext'.
    destruct (deepcopy_entries rest _) as [[d |] st''] eqn:E'; simpl in E;
      injection E as <- <-;
      destruct (IH _ _ _ E' Hext') as [Hext'' Hvals]; [| by split].
    split; [done |]. intros d' [= <-] k' l'.
    destruct (decide (k' = k)) as [-> | Hne].
    + rewrite lookup_insert_eq. intros [= <-].
      destruct Hext as [_ Hl]. by apply fresh_not_in_sub.
    + rewrite lookup_insert_ne by done. by apply (Hvals d).
Qed.

Lemma alloc_dict_owned h0 st d :
  heap_extends h0 (heap st) →
  (∀ k l, d !! k = Some l → l ∉ dom (lists h0)) →
  owned h0 (fresh (dom (dicts (heap st)))) (alloc_dict d st).2.
Proof.
  intros Hext Hvals.
  split; [by apply heap_extends_alloc_dict |]. simpl.
  destruct Hext as [Hd Hl]. split; [by apply fresh_not_in_sub |].
  intros d' k l. rewrite lookup_insert_eq. intros [= <-]. apply Hvals.
Qed.

(** [deepcopy(pending_observations) or {}]: what it returns is a new
    dictionary of new lists. *)
Lemma deepcopy_or_empty_spec pending st res st' :
  deepcopy_or_empty pending st = (res, st') →
  heap_extends (heap st) (heap st')
  ∧ ∀ copy, res = Ok copy → owned (heap st) copy st'.
Proof.
  set (h0 := heap st).
  assert (heap_extends h0 (heap st)) as Hext by reflexivity.
  assert (∀ s res st', alloc_dict ∅ s = (res, st') → heap_extends h0 (heap s) →
            heap_extends h0 (heap st') ∧ ∀ copy, res = Ok copy → owned h0 copy st')
    as Hempty.
  { intros s res0 st0 E Hs.
    pose proof (alloc_dict_owned h0 s ∅ Hs) as Hown.
    unfold alloc_dict in *. injection E as <- <-. simpl in *.
    assert (∀ (k : string) (l : nat), (∅ : gmap string nat) !! k = Some l
                                      → l ∉ dom (lists h0)) as Hno
      by (intros k l; by rewrite lookup_empty).
    specialize (Hown Hno). split; [by destruct Hown |]. by intros copy [= <-]. }
  intros E. unfold deepcopy_or_empty in E. unfold mbind, M_bind in E.
  destruct pending as [r |]; simpl in E; [| by apply (Hempty st)].
  unfold mbind, M_bind in E. unfold read_dict at 1 in E. unfold_monad. simpl in E.
  destruct (dicts (heap st) !! r) as [d |]; simpl in E.
  2:{ injection E as <- <-. by split. }
  destruct (deepcopy_entries (map_to_list d) st) as [[d' |] st1] eqn:E1; simpl in E.
  2:{ injection E as <- <-.
      destruct (deepcopy_entries_spec h0 _ _ _ _ E1 Hext) as [? _]. by split. }
  destruct (deepcopy_entries_spec h0 _ _ _ _ E1 Hext) as [Hext1 Hvals].
  specialize (Hvals d' eq_refl).
  pose proof (alloc_dict_owned h0 st1 d' Hext1 Hvals) as Hown.
  unfold read_dict in E. unfold_monad. simpl in E.
  rewrite lookup_insert_eq in E. simpl in E.
  case_bool_decide.
  - apply (Hempty _ _ _ E). by destruct Hown.
  - injection E as <- <-. split; [by destruct Hown |]. by intros copy [= <-].
Qed.

Section callers_pending.
Variable collab : Collaborators.
Variable experiments : nat → Experiment.

Lemma evolves_same_heap st st' : evolves st st' → same_heap st st'.
Proof. by intros (_ & _ & _ & ?). Qed.

Lemma gen_loop_keeps h0 pending remaining : ∀ experiment n kwargs runs,
  preserves (keeping (owned h0 pending))
    (gen_loop collab experiments remaining experiment n pending kwargs runs).
Proof.
  induction remaining as [| remaining IH]; intros; simpl; [preserves_auto |].
  pose proof (λ n s k,
    preserves_weaken _ _ _ (same_heap_keeping_owned h0 pending)
      (preserves_weaken _ _ _ evolves_same_heap
         (step_gen_evolves collab n pending s k))).
  pose proof (λ e gr, extend_for_metrics_keeps h0 pending
                        (map_to_list (metrics e)).*1
                        ((λ a, {| from_arm := signature a |}) <$> arms gr)).
  unfold extend_pending_observations.
  preserves_auto. by intros st Hown.
Qed.

(** What comes before the loop changes no object of the store and hands the
    loop a dictionary of its own. *)
Lemma prologue_spec experiment num data pending st res st' :
  gen_multiple_prologue collab experiments experiment num data pending st = (res, st') →
  heap_extends (heap st) (heap st')
  ∧ ∀ turns copy, res = Ok (turns, copy) → owned (heap st) copy st'.
Proof.
  unfold gen_multiple_prologue. unfold mbind, M_bind.
  pose proof (evolves_binding_same_heap _ _
                (experiment_setter_evolves_binding experiments experiment st)) as H1.
  destruct (experiment_setter _ _ _) as [[[] | ?] st1]; simpl in H1.
  2:{ intros [= <- <-]. rewrite H1. by split. }
  pose proof (maybe_move_same_heap collab experiments true st1) as H2.
  destruct (_maybe_move_to_next_step _ _ _ _) as [[? | ?] st2]; simpl in H2.
  2:{ intros [= <- <-]. rewrite H2, H1. by split. }
  pose proof (evolves_same_heap _ _ (fit_or_update_evolves collab experiments data st2))
    as H3.
  destruct (_fit_or_update_current_model _ _ _ _) as [[[] | ?] st3]; simpl in H3.
  2:{ intros [= <- <-]. rewrite H3, H2, H1. by split. }
  pose proof (evolves_same_heap _ _ (current_step_evolves st3)) as H4.
  destruct (current_step st3) as [[curr | ?] st4]; simpl in H4.
  2:{ intros [= <- <-]. rewrite H4, H3, H2, H1. by split. }
  assert (heap st4 = heap st) as Hsame by congruence.
  unfold get, lift.
  destruct (num_remaining_trials_until_max_parallelism _ _ _) as [until | ?].
  2:{ intros [= <- <-]. rewrite Hsame. by split. }
  destruct (enforce_num_trials curr && (num_trials curr >? 0)).
  - pose proof (evolves_same_heap _ _ (self_experiment_evolves experiments st4)) as H5.
    destruct (self_experiment experiments st4) as [[e | ?] st5]; simpl in H5.
    2:{ intros [= <- <-]. rewrite H5, Hsame. by split. }
    unfold mret, M_ret.
    destruct (deepcopy_or_empty pending st5) as [[copy | ?] st6] eqn:E;
      intros [= <- <-];
      destruct (deepcopy_or_empty_spec _ _ _ _ E) as [Hext Hown];
      rewrite H5, Hsame in Hext; (split; [done |]).
    + intros turns copy' [= <- <-]. specialize (Hown copy eq_refl).
      by rewrite H5, Hsame in Hown.
    + done.
  - unfold mret, M_ret.
    destruct (deepcopy_or_empty pending st4) as [[copy | ?] st6] eqn:E;
      intros [= <- <-];
      destruct (deepcopy_or_empty_spec _ _ _ _ E) as [Hext Hown];
      rewrite Hsame in Hext; (split; [done |]).
    + intros turns copy' [= <- <-]. specialize (Hown copy eq_refl).
      by rewrite Hsame in Hown.
    + done.
Qed.

End callers_pending.

(** C10. Whether [_gen_multiple] returns or raises, every dictionary and
    every list that was in the store before the call is in it after, with
    the entries it had: the dictionary the caller passed, and the lists in
    it, are as they were, and so are its contents. *)
Theorem callers_pending_untouched (collab : Collaborators)
    (experiments : nat → Experiment) (experiment : nat) (num_generator_runs : Z)
    (data : option Data) (n : Z) (pending_observations : option nat)
    (model_gen_kwargs : Kwargs) (st : St) :
  let after :=
    (_gen_multiple collab experiments experiment num_generator_runs data n
       pending_observations model_gen_kwargs st).2 in
  (∀ p d, dicts (heap st) !! p = Some d → dicts (heap after) !! p = Some d)
  ∧ (∀ l rows, lists (heap st) !! l = Some rows → lists (heap after) !! l = Some rows)
  ∧ (∀ p d, dicts (heap st) !! p = Some d →
            (∀ k l, d !! k = Some l → is_Some (lists (heap st) !! l)) →
            contents (heap after) p = contents (heap st) p).
Proof.
  intros after.
  assert (heap_extends (heap st) (heap after)) as [Hd Hl].
  { unfold after. rewrite gen_multiple_split.
    destruct (gen_multiple_prologue _ _ _ _ _ _ _) as [[[turns copy] | e] st'] eqn:E;
      destruct (prologue_spec _ _ _ _ _ _ _ _ _ E) as [Hext Hown]; [| done].
    specialize (Hown turns copy eq_refl).
    by destruct (gen_loop_keeps collab experiments (heap st) copy (Z.to_nat turns)
                   experiment n model_gen_kwargs [] st' Hown). }
  split; [| split].
  - intros p d. apply (map_subseteq_spec (M := gmap nat)). exact Hd.
  - intros l rows. apply (map_subseteq_spec (M := gmap nat)). exact Hl.
  - intros p d Hp Hall. unfold contents.
    rewrite Hp, (proj1 (map_subseteq_spec (M := gmap nat) _ _) Hd p d Hp).
    f_equal. apply map_eq. intros k. rewrite !lookup_omap.
    destruct (d !! k) as [l |] eqn:Hk; simpl; [| done].
    destruct (Hall k l Hk) as [rows Hrows].
    by rewrite Hrows, (proj1 (map_subseteq_spec (M := gmap nat) _ _) Hl l rows Hrows).
Qed.

(** ** The theorems at concrete inputs *)

(** The counts of C3: an unlimited step, and the step of the boundary with
    three trials generated and one completed. *)
Lemma num_trials_to_gen_and_complete_spec_witness :
  num_trials_to_gen_and_complete (set_index 0 (make_step (-1) 0 None false false)) None
  = Ok (-1, -1)
  ∧ num_trials_to_gen_and_complete boundary_step (Some boundary_experiment) = Ok (0, 1).
Proof.
  split.
  - apply (proj1 (num_trials_to_gen_and_complete_spec
                    (set_index 0 (make_step (-1) 0 None false false)))).
    reflexivity.
  - rewrite (proj2 (num_trials_to_gen_and_complete_spec boundary_step))
      by (vm_compute; discriminate).
    vm_compute. reflexivity.
Defined.

(** The cap of C6 on two running trials, and after the first of them
    completed. *)
Lemma num_remaining_trials_until_max_parallelism_spec_witness :
  num_remaining_trials_until_max_parallelism capped_step (Some two_running) true
  = Raise (MaxParallelismReachedException 0 "Sobol" 2)
  ∧ num_remaining_trials_until_max_parallelism capped_step
      (Some (set_trial_status 0 COMPLETED two_running)) true
    = Ok (Some 1).
Proof.
  apply (proj2 (num_remaining_trials_until_max_parallelism_spec capped_step two_running true)
           0 (trial_of 0 RUNNING)); vm_compute; reflexivity.
Defined.

(** The check of C1 at the boundary: budget exhausted, one of two trials to
    observe completed. *)
Lemma data_required_iff_witness :
  ∃ to_gen to_complete,
    num_trials_to_gen_and_complete boundary_step (Some boundary_experiment)
    = Ok (to_gen, to_complete)
    ∧ ((_maybe_move_to_next_step quiet_collaborators (λ _, boundary_experiment) true
          boundary_state).1 = Raise DataRequiredError
       ↔ to_gen = 0 ∧ to_complete > 0 ∧ enforce_num_trials boundary_step = true)
    ∧ (_maybe_move_to_next_step quiet_collaborators (λ _, boundary_experiment) false
         boundary_state).1 ≠ Raise DataRequiredError
    ∧ (to_gen = 0 ∧ to_complete > 0 ∧ enforce_num_trials boundary_step = true →
       _maybe_move_to_next_step quiet_collaborators (λ _, boundary_experiment) false
         boundary_state = (Ok false, boundary_state)).
Proof.
  apply (data_required_iff quiet_collaborators (λ _, boundary_experiment)
           boundary_state boundary_step 0%nat).
  - reflexivity.
  - reflexivity.
  - vm_compute. discriminate.
Defined.

(** The clone of C9 of a strategy of one Sobol step. *)
Lemma clone_reset_spec_witness :
  ∃ clone first,
    clone_reset (no_calls_no_heap sobol_strategy)
    = (Ok clone, {| gs := name_read sobol_strategy; calls := [];
                    heap := {| dicts := ∅; lists := ∅ |} |})
    ∧ _steps clone = _steps sobol_strategy
    ∧ _generator_runs clone = []
    ∧ _steps clone !! _curr clone = Some first
    ∧ index first = 0.
Proof.
  destruct (clone_reset_spec (no_calls_no_heap sobol_strategy))
    as (clone & first & H1 & H2 & H3 & _ & _ & _ & H4 & _ & H5 & _).
  - unfold constructed. repeat split; try done.
    + intros [| i] step; [intros [= <-]; done | done].
    + simpl. lia.
  - exists clone, first. repeat split; assumption.
Defined.

(** The sequence of C4 on a strategy of two steps: a probe before any
    experiment is bound, then two calls of [gen], the first of which moves to
    the second step. *)
Lemma constructed_two_steps : constructed (gs two_steps).
Proof.
  unfold constructed. split; [done | split; [reflexivity | split]].
  - intros [| [| i]] step; [intros [= <-]; reflexivity
                           | intros [= <-]; reflexivity | done].
  - simpl. lia.
Defined.


(** The batch of C5 on a model that has data for one run, and on a model that
    has data for none. *)
Lemma data_required_first_raised_later_swallowed_witness :
  (_gen_multiple (needs_data_after 1) (λ _, empty_experiment) 0 3 None 1 None ∅
     five_shot).1
  = Ok [set_gr_generation_step_index (Some 0) (single_arm_run unique_arm)]
  ∧ (_gen_multiple (needs_data_after 0) (λ _, empty_experiment) 0 3 None 1 None ∅
       five_shot).1
    = Raise DataRequiredError.
Proof.
  split.
  - assert (∃ turns copy st0 st1 st2,
              gen_multiple_prologue (needs_data_after 1) (λ _, empty_experiment)
                0 3 None None five_shot = (Ok (turns, copy), st0)
              ∧ (1 < Z.to_nat turns)%nat
              ∧ step_gen (needs_data_after 1) (Some 1) copy
                  (Some (arms_by_signature empty_experiment)) ∅ st0
                = (Ok (set_gr_generation_step_index (Some 0)
                         (single_arm_run unique_arm)), st1)
              ∧ keep_run (λ _, empty_experiment) 0 copy
                  (set_gr_generation_step_index (Some 0) (single_arm_run unique_arm))
                  st1
                = (Ok tt, st2)
              ∧ (step_gen (needs_data_after 1) (Some 1) copy
                   (Some (arms_by_signature empty_experiment)) ∅ st2).1
                = Raise DataRequiredError)
      as (turns & copy & st0 & st1 & st2 & Hpro & Hturns & Hdraw & Hkeep & Hraise).
    { eexists _, _, _, _, _.
      split; [vm_compute; reflexivity |]. split; [vm_compute; lia |].
      split; [vm_compute; reflexivity |]. split; [vm_compute; reflexivity |].
      vm_compute. reflexivity. }
    destruct (data_required_first_raised_later_swallowed
                (needs_data_after 1) (λ _, empty_experiment) 0 3 None 1 None ∅
                five_shot turns copy st0 1%nat _ st2 Hpro
                (produces_one_more _ _ _ _ _ _ 0%nat st0 [] st0 _ st1 st2
                   (produces_none _ _ _ _ _ _ st0) Hdraw Hkeep)
                Hturns Hraise) as [_ Heq].
    rewrite Heq. reflexivity.
  - assert (∃ turns copy st0,
              gen_multiple_prologue (needs_data_after 0) (λ _, empty_experiment)
                0 3 None None five_shot = (Ok (turns, copy), st0)
              ∧ (0 < Z.to_nat turns)%nat
              ∧ (step_gen (needs_data_after 0) (Some 1) copy
                   (Some (arms_by_signature empty_experiment)) ∅ st0).1
                = Raise DataRequiredError)
      as (turns & copy & st0 & Hpro & Hturns & Hraise).
    { eexists _, _, _.
      split; [vm_compute; reflexivity |]. split; [vm_compute; lia |].
      vm_compute. reflexivity. }
    destruct (data_required_first_raised_later_swallowed
                (needs_data_after 0) (λ _, empty_experiment) 0 3 None 1 None ∅
                five_shot turns copy st0 0%nat [] st0 Hpro
                (produces_none _ _ _ _ _ _ st0) Hturns Hraise) as [_ Heq].
    rewrite Heq. reflexivity.
Defined.

(** The cycle of C7 after a fit on trials 0 and 1 and the completion of trial
    2, with data attached: one update, with the row of trial 2. *)
Lemma update_with_new_data_only_witness :
  calls (_fit_or_update_current_model quiet_collaborators
           (λ _, three_completed [row_of 0; row_of 1; row_of 2]) None updating).2
  = calls updating ++ [CallUpdate 0 [row_of 2]].
Proof.
  pose proof (update_with_new_data_only quiet_collaborators
                (λ _, three_completed [row_of 0; row_of 1; row_of 2]) updating
                (set_index 0 (make_step 5 0 None true false)) 0%nat 0%nat None
                eq_refl eq_refl eq_refl eq_refl) as [Hcalls _].
  rewrite Hcalls. vm_compute. reflexivity.
Defined.

(** The batch of C10 on a caller's dictionary with one list: two runs are
    generated and the dictionary reads as before. *)
Lemma callers_pending_untouched_witness :
  contents
    (heap (_gen_multiple (needs_data_after 5) (λ _, one_metric_experiment) 0 2 None 1
             (Some 7%nat) ∅ five_shot_with_pending).2) 7
  = contents callers_heap 7.
Proof.
  apply (proj2 (proj2 (callers_pending_untouched (needs_data_after 5)
                         (λ _, one_metric_experiment) 0 2 None 1 (Some 7%nat) ∅
                         five_shot_with_pending))
           7%nat {[ "m" := 3%nat ]}).
  - reflexivity.
  - intros k l H. apply lookup_singleton_Some in H as [<- <-]. vm_compute. eauto.
Defined.

(** * Further properties of the code *)

(** ** The trial counts of a step *)

Lemma step_trials_where_dom (self : GenerationStep) P e :
  step_trials_where self P e = size (dom (filter (own self P) (trials e))).
Proof. unfold step_trials_where. by rewrite size_dom. Qed.

(** X1. The counts a step keeps of its trials are consistent: the trials
    counted as completed (COMPLETED or EARLY_STOPPED) and those counted as
    running are different trials, all of them among the trials that can
    complete, and these are among the trials of the step. *)
Theorem completed_and_running_can_complete (self : GenerationStep) (e : Experiment) :
  0 ≤ _num_completed self e
  ∧ 0 ≤ num_running_trials self e
  ∧ _num_completed self e + num_running_trials self e ≤ num_can_complete self e
  ∧ num_can_complete self e ≤ Z.of_nat (size (trial_indices self e (index self))).
Proof.
  split; [unfold _num_completed; lia |].
  split; [rewrite num_running_trials_counts; lia |].
  split.
  - rewrite num_completed_counts, num_running_trials_counts, num_can_complete_counts.
    rewrite !step_trials_where_dom, <- Nat2Z.inj_add. apply inj_le.
    rewrite <- size_union.
    + apply subseteq_size. intros i. rewrite elem_of_union, !elem_of_dom_filter.
      unfold own. simpl.
      intros [(t & Ht & Hs & HP) | (t & Ht & Hs & HP)]; exists t;
        (split; [done | split; [done |]]);
        destruct (status t); done.
    + intros i. rewrite !elem_of_dom_filter. unfold own. simpl.
      intros (t & Ht & _ & HP) (t' & Ht' & _ & HP'). simplify_eq.
      destruct (status t); done.
  - unfold num_can_complete. lia.
Qed.

(** ** The draws of [GenerationNode.gen] *)

#[global] Instance quiet_pick_preorder : PreOrder quiet_pick.
Proof.
  split.
  - by intros st.
  - intros s1 s2 s3 (? & ? & ?) (? & ? & ?). repeat split; congruence.
Qed.

Lemma gen_calls_snoc l c :
  gen_calls (l ++ [c]) = (gen_calls l + if is_gen_call c then 1 else 0)%nat.
Proof.
  unfold gen_calls. rewrite filter_app, length_app.
  destruct (is_gen_call c) eqn:Hc.
  - by rewrite filter_cons_True.
  - rewrite filter_cons_False by (by rewrite Hc). done.
Qed.

Lemma record_call_quiet c : is_gen_call c = false → preserves quiet_pick (record_call c).
Proof.
  intros Hc st. repeat split; simpl; try done.
  rewrite gen_calls_snoc, Hc. lia.
Qed.

Lemma cross_validate_all_quiet collab specs :
  preserves quiet_pick (cross_validate_all collab specs).
Proof.
  induction specs as [| spec rest IH]; simpl; [preserves_auto |].
  unfold model_spec_cross_validate.
  pose proof (λ f, record_call_quiet (CallCrossValidate f) eq_refl).
  preserves_auto.
Qed.

Lemma model_spec_to_gen_from_quiet collab :
  preserves quiet_pick (model_spec_to_gen_from collab).
Proof.
  unfold model_spec_to_gen_from, _pick_fitted_model_to_gen_from.
  pose proof (cross_validate_all_quiet collab).
  pose proof (λ s f, record_call_quiet (CallBestDiagnostic s f) eq_refl).
  preserves_auto.
  all: try (case_bool_decide; preserves_auto).
  all: by intros st.
Qed.

(** The draws of the loop, counted. *)
Lemma gen_draws_calls collab pos n pending max_draws arms kwargs fuel :
  ∀ n_gen_draws st,
    let st' := (gen_draws collab fuel pos n pending max_draws arms kwargs
                  n_gen_draws st).2 in
    (gen_calls (nlog st')
     ≤ gen_calls (nlog st)
       + (if should_deduplicate (nd st) && truthy arms
          then S (Z.to_nat (max_draws - n_gen_draws)) else 1))%nat.
Proof.
  induction fuel as [| fuel IH]; intros n_gen_draws st; simpl; [lia |].
  unfold mbind, M_bind, get, from_option.
  destruct (model_specs (nd st) !! pos) as [model_spec |]; simpl; [| lia].
  unfold model_spec_gen, mbind, M_bind, from_option.
  destruct (_fitted_model model_spec) as [fitted |]; simpl; [| lia].
  unfold lift. set (c := CallGen _ _ _ _).
  destruct (model_gen collab _) as [gr | e]; simpl.
  2:{ rewrite gen_calls_snoc. simpl. destruct (should_deduplicate (nd st) && truthy arms); simpl; lia. }
  destruct (should_deduplicate (nd st) && truthy arms) eqn:Hon; simpl.
  2:{ rewrite gen_calls_snoc. simpl. lia. }
  destruct (has_duplicate_arm _ gr); simpl.
  2:{ rewrite gen_calls_snoc. simpl. lia. }
  destruct (n_gen_draws + 1 >? max_draws) eqn:Hgt; simpl.
  { rewrite gen_calls_snoc. simpl. lia. }
  specialize (IH (n_gen_draws + 1) {| nd := nd st; nlog := nlog st ++ [c] |}).
  simpl in IH. rewrite Hon in IH. rewrite gen_calls_snoc in IH. simpl in IH. lia.
Qed.

(** X2. [GenerationNode.gen] asks the model for at most
    [max_gen_draws_for_deduplication] + 1 generator runs (one, if the maximum
    is negative), and for one only when deduplication is off or there are no
    arms to deduplicate against, whatever the model answers. *)
Theorem gen_draws_at_most (collab : Collaborators) (n : option Z)
    (pending_observations : option Pending) (max_gen_draws_for_deduplication : Z)
    (arms_by_signature_for_deduplication : option (gmap string Arm))
    (model_gen_kwargs : Kwargs) (st : NodeSt) :
  let st' := (node_gen collab n pending_observations max_gen_draws_for_deduplication
                arms_by_signature_for_deduplication model_gen_kwargs st).2 in
  (gen_calls (nlog st')
   ≤ gen_calls (nlog st)
     + (if should_deduplicate (nd st) && truthy arms_by_signature_for_deduplication
        then S (Z.to_nat max_gen_draws_for_deduplication) else 1))%nat.
Proof.
  unfold node_gen, mbind, M_bind.
  pose proof (model_spec_to_gen_from_quiet collab st) as (Hcalls & Hdedup & _).
  destruct (model_spec_to_gen_from collab st) as [[pos | e] st1]; simpl in *.
  - pose proof (gen_draws_calls collab pos n pending_observations
                  max_gen_draws_for_deduplication
                  arms_by_signature_for_deduplication model_gen_kwargs
                  (draws_bound max_gen_draws_for_deduplication) 0 st1) as H.
    simpl in H. rewrite Hcalls, Hdedup, Z.sub_0_r in H. exact H.
  - rewrite Hcalls. destruct (_ && _); simpl; lia.
Qed.

(** X3. The model spec to generate from is chosen once: after an access of
    [model_spec_to_gen_from] that succeeded the choice is kept on the node,
    and the next access returns it again without one more call to a model
    (no cross-validation, no diagnostic). *)
Theorem model_spec_to_gen_from_kept (collab : Collaborators) (st st' : NodeSt)
    (pos : nat) :
  model_spec_to_gen_from collab st = (Ok pos, st') →
  _model_spec_to_gen_from (nd st') = Some pos
  ∧ model_spec_to_gen_from collab st' = (Ok pos, st').
Proof.
  unfold model_spec_to_gen_from at 1. unfold mbind at 1. unfold M_bind at 1.
  unfold get at 1.
  destruct (_model_spec_to_gen_from (nd st)) as [p |] eqn:Hcache.
  - intros [= <- <-]. split; [done |].
    unfold model_spec_to_gen_from, mbind, M_bind, get. by rewrite Hcache.
  - unfold mbind, M_bind.
    destruct (_pick_fitted_model_to_gen_from collab st) as [[p | e] st1]; [| done].
    intros [= <- <-]. split; [done |].
    unfold model_spec_to_gen_from, mbind, M_bind, get. done.
Qed.

(** ** The trials of the steps *)

(** X19. [GenerationStep.trial_indices] maps the index of a step, up to the
    step's own, to the trials of the experiment that carry that index, and a
    trial is among those of one step only: the sets of two different steps
    have no trial in common. *)
Theorem trial_indices_disjoint (self : GenerationStep) (e : Experiment)
    (step step' : Z) :
  (∀ i, i ∈ trial_indices self e step
        ↔ ∃ trial, trials e !! i = Some trial
                   ∧ _generation_step_index trial = Some step
                   ∧ step ≤ index self)
  ∧ (step ≠ step' → trial_indices self e step ## trial_indices self e step').
Proof.
  assert (∀ s i, i ∈ trial_indices self e s
                 ↔ ∃ trial, trials e !! i = Some trial
                            ∧ _generation_step_index trial = Some s
                            ∧ s ≤ index self) as Hin.
  { intros s i. unfold trial_indices. case_bool_decide as Hle.
    - rewrite elem_of_dom_filter. simpl. split.
      + intros (trial & ? & ?). eauto.
      + intros (trial & ? & ? & _). eauto.
    - split; [set_solver |]. intros (? & _ & _ & ?). lia. }
  split; [apply Hin |].
  intros Hne i Hi Hi'. apply Hin in Hi as (trial & Ht & Hs & _).
  apply Hin in Hi' as (trial' & Ht' & Hs' & _). congruence.
Qed.

(** ** What deduplication guarantees *)

Lemma has_duplicate_arm_false (seen : gmap string Arm) (gr : GeneratorRun) :
  has_duplicate_arm seen gr = false →
  ∀ arm, arm ∈ arms gr → signature arm ∉ dom seen.
Proof.
  unfold has_duplicate_arm. intros H arm Harm Hin.
  assert (existsb (λ a, bool_decide (signature a ∈ dom seen)) (arms gr) = true) as Ht.
  { apply existsb_exists. exists arm. split; [by apply list_elem_of_In |].
    by apply bool_decide_eq_true. }
  congruence.
Qed.

(** The run the loop returns has no arm among those to deduplicate against. *)
Lemma gen_draws_deduplicated collab pos n pending max_draws known kwargs fuel :
  ∀ n_gen_draws st gr st',
    should_deduplicate (nd st) = true →
    gen_draws collab fuel pos n pending max_draws known kwargs n_gen_draws st
    = (Ok gr, st') →
    has_duplicate_arm (default ∅ known) gr = false.
Proof.
  induction fuel as [| fuel IH]; intros n_gen_draws st gr st' Hdedup; simpl; [done |].
  unfold mbind, M_bind, get, from_option.
  destruct (model_specs (nd st) !! pos) as [model_spec |]; simpl; [| done].
  unfold model_spec_gen, mbind, M_bind, from_option.
  destruct (_fitted_model model_spec) as [fitted |]; simpl; [| done].
  unfold lift. destruct (model_gen collab _) as [gr0 | e]; simpl; [| done].
  rewrite Hdedup. simpl.
  destruct (truthy known) eqn:Htruthy; simpl.
  - destruct (has_duplicate_arm (default ∅ known) gr0) eqn:Hdup; simpl.
    + destruct (n_gen_draws + 1 >? max_draws); simpl; [done |].
      apply IH. done.
    + by intros [= <- <-].
  - intros [= <- <-]. unfold truthy in Htruthy.
    destruct known as [seen |]; simpl.
    + apply negb_false_iff, bool_decide_eq_true in Htruthy. subst seen.
      unfold has_duplicate_arm. induction (arms gr0) as [| a l IHl]; [done |].
      simpl. rewrite bool_decide_false by set_solver. done.
    + unfold has_duplicate_arm. induction (arms gr0) as [| a l IHl]; [done |].
      simpl. rewrite bool_decide_false by set_solver. done.
Qed.

Lemma node_gen_no_duplicate collab n pending max_draws known kwargs st gr st' :
  should_deduplicate (nd st) = true →
  node_gen collab n pending max_draws known kwargs st = (Ok gr, st') →
  has_duplicate_arm (default ∅ known) gr = false.
Proof.
  intros Hdedup. unfold node_gen. unfold mbind at 1. unfold M_bind at 1.
  pose proof (model_spec_to_gen_from_quiet collab st) as (_ & Hd & _).
  destruct (model_spec_to_gen_from collab st) as [[pos | e] st1]; [| done].
  simpl in Hd. intros H.
  apply gen_draws_deduplicated in H; [done | congruence].
Qed.

(** X20. With deduplication on, a generator run that [GenerationNode.gen]
    returns has no arm whose signature is among the arms to deduplicate
    against. *)
Theorem gen_returns_new_arms (collab : Collaborators) (n : option Z)
    (pending_observations : option Pending) (max_gen_draws_for_deduplication : Z)
    (arms_by_signature_for_deduplication : option (gmap string Arm))
    (model_gen_kwargs : Kwargs) (st st' : NodeSt) (generator_run : GeneratorRun) :
  should_deduplicate (nd st) = true →
  node_gen collab n pending_observations max_gen_draws_for_deduplication
    arms_by_signature_for_deduplication model_gen_kwargs st
  = (Ok generator_run, st') →
  ∀ arm, arm ∈ arms generator_run →
         signature arm ∉ dom (default ∅ arms_by_signature_for_deduplication).
Proof.
  intros Hdedup H. apply has_duplicate_arm_false.
  by apply (node_gen_no_duplicate collab n pending_observations
              max_gen_draws_for_deduplication arms_by_signature_for_deduplication
              model_gen_kwargs st generator_run st').
Qed.

(** ** What the methods of the strategy write *)

(** A relation between states that is kept by what the methods write is kept
    by the methods: the lemmas below are proved once, for any relation that
    the writes named in the hypotheses keep. *)
Section reads.
Variable experiments : nat → Experiment.
Variable R : St → St → Prop.
Context `{!PreOrder R}.

Lemma self_experiment_keeps : preserves R (self_experiment experiments).
Proof. unfold self_experiment. preserves_auto. Qed.

Lemma current_step_keeps : preserves R current_step.
Proof. unfold current_step. preserves_auto. Qed.

Lemma curr_model_spec_keeps : preserves R curr_model_spec.
Proof. unfold curr_model_spec. pose proof current_step_keeps. preserves_auto. Qed.

Lemma find_trials_keeps : preserves R (_find_trials_completed_since_last_gen experiments).
Proof.
  unfold _find_trials_completed_since_last_gen.
  pose proof self_experiment_keeps. preserves_auto.
Qed.

Lemma get_data_for_update_keeps data :
  preserves R (_get_data_for_update experiments data).
Proof.
  unfold _get_data_for_update.
  pose proof self_experiment_keeps. pose proof find_trials_keeps. preserves_auto.
Qed.

End reads.

(** The fit of the current model, for a relation that every write to the
    current node keeps, and the write of [_model]. *)
Section node_writes.
Variable collab : Collaborators.
Variable experiments : nat → Experiment.
Variable R : St → St → Prop.
Context `{!PreOrder R}.
Hypothesis R_node : ∀ A (m : M NodeSt A), preserves R (on_current_node m).
Hypothesis R_model : ∀ o, preserves R (modify_gs (set_model o)).

Lemma fit_current_model_keeps data :
  preserves R (_fit_current_model collab experiments data).
Proof.
  unfold _fit_current_model.
  pose proof (current_step_keeps R). pose proof (curr_model_spec_keeps R).
  pose proof (self_experiment_keeps experiments R).
  preserves_auto.
  all: destruct (_ && _); preserves_auto.
  all: destruct (_ || _); preserves_auto.
Qed.

End node_writes.

(** The writes of a cycle of fitting and generation: the fit of the current
    model, the generation on the current node, the calls made to the fitted
    model and the trials seen. *)
Section footprint.
Variable collab : Collaborators.
Variable experiments : nat → Experiment.
Variable R : St → St → Prop.
Context `{!PreOrder R}.
Hypothesis R_fit : ∀ data, preserves R (_fit_current_model collab experiments data).
Hypothesis R_gen : ∀ n pending max_draws arms kwargs,
  preserves R (on_current_node (node_gen collab n pending max_draws arms kwargs)).
Hypothesis R_record : ∀ c, preserves R (record c).
Hypothesis R_seen : ∀ o, preserves R (modify_gs (set_seen o)).

Lemma update_current_model_keeps new_data :
  preserves R (_update_current_model collab experiments new_data).
Proof.
  unfold _update_current_model. pose proof (self_experiment_keeps experiments R).
  preserves_auto.
Qed.

Lemma save_seen_keeps : preserves R (_save_seen_trial_indices experiments).
Proof.
  unfold _save_seen_trial_indices. pose proof (self_experiment_keeps experiments R).
  preserves_auto.
Qed.

Lemma fit_or_update_keeps data :
  preserves R (_fit_or_update_current_model collab experiments data).
Proof.
  unfold _fit_or_update_current_model.
  pose proof (current_step_keeps R). pose proof save_seen_keeps.
  pose proof (get_data_for_update_keeps experiments R).
  pose proof update_current_model_keeps.
  preserves_auto.
Qed.

Lemma step_gen_keeps n pending seen kwargs :
  preserves R (step_gen collab n pending seen kwargs).
Proof. unfold step_gen. pose proof (current_step_keeps R). preserves_auto. Qed.

(** The store of pending observations is no part of the strategy. *)
Hypothesis R_store : ∀ st st', same_gs st st' → R st st'.

Lemma deepcopy_or_empty_keeps p : preserves R (deepcopy_or_empty p).
Proof. intros st. apply R_store, deepcopy_or_empty_same_gs. Qed.

Lemma extend_pending_observations_keeps e p gr :
  preserves R (extend_pending_observations e p gr).
Proof. intros st. apply R_store, extend_pending_observations_same_gs. Qed.

(** What follows the check of the transition in [_gen_multiple], up to the
    loop. *)
Lemma limits_and_copy_keeps num data pending :
  preserves R (limits_and_copy collab experiments num data pending).
Proof.
  unfold limits_and_copy.
  pose proof fit_or_update_keeps. pose proof (current_step_keeps R).
  pose proof (self_experiment_keeps experiments R).
  pose proof deepcopy_or_empty_keeps.
  preserves_auto.
  all: cbv zeta; destruct (_ && _); preserves_auto.
Qed.

(** The loop, for a relation that the keeping of a generator run keeps. *)
Hypothesis R_runs : ∀ f, preserves R (modify_gs (λ self, set_generator_runs (f self) self)).

Lemma gen_loop_keeps_relation remaining : ∀ experiment n pending kwargs runs,
  preserves R (gen_loop collab experiments remaining experiment n pending kwargs runs).
Proof.
  induction remaining as [| remaining IH]; intros; simpl; [preserves_auto |].
  pose proof step_gen_keeps. pose proof extend_pending_observations_keeps.
  pose proof (λ gr, R_runs (λ self, _generator_runs self ++ [gr])).
  preserves_auto.
Qed.

End footprint.

(** The hypotheses on the writes, from what a relation has of the writes to
    the current node and to the store. *)
Ltac keeps_by node store :=
  first [ apply _
        | done
        | intros; apply fit_current_model_keeps; first [apply _ | apply node | done]
        | intros; apply node
        | apply store ].

(** The state a sequence leaves is the state its second part leaves, or the
    state in which its first part raised. *)
Lemma bind_state {S A B} (m : M S A) (k : A → M S B) (st : S) :
  ((m ≫= k) st).2
  = match (m st).1 with
    | Ok a => (k a (m st).2).2
    | Raise _ => (m st).2
    end.
Proof. unfold mbind, M_bind. by destruct (m st) as [[a | e] st']. Qed.

(** ** The step the strategy stands on *)

#[global] Instance same_curr_preorder : PreOrder same_curr.
Proof. split; unfold same_curr; [by intros st | intros s1 s2 s3; congruence]. Qed.

#[global] Instance same_runs_preorder : PreOrder same_runs.
Proof. split; unfold same_runs; [by intros st | intros s1 s2 s3; congruence]. Qed.

Lemma on_current_node_same_curr {A} (m : M NodeSt A) :
  preserves same_curr (on_current_node m).
Proof.
  intros st. unfold on_current_node.
  destruct (_steps (gs st) !! _curr (gs st)); [| done]. by destruct (m _).
Qed.

Lemma on_current_node_same_runs {A} (m : M NodeSt A) :
  preserves same_runs (on_current_node m).
Proof.
  intros st. unfold on_current_node.
  destruct (_steps (gs st) !! _curr (gs st)); [| done]. by destruct (m _).
Qed.

Lemma same_gs_same_curr st st' : same_gs st st' → same_curr st st'.
Proof. intros [H _]. unfold same_curr. by rewrite H. Qed.

Lemma same_gs_same_runs st st' : same_gs st st' → same_runs st st'.
Proof. intros [H _]. unfold same_runs. by rewrite H. Qed.

Section one_step.
Variable collab : Collaborators.
Variable experiments : nat → Experiment.

Lemma maybe_move_one_step flag st :
  constructed (gs st) →
  let st' := (_maybe_move_to_next_step collab experiments flag st).2 in
  _curr (gs st') = _curr (gs st) ∨ _curr (gs st') = S (_curr (gs st)).
Proof.
  intros Hc.
  destruct (maybe_move_outcome collab experiments flag st)
    as [-> | (curr & pos & next & Hcurr & Hpos & ->)]; [by left |].
  right. simpl. destruct Hc as (_ & _ & Hidx & _).
  rewrite (Hidx _ _ Hcurr) in Hpos.
  apply py_index_nonneg in Hpos; lia.
Qed.

(** [_gen_multiple], stage by stage. *)
Lemma gen_multiple_stages experiment num data n pending kwargs st :
  _gen_multiple collab experiments experiment num data n pending kwargs st
  = (experiment_setter experiments experiment;;
     _maybe_move_to_next_step collab experiments true;;
     '(turns, copy) ← limits_and_copy collab experiments num data pending;
     gen_loop collab experiments (Z.to_nat turns) experiment n copy kwargs []) st.
Proof.
  rewrite gen_multiple_split.
  unfold gen_multiple_prologue, limits_and_copy, mbind, M_bind.
  destruct (experiment_setter _ _ _) as [[[] | ?] st1]; [| done].
  destruct (_maybe_move_to_next_step _ _ _ _) as [[? | ?] st2]; [| done].
  destruct (_fit_or_update_current_model _ _ _ _) as [[[] | ?] st3]; [| done].
  destruct (current_step st3) as [[curr | ?] st4]; [| done].
  unfold get, lift.
  destruct (num_remaining_trials_until_max_parallelism _ _ _); [| done].
  cbv zeta. destruct (enforce_num_trials curr && _).
  - destruct (self_experiment experiments st4) as [[e | ?] st5]; [| done].
    unfold mret, M_ret. by destruct (deepcopy_or_empty pending st5) as [[? | ?] ?].
  - unfold mret, M_ret. by destruct (deepcopy_or_empty pending st4) as [[? | ?] ?].
Qed.

Lemma prologue_stages experiment num data pending :
  gen_multiple_prologue collab experiments experiment num data pending
  = (experiment_setter experiments experiment;;
     _maybe_move_to_next_step collab experiments true;;
     limits_and_copy collab experiments num data pending).
Proof. done. Qed.

Lemma after_move_same_curr experiment data num n pending kwargs :
  preserves same_curr
    ('(turns, copy) ← limits_and_copy collab experiments num data pending;
     gen_loop collab experiments (Z.to_nat turns) experiment n copy kwargs []).
Proof.
  apply preserves_bind; [apply _ | | intros [turns copy]].
  - apply limits_and_copy_keeps; keeps_by (@on_current_node_same_curr) same_gs_same_curr.
  - apply gen_loop_keeps_relation; keeps_by (@on_current_node_same_curr) same_gs_same_curr.
Qed.

Lemma gen_multiple_one_step experiment num data n pending kwargs st :
  constructed (gs st) →
  let st' := (_gen_multiple collab experiments experiment num data n pending
                kwargs st).2 in
  _curr (gs st') = _curr (gs st) ∨ _curr (gs st') = S (_curr (gs st)).
Proof.
  intros Hc. cbv zeta. rewrite gen_multiple_stages, bind_state.
  pose proof (experiment_setter_evolves_binding experiments experiment st) as Hb.
  pose proof (evolves_binding_advances _ _ Hb Hc) as (_ & _ & Hc1).
  destruct Hb as (_ & Hcurr1 & _).
  destruct (experiment_setter experiments experiment st) as [[[] | ?] st1];
    simpl in Hcurr1, Hc1; simpl; [| by left].
  rewrite bind_state.
  pose proof (maybe_move_one_step true st1 Hc1) as Hmove. cbv zeta in Hmove.
  destruct (_maybe_move_to_next_step collab experiments true st1) as [[? | ?] st2];
    simpl in Hmove; simpl; [| by rewrite <- Hcurr1].
  pose proof (after_move_same_curr experiment data num n pending kwargs st2) as Hrest.
  unfold same_curr in Hrest. rewrite Hrest. by rewrite <- Hcurr1.
Qed.

End one_step.

(** X4. One call moves the strategy by one step at most: after [gen],
    [_gen_multiple] or [current_generator_run_limit] on a strategy as the
    constructor leaves it or as such calls left it, whether the call returned
    or raised, the strategy stands on the step it stood on or on the next. *)
Theorem one_call_at_most_one_step (collab : Collaborators)
    (experiments : nat → Experiment) (a : Attempt) (st : St) :
  constructed (gs st) →
  let st' := attempt collab experiments a st in
  _curr (gs st') = _curr (gs st) ∨ _curr (gs st') = S (_curr (gs st)).
Proof.
  intros Hc. destruct a as [experiment data n pending kwargs
                           | experiment num data n pending kwargs |]; simpl.
  - unfold gen. rewrite bind_state.
    pose proof (gen_multiple_one_step collab experiments experiment 1 data n
                  pending kwargs st Hc) as H. cbv zeta in H.
    destruct (_gen_multiple _ _ _ _ _ _ _ _ _) as [[runs | ?] st1]; simpl in *;
      [| done].
    unfold mbind, M_bind, lift. by destruct (py_index runs 0) as [[] | ].
  - by apply gen_multiple_one_step.
  - unfold current_generator_run_limit. rewrite bind_state.
    pose proof (maybe_move_one_step collab experiments false st Hc) as H.
    cbv zeta in H. unfold try_except, mbind, M_bind.
    destruct (_maybe_move_to_next_step collab experiments false st)
      as [[? | e] st1]; simpl in *.
    + unfold current_step, mbind, M_bind, get, from_option.
      destruct (_steps (gs st1) !! _curr (gs st1)) as [curr |]; simpl; [| done].
      unfold lift. destruct (num_trials_to_gen_and_complete _ _) as [[to_gen ?] |];
        simpl; [| done].
      destruct (to_gen <? -1); simpl; [done |].
      destruct (num_remaining_trials_until_max_parallelism _ _ _) as [[until |] |];
        simpl; try done.
      by destruct (to_gen =? -1).
    + destruct (bool_decide (e = GenerationStrategyCompleted)); simpl; done.
Qed.

(** ** What the check of the transition and the limit can raise *)

Lemma counts_range (self : GenerationStep) e to_gen to_complete :
  num_trials_to_gen_and_complete self e = Ok (to_gen, to_complete) →
  -1 ≤ to_gen ∧ -1 ≤ to_complete.
Proof.
  unfold num_trials_to_gen_and_complete. case_bool_decide.
  - intros [= <- <-]. lia.
  - destruct e; [| done]. intros [= <- <-]. lia.
Qed.

Lemma counts_unbound (self : GenerationStep) exn :
  num_trials_to_gen_and_complete self None = Raise exn → exn = ValueError.
Proof.
  unfold num_trials_to_gen_and_complete. case_bool_decide; [done |]. congruence.
Qed.

Lemma counts_bound (self : GenerationStep) e :
  is_Some (match num_trials_to_gen_and_complete self (Some e) with
           | Ok r => Some r | Raise _ => None end).
Proof. unfold num_trials_to_gen_and_complete. by case_bool_decide. Qed.

Section raises.
Variable collab : Collaborators.
Variable experiments : nat → Experiment.

(** The errors of the check of the transition, and where each comes from. *)
Lemma maybe_move_raises flag st e :
  (_maybe_move_to_next_step collab experiments flag st).1 = Raise e →
  (e = DanglingReference ∧ _steps (gs st) !! _curr (gs st) = None)
  ∨ (e = ValueError ∧ _experiment (gs st) = None)
  ∨ (e = IndexError
     ∧ ∃ curr, _steps (gs st) !! _curr (gs st) = Some curr
               ∧ Z.of_nat (length (_steps (gs st))) ≠ index curr + 1
               ∧ py_index (_steps (gs st)) (index curr + 1) = Raise IndexError)
  ∨ e = GenerationStrategyCompleted
  ∨ (e = DataRequiredError ∧ flag = true).
Proof.
  destruct (_steps (gs st) !! _curr (gs st)) as [curr |] eqn:Hcurr.
  2:{ unfold _maybe_move_to_next_step, current_step. unfold_monad.
      rewrite Hcurr. simpl. intros [= <-]. by left. }
  rewrite (maybe_move_unfold collab experiments flag st curr Hcurr).
  assert (∀ s, Z.of_nat (length (_steps (gs st))) ≠ index curr + 1 →
               s = st →
               ((move_to_next curr;; mret true) s).1 = Raise e →
               e = IndexError
               ∧ ∃ curr0, Some curr = Some curr0
                  ∧ Z.of_nat (length (_steps (gs st))) ≠ index curr0 + 1
                  ∧ py_index (_steps (gs st)) (index curr0 + 1) = Raise IndexError)
    as Hmove.
  { intros s Hne ->. rewrite move_to_next_result.
    destruct (py_index _ _) as [[pos ?] | e'] eqn:E; simpl; [done |].
    intros [= <-]. pose proof (py_index_raise _ _ _ E) as ->. split; [done |].
    by exists curr. }
  set (move := (move_to_next curr;; mret true)) in *.
  unfold bound_experiment.
  destruct (_experiment (gs st)) as [r |] eqn:Hexp; simpl.
  - destruct (num_trials_to_gen_and_complete curr (Some (experiments r)))
      as [[to_gen to_complete] | e'] eqn:Hcounts.
    2:{ pose proof (counts_bound curr (experiments r)) as [? H].
        by rewrite Hcounts in H. }
    destruct ((to_gen =? to_complete) && (to_complete =? -1)).
    + destruct (_ >? 0); [| done]. destruct (forallb _ _); [| done].
      destruct (_ =? _) eqn:Hlast; simpl.
      * intros [= <-]. tauto.
      * intros H. apply Hmove in H; [tauto | lia | done].
    + destruct ((to_gen >? 0) || (to_complete >? 0)).
      * destruct flag; simpl; [| done].
        destruct (enforce_num_trials curr && _); simpl; [| done].
        intros [= <-]. tauto.
      * destruct (_ =? _) eqn:Hlast; simpl.
        -- intros [= <-]. tauto.
        -- intros H. apply Hmove in H; [tauto | lia | done].
  - destruct (num_trials_to_gen_and_complete curr None)
      as [[to_gen to_complete] | e'] eqn:Hcounts; simpl.
    2:{ intros [= <-]. apply counts_unbound in Hcounts. tauto. }
    unfold num_trials_to_gen_and_complete in Hcounts.
    case_bool_decide; [| done]. injection Hcounts as <- <-. simpl.
    destruct (_ >? 0); simpl; [| done]. intros [= <-]. tauto.
Qed.

(** In a constructed strategy the reference to the current step is good and
    the step after a step that is not the last exists. *)
Lemma constructed_current st :
  constructed (gs st) →
  ∃ curr, _steps (gs st) !! _curr (gs st) = Some curr
          ∧ index curr = Z.of_nat (_curr (gs st)).
Proof.
  intros (_ & _ & Hidx & Hlt).
  destruct (lookup_lt_is_Some_2 _ _ Hlt) as [curr Hcurr].
  exists curr. split; [done |]. by apply Hidx.
Qed.




End raises.


(** X6. Whatever the state of the strategy, [current_generator_run_limit]
    raises neither the [RuntimeError] of its own guard, which no count of
    trials left to generate can trigger, nor the signals that the strategy is
    completed, that data is required or that parallelism is exhausted: what
    it raises is the [ValueError] of a strategy without experiment or an
    error of a reference to a step that does not exist. *)
Theorem current_generator_run_limit_raises (collab : Collaborators)
    (experiments : nat → Experiment) (st : St) (e : Exn) :
  (current_generator_run_limit collab experiments st).1 = Raise e →
  e = ValueError ∨ e = IndexError ∨ e = DanglingReference.
Proof.
  unfold current_generator_run_limit.
  unfold mbind at 1. unfold M_bind at 1. unfold try_except.
  unfold mbind at 1. unfold M_bind at 1.
  pose proof (maybe_move_raises collab experiments false st) as Hraise.
  destruct (_maybe_move_to_next_step collab experiments false st) as [[b | e'] st1];
    simpl in *.
  - unfold current_step. unfold_monad.
    destruct (_steps (gs st1) !! _curr (gs st1)) as [curr |]; simpl;
      [| intros [= <-]; tauto].
    destruct (num_trials_to_gen_and_complete curr (bound_experiment experiments st1))
      as [[to_gen to_complete] | e'] eqn:Hcounts; simpl.
    2:{ intros [= <-]. left. unfold bound_experiment in Hcounts.
        destruct (_experiment (gs st1)) as [r |]; simpl in Hcounts.
        - pose proof (counts_bound curr (experiments r)) as [? H].
          by rewrite Hcounts in H.
        - by apply counts_unbound in Hcounts. }
    apply counts_range in Hcounts. rewrite (proj2 (Z.ltb_ge _ _)) by lia.
    unfold num_remaining_trials_until_max_parallelism.
    destruct (bound_experiment experiments st1); simpl; [| intros [= <-]; tauto].
    destruct (max_parallelism curr); simpl; [| done].
    by destruct (to_gen =? -1).
  - destruct (Hraise e' eq_refl)
      as [[-> _] | [[-> _] | [[-> _] | [-> | [_ ?]]]]]; try done; simpl.
    all: intros [= <-]; tauto.
Qed.

(** ** The generator runs of [_gen_multiple] *)

#[global] Instance same_experiment_preorder : PreOrder same_experiment.
Proof.
  split; unfold same_experiment; [by intros st | intros s1 s2 s3; congruence].
Qed.

#[global] Instance same_definition_preorder : PreOrder same_definition.
Proof.
  split; unfold same_definition; [by intros st | intros s1 s2 s3; congruence].
Qed.

Lemma on_current_node_same_experiment {A} (m : M NodeSt A) :
  preserves same_experiment (on_current_node m).
Proof.
  intros st. unfold on_current_node.
  destruct (_steps (gs st) !! _curr (gs st)); [| done]. by destruct (m _).
Qed.

Lemma on_current_node_same_definition {A} (m : M NodeSt A) :
  preserves same_definition (on_current_node m).
Proof.
  intros st. unfold on_current_node, same_definition.
  destruct (_steps (gs st) !! _curr (gs st)) as [step |] eqn:Hcurr;
    [| simpl; by rewrite Hcurr].
  destruct (m _) as [r nst]. simpl.
  rewrite list_lookup_insert_eq by (by apply lookup_lt_Some in Hcurr).
  done.
Qed.

Lemma same_gs_same_experiment st st' : same_gs st st' → same_experiment st st'.
Proof. intros [H _]. unfold same_experiment. by rewrite H. Qed.

Lemma same_gs_same_definition st st' : same_gs st st' → same_definition st st'.
Proof. intros [H _]. unfold same_definition. by rewrite H. Qed.

(** What the definition of a step decides. *)
Lemma same_definition_fields (s s' : GenerationStep) :
  step_definition s' = step_definition s →
  index s' = index s ∧ max_parallelism s' = max_parallelism s
  ∧ num_trials s' = num_trials s ∧ enforce_num_trials s' = enforce_num_trials s
  ∧ (∀ e, num_running_trials s' e = num_running_trials s e)
  ∧ (∀ e, num_can_complete s' e = num_can_complete s e).
Proof.
  intros H.
  change (index (step_definition s') = index (step_definition s)
          ∧ max_parallelism (step_definition s') = max_parallelism (step_definition s)
          ∧ num_trials (step_definition s') = num_trials (step_definition s)
          ∧ enforce_num_trials (step_definition s')
            = enforce_num_trials (step_definition s)
          ∧ (∀ e, num_running_trials (step_definition s') e
                  = num_running_trials (step_definition s) e)
          ∧ (∀ e, num_can_complete (step_definition s') e
                  = num_can_complete (step_definition s) e)).
  by rewrite H.
Qed.

(** Python's [l[-1]] on a list that was appended to. *)
Lemma py_index_last {A} (l : list A) (a : A) :
  py_index (l ++ [a]) (-1) = Ok (length l, a).
Proof.
  unfold py_index. cbv zeta. rewrite (bool_decide_true (-1 < 0)) by lia.
  rewrite length_app. simpl length.
  rewrite bool_decide_false by lia.
  replace (Z.to_nat (-1 + Z.of_nat (length l + 1))) with (length l + 0)%nat by lia.
  by rewrite lookup_app_r, Nat.add_0_r, Nat.sub_diag by lia.
Qed.

Section runs.
Variable collab : Collaborators.
Variable experiments : nat → Experiment.

Lemma maybe_move_same_runs flag :
  preserves same_runs (_maybe_move_to_next_step collab experiments flag).
Proof.
  intros st.
  by destruct (maybe_move_outcome collab experiments flag st)
    as [-> | (? & ? & ? & _ & _ & ->)].
Qed.

Lemma maybe_move_same_experiment flag :
  preserves same_experiment (_maybe_move_to_next_step collab experiments flag).
Proof.
  intros st.
  by destruct (maybe_move_outcome collab experiments flag st)
    as [-> | (? & ? & ? & _ & _ & ->)].
Qed.

Lemma experiment_setter_same_runs experiment :
  preserves same_runs (experiment_setter experiments experiment).
Proof.
  unfold experiment_setter. preserves_auto.
  all: try (by intros st).
Qed.

(** The setter binds the experiment or raises [ValueError] and binds
    nothing. *)
Lemma experiment_setter_result experiment st :
  experiment_setter experiments experiment st
  = if match _experiment (gs st) with
       | Some r => bool_decide (exp_name (experiments experiment)
                                ≠ exp_name (experiments r))
       | None => false
       end
    then (Raise ValueError, st)
    else (Ok tt, {| gs := set_experiment (Some experiment) (gs st);
                    calls := calls st; heap := heap st |}).
Proof.
  unfold experiment_setter, modify_gs. unfold_monad.
  destruct (_experiment (gs st)) as [r |] eqn:Hr; [| done].
  case_bool_decide as Hname.
  - by rewrite bool_decide_false by (by intros ?).
  - by rewrite bool_decide_true.
Qed.

(** The tail of [_gen_multiple], after the check of the transition. *)
Local Abbreviation tail experiment num data n pending kwargs :=
  ('(turns, copy) ← limits_and_copy collab experiments num data pending;
   gen_loop collab experiments (Z.to_nat turns) experiment n copy kwargs []).

Lemma tail_same_experiment experiment num data n pending kwargs :
  preserves same_experiment (tail experiment num data n pending kwargs).
Proof.
  apply preserves_bind; [apply _ | | intros [turns copy]].
  - apply limits_and_copy_keeps; keeps_by (@on_current_node_same_experiment) same_gs_same_experiment.
  - apply gen_loop_keeps_relation; keeps_by (@on_current_node_same_experiment) same_gs_same_experiment.
Qed.

Lemma limits_and_copy_same_runs num data pending :
  preserves same_runs (limits_and_copy collab experiments num data pending).
Proof.
  apply limits_and_copy_keeps; keeps_by (@on_current_node_same_runs) same_gs_same_runs.
Qed.

Lemma step_gen_same_runs n pending seen kwargs :
  preserves same_runs (step_gen collab n pending seen kwargs).
Proof.
  apply step_gen_keeps; keeps_by (@on_current_node_same_runs) same_gs_same_runs.
Qed.

Lemma step_gen_same_definition n pending seen kwargs :
  preserves same_definition (step_gen collab n pending seen kwargs).
Proof.
  apply step_gen_keeps;
    keeps_by (@on_current_node_same_definition) same_gs_same_definition.
Qed.

Lemma gen_loop_same_definition remaining experiment n pending kwargs runs :
  preserves same_definition
    (gen_loop collab experiments remaining experiment n pending kwargs runs).
Proof.
  apply gen_loop_keeps_relation; keeps_by (@on_current_node_same_definition) same_gs_same_definition.
Qed.

(** The generator run of the step's [gen] carries the index of the step. *)
Lemma step_gen_index n pending seen kwargs st gr st' :
  step_gen collab n pending seen kwargs st = (Ok gr, st') →
  gr_generation_step_index gr = current_index st.
Proof.
  unfold step_gen, current_index. unfold mbind at 1. unfold M_bind at 1.
  unfold current_step. unfold mbind at 1. unfold M_bind at 1. unfold get at 1.
  destruct (_steps (gs st) !! _curr (gs st)) as [curr |]; simpl; [| done].
  unfold mbind, M_bind, get.
  destruct (on_current_node _ st) as [[gr' | ?] st1]; simpl; [| done].
  by intros [= <- <-].
Qed.

Lemma keep_run_runs experiment pending gr st :
  _generator_runs (gs (keep_run experiments experiment pending gr st).2)
  = _generator_runs (gs st) ++ [gr].
Proof.
  unfold keep_run. rewrite bind_state. unfold modify_gs at 1. simpl.
  pose proof (extend_pending_observations_same_gs (experiments experiment) pending gr)
    as H.
  match goal with |- context [extend_pending_observations _ _ _ ?s] =>
    destruct (H s) as [-> _] end.
  done.
Qed.

Lemma keep_run_same_definition experiment pending gr :
  preserves same_definition (keep_run experiments experiment pending gr).
Proof.
  unfold keep_run.
  pose proof (λ e p g, preserves_weaken _ _ _ same_gs_same_definition
                         (extend_pending_observations_same_gs e p g)).
  preserves_auto.
Qed.

Lemma current_index_same_definition st st' :
  same_definition st st' → current_index st' = current_index st.
Proof.
  unfold same_definition, current_index. intros H.
  destruct (_steps (gs st') !! _curr (gs st')) as [s' |],
           (_steps (gs st) !! _curr (gs st)) as [s |]; simpl in *; try done.
  f_equal. apply same_definition_fields. congruence.
Qed.

(** The loop returns the runs it was entered with and those it produced, one
    a turn at most; the strategy keeps the latter in the order of their
    production, and each carries the index of the current step. *)
Lemma gen_loop_history experiment n pending kwargs remaining :
  ∀ acc st runs st',
    gen_loop collab experiments remaining experiment n pending kwargs acc st
    = (Ok runs, st') →
    ∃ new, runs = acc ++ new
           ∧ _generator_runs (gs st') = _generator_runs (gs st) ++ new
           ∧ (length new ≤ remaining)%nat
           ∧ Forall (λ gr, gr_generation_step_index gr = current_index st) new.
Proof.
  induction remaining as [| remaining IH]; intros acc st runs st'.
  - simpl. intros [= <- <-]. exists []. rewrite !app_nil_r. by repeat split.
  - rewrite gen_loop_unfold.
    pose proof (step_gen_same_runs (Some n) pending
                  (Some (arms_by_signature (experiments experiment))) kwargs st)
      as Hruns.
    pose proof (step_gen_same_definition (Some n) pending
                  (Some (arms_by_signature (experiments experiment))) kwargs st)
      as Hdef.
    pose proof (step_gen_index (Some n) pending
                  (Some (arms_by_signature (experiments experiment))) kwargs st)
      as Hidx.
    destruct (step_gen _ _ _ _ _ st) as [[gr | e] st1]; simpl in Hruns, Hdef.
    + specialize (Hidx gr st1 eq_refl).
      pose proof (keep_run_runs experiment pending gr st1) as Hkeep.
      pose proof (keep_run_same_definition experiment pending gr st1) as Hdef2.
      destruct (keep_run _ _ _ _ st1) as [[[] | e] st2]; simpl in Hkeep, Hdef2;
        [| done].
      intros Hloop. destruct (IH _ _ _ _ Hloop) as (new & -> & Hhist & Hlen & Hall).
      exists (gr :: new). rewrite <- app_assoc. split; [done |].
      split; [| split].
      * rewrite Hhist, Hkeep, Hruns, <- app_assoc. done.
      * simpl. lia.
      * constructor; [done |].
        assert (current_index st2 = current_index st) as <-; [| done].
        apply current_index_same_definition. by etransitivity.
    + case_bool_decide; [| done]. case_bool_decide; [done |].
      intros [= <- <-]. exists []. rewrite !app_nil_r.
      split; [done |]. split; [done |]. split; [simpl; lia | constructor].
Qed.

(** The cut to the budget of the step, and the copy. *)
Lemma cut_and_copy (limit : Z) (curr : GenerationStep) e pending st3 turns copy st' :
  bound_experiment experiments st3 = Some e →
  (num_generator_runs ←
     (if enforce_num_trials curr && (num_trials curr >? 0)
      then e0 ← self_experiment experiments;
           mret (Z.min limit (num_trials curr - num_can_complete curr e0))
      else mret limit);
   pending_observations ← deepcopy_or_empty pending;
   mret (num_generator_runs, pending_observations)) st3
  = (Ok (turns, copy), st') →
  gs st' = gs st3 ∧ turns ≤ limit
  ∧ (enforce_num_trials curr = true → 0 < num_trials curr →
     turns ≤ num_trials curr - num_can_complete curr e).
Proof.
  intros He. unfold mbind at 1. unfold M_bind at 1.
  assert (∀ t, (deepcopy_or_empty pending
                ≫= λ pending_observations, mret (t, pending_observations)) st3
               = (Ok (turns, copy), st') → gs st' = gs st3 ∧ t = turns) as Hcopy.
  { intros t. unfold mbind, M_bind.
    pose proof (deepcopy_or_empty_same_gs pending st3) as [Hgs _].
    destruct (deepcopy_or_empty pending st3) as [[c | ?] s]; [| done].
    simpl in Hgs. by intros [= <- <- <-]. }
  destruct (enforce_num_trials curr) eqn:Henf; simpl.
  - destruct (num_trials curr >? 0) eqn:Hpos.
    + unfold self_experiment. unfold mbind at 1. unfold M_bind at 1.
      unfold mbind at 1. unfold M_bind at 1. unfold get at 1.
      unfold bound_experiment in He.
      destruct (_experiment (gs st3)) as [r |]; [| done]. simpl in He.
      injection He as <-. unfold mret at 1 2. unfold M_ret at 1 2.
      intros H. apply Hcopy in H as [-> <-]. split; [done |]. lia.
    + unfold mret at 1. unfold M_ret at 1.
      intros H. apply Hcopy in H as [-> <-]. split; [done |]. lia.
  - unfold mret at 1. unfold M_ret at 1.
    intros H. apply Hcopy in H as [-> <-]. done.
Qed.

(** The number of turns the loop is given, and what it was cut to. *)
Lemma limits_and_copy_turns num data pending st turns copy st' :
  limits_and_copy collab experiments num data pending st = (Ok (turns, copy), st') →
  ∃ curr e,
    _steps (gs st') !! _curr (gs st') = Some curr
    ∧ bound_experiment experiments st' = Some e
    ∧ turns ≤ num
    ∧ (∀ cap, max_parallelism curr = Some cap →
              turns ≤ cap - num_running_trials curr e
              ∧ num_running_trials curr e < cap)
    ∧ (enforce_num_trials curr = true → 0 < num_trials curr →
       turns ≤ num_trials curr - num_can_complete curr e).
Proof.
  unfold limits_and_copy. unfold mbind at 1. unfold M_bind at 1.
  destruct (_fit_or_update_current_model _ _ _ _) as [[[] | ?] st3]; [| done].
  unfold mbind at 1. unfold M_bind at 1. unfold current_step at 1.
  unfold mbind at 1. unfold M_bind at 1. unfold get at 1.
  destruct (_steps (gs st3) !! _curr (gs st3)) as [curr |] eqn:Hcurr; simpl; [| done].
  unfold mbind at 1. unfold M_bind at 1. unfold get at 1.
  unfold mbind at 1. unfold M_bind at 1. unfold lift at 1.
  unfold num_remaining_trials_until_max_parallelism.
  destruct (bound_experiment experiments st3) as [e |] eqn:He; [| done].
  destruct (max_parallelism curr) as [cap |] eqn:Hcap.
  - cbn [andb]. destruct (num_running_trials curr e >=? cap) eqn:Hfull; [done |].
    intros H. apply (cut_and_copy _ curr e) in H; [| done].
    destruct H as (Hgs & Hle & Hbudget). exists curr, e.
    unfold bound_experiment in *. rewrite Hgs.
    split; [done |]. split; [done |]. split; [lia |]. split; [| done].
    intros cap' Hcap'. rewrite Hcap in Hcap'. injection Hcap' as <-. lia.
  - intros H. apply (cut_and_copy _ curr e) in H; [| done].
    destruct H as (Hgs & Hle & Hbudget). exists curr, e.
    unfold bound_experiment in *. rewrite Hgs.
    split; [done |]. split; [done |]. split; [lia |]. split; [| done].
    intros cap' Hcap'. congruence.
Qed.

Lemma gen_loop_same_experiment remaining experiment n pending kwargs runs :
  preserves same_experiment
    (gen_loop collab experiments remaining experiment n pending kwargs runs).
Proof.
  apply gen_loop_keeps_relation; keeps_by (@on_current_node_same_experiment) same_gs_same_experiment.
Qed.

Lemma limits_and_copy_same_experiment num data pending :
  preserves same_experiment (limits_and_copy collab experiments num data pending).
Proof.
  apply limits_and_copy_keeps; keeps_by (@on_current_node_same_experiment) same_gs_same_experiment.
Qed.

(** [_gen_multiple], by what it returns. *)
Lemma gen_multiple_returns experiment num data n pending kwargs st runs st' :
  _gen_multiple collab experiments experiment num data n pending kwargs st
  = (Ok runs, st') →
  _generator_runs (gs st') = _generator_runs (gs st) ++ runs
  ∧ Forall (λ gr, gr_generation_step_index gr = current_index st') runs
  ∧ _experiment (gs st') = Some experiment
  ∧ Z.of_nat (length runs) ≤ Z.max num 0
  ∧ ∃ curr,
      _steps (gs st') !! _curr (gs st') = Some curr
      ∧ (∀ cap, max_parallelism curr = Some cap →
                num_running_trials curr (experiments experiment)
                + Z.of_nat (length runs) ≤ cap)
      ∧ (enforce_num_trials curr = true → 0 < num_trials curr → runs ≠ [] →
         num_can_complete curr (experiments experiment)
         + Z.of_nat (length runs) ≤ num_trials curr).
Proof.
  rewrite gen_multiple_stages. unfold mbind at 1. unfold M_bind at 1.
  rewrite experiment_setter_result.
  destruct (match _experiment (gs st) with Some _ => _ | None => _ end); [done |].
  set (st1 := {| gs := set_experiment (Some experiment) (gs st);
                 calls := calls st; heap := heap st |}).
  unfold mbind at 1. unfold M_bind at 1.
  pose proof (maybe_move_same_runs true st1) as Hruns2.
  pose proof (maybe_move_same_experiment true st1) as Hexp2.
  destruct (_maybe_move_to_next_step collab experiments true st1) as [[? | ?] st2];
    [| done].
  simpl in Hruns2, Hexp2. unfold mbind at 1. unfold M_bind at 1.
  pose proof (limits_and_copy_same_runs num data pending st2) as Hruns3.
  pose proof (limits_and_copy_same_experiment num data pending st2) as Hexp3.
  pose proof (limits_and_copy_turns num data pending st2) as Hturns.
  destruct (limits_and_copy collab experiments num data pending st2)
    as [[[turns copy] | ?] st3]; [| done].
  simpl in Hruns3, Hexp3.
  destruct (Hturns _ _ _ eq_refl) as (curr & e & Hcurr & He & Hnum & Hcap & Hbudget).
  clear Hturns. intros Hloop.
  pose proof (gen_loop_same_experiment (Z.to_nat turns) experiment n copy kwargs []
                st3) as Hexp4.
  pose proof (gen_loop_same_definition (Z.to_nat turns) experiment n copy kwargs []
                st3) as Hdef4.
  rewrite Hloop in Hexp4, Hdef4. simpl in Hexp4, Hdef4.
  destruct (gen_loop_history _ _ _ _ _ _ _ _ _ Hloop) as (new & -> & Hhist & Hlen & Hidx).
  simpl. simpl in Hlen.
  assert (_experiment (gs st') = Some experiment) as Hbound.
  { rewrite Hexp4, Hexp3, Hexp2. done. }
  assert (e = experiments experiment) as ->.
  { unfold bound_experiment in He. rewrite Hexp3, Hexp2 in He. simpl in He.
    congruence. }
  split; [by rewrite Hhist, Hruns3, Hruns2 |].
  split; [by rewrite (current_index_same_definition _ _ Hdef4) |].
  split; [done |]. split; [lia |].
  unfold same_definition in Hdef4. rewrite Hcurr in Hdef4.
  destruct (_steps (gs st') !! _curr (gs st')) as [curr' |]; [| done].
  assert (step_definition curr' = step_definition curr) as Hdef
    by (apply (inj Some); exact Hdef4).
  destruct (same_definition_fields _ _ Hdef) as (_ & Hp & Hn & Hf & Hr & Hcc).
  exists curr'. split; [done |]. rewrite Hp, Hn, Hf, Hr, Hcc. split.
  - intros cap Hc. destruct (Hcap cap Hc). lia.
  - intros Hf' Hn' Hne. specialize (Hbudget Hf' Hn').
    destruct new; [done |]. simpl in *. lia.
Qed.

End runs.

(** X7. [_gen_multiple] binds the strategy to the experiment it is called
    with: a strategy bound to an experiment of another name raises
    [ValueError] and is left as it was, and in every other case the strategy
    is bound to the experiment of the call afterwards, whether the call
    returned or raised. *)
Theorem gen_multiple_binds (collab : Collaborators) (experiments : nat → Experiment)
    (experiment : nat) (num_generator_runs : Z) (data : option Data) (n : Z)
    (pending_observations : option nat) (model_gen_kwargs : Kwargs) (st : St) :
  let call := _gen_multiple collab experiments experiment num_generator_runs data n
                pending_observations model_gen_kwargs st in
  match _experiment (gs st) with
  | Some r =>
      if bool_decide (exp_name (experiments experiment) = exp_name (experiments r))
      then _experiment (gs call.2) = Some experiment
      else call = (Raise ValueError, st)
  | None => _experiment (gs call.2) = Some experiment
  end.
Proof.
  cbv zeta. rewrite gen_multiple_stages.
  pose proof (experiment_setter_result experiments experiment st) as Hset.
  assert (∀ st1,
            _experiment (gs st1) = Some experiment →
            _experiment
              (gs ((_maybe_move_to_next_step collab experiments true;;
                    '(turns, copy) ← limits_and_copy collab experiments
                                       num_generator_runs data pending_observations;
                    gen_loop collab experiments (Z.to_nat turns) experiment n copy
                      model_gen_kwargs []) st1).2)
            = Some experiment) as Hrest.
  { intros st1 <-. rewrite bind_state.
    pose proof (maybe_move_same_experiment collab experiments true st1) as H2.
    destruct (_maybe_move_to_next_step collab experiments true st1) as [[? | ?] st2];
      simpl in *; [| done].
    rewrite <- H2.
    apply (tail_same_experiment collab experiments experiment num_generator_runs
             data n pending_observations model_gen_kwargs st2). }
  destruct (_experiment (gs st)) as [r |].
  - destruct (decide (exp_name (experiments experiment) = exp_name (experiments r)))
      as [Heq | Hne].
    + rewrite (bool_decide_true _ Heq).
      rewrite bool_decide_false in Hset by (by intros ?).
      unfold mbind at 1. unfold M_bind at 1. rewrite Hset. by apply Hrest.
    + rewrite (bool_decide_false _ Hne).
      rewrite bool_decide_true in Hset by done.
      unfold mbind at 1. unfold M_bind at 1. by rewrite Hset.
  - unfold mbind at 1. unfold M_bind at 1. rewrite Hset. by apply Hrest.
Qed.

(** X8. The generator runs [_gen_multiple] returns are those it adds to the
    history of the strategy, at its end and in the order of their production,
    and each of them carries the index of the step the strategy stands on. *)
Theorem gen_multiple_history (collab : Collaborators) (experiments : nat → Experiment)
    (experiment : nat) (num_generator_runs : Z) (data : option Data) (n : Z)
    (pending_observations : option nat) (model_gen_kwargs : Kwargs)
    (st st' : St) (runs : list GeneratorRun) :
  _gen_multiple collab experiments experiment num_generator_runs data n
    pending_observations model_gen_kwargs st = (Ok runs, st') →
  _generator_runs (gs st') = _generator_runs (gs st) ++ runs
  ∧ Forall (λ gr, gr_generation_step_index gr = current_index st') runs.
Proof.
  intros H. apply gen_multiple_returns in H as (? & ? & _). done.
Qed.

(** X9. [_gen_multiple] returns no more generator runs than it was asked for,
    no more than the parallelism of the current step leaves beside the trials
    of the step that are running, and, on a step that enforces a positive
    budget, no more than the budget leaves beside the trials of the step that
    can complete. *)
Theorem gen_multiple_within_limits (collab : Collaborators)
    (experiments : nat → Experiment)
    (experiment : nat) (num_generator_runs : Z) (data : option Data) (n : Z)
    (pending_observations : option nat) (model_gen_kwargs : Kwargs)
    (st st' : St) (runs : list GeneratorRun) :
  _gen_multiple collab experiments experiment num_generator_runs data n
    pending_observations model_gen_kwargs st = (Ok runs, st') →
  Z.of_nat (length runs) ≤ Z.max num_generator_runs 0
  ∧ ∃ curr,
      _steps (gs st') !! _curr (gs st') = Some curr
      ∧ (∀ cap, max_parallelism curr = Some cap →
                num_running_trials curr (experiments experiment)
                + Z.of_nat (length runs) ≤ cap)
      ∧ (enforce_num_trials curr = true → 0 < num_trials curr → runs ≠ [] →
         num_can_complete curr (experiments experiment)
         + Z.of_nat (length runs) ≤ num_trials curr).
Proof.
  intros H. apply gen_multiple_returns in H as (_ & _ & _ & ? & ?). done.
Qed.

(** X10. The generator run [gen] returns is the one run it adds to the
    history of the strategy, so that [last_generator_run] is that run
    afterwards. *)
Theorem gen_returns_last_generator_run (collab : Collaborators)
    (experiments : nat → Experiment) (experiment : nat) (data : option Data) (n : Z)
    (pending_observations : option nat) (model_gen_kwargs : Kwargs)
    (st st' : St) (generator_run : GeneratorRun) :
  gen collab experiments experiment data n pending_observations model_gen_kwargs st
  = (Ok generator_run, st') →
  _generator_runs (gs st') = _generator_runs (gs st) ++ [generator_run]
  ∧ last_generator_run (gs st') = Ok (Some generator_run).
Proof.
  unfold gen. unfold mbind at 1. unfold M_bind at 1.
  pose proof (gen_multiple_returns collab experiments experiment 1 data n
                pending_observations model_gen_kwargs st) as H.
  destruct (_gen_multiple _ _ _ _ _ _ _ _ _) as [[runs | ?] st1]; [| done].
  destruct (H _ _ eq_refl) as (Hhist & _ & _ & Hlen & _). clear H.
  destruct runs as [| gr [| gr' rest]]; simpl in Hlen; [| | lia].
  - by unfold_monad.
  - unfold_monad. simpl. intros [= <- <-]. split; [done |].
    unfold last_generator_run. rewrite Hhist.
    rewrite bool_decide_false by (by destruct (_generator_runs (gs st))).
    by rewrite py_index_last.
Qed.

(** ** Fitting *)

Lemma same_spec_all (l : list ModelSpec) : Forall2 same_spec l l.
Proof. apply Forall_Forall2_diag, Forall_forall. by intros. Qed.

Section fitting.
Variable collab : Collaborators.

(** One model spec is fitted: the call is recorded, and the model spec is
    fitted unless the fit fails. *)
Lemma model_spec_fit_result pos e data kwargs st model_spec :
  model_specs (nd st) !! pos = Some model_spec →
  ∃ r nd',
    model_spec_fit collab pos e data kwargs st
    = (r, {| nd := nd'; nlog := nlog st ++ [fit_call data kwargs model_spec] |})
    ∧ ((r = Ok tt
        ∧ nd' = set_model_specs
                  (<[pos := set_fitted_model (Some (length (nlog st))) model_spec]>
                     (model_specs (nd st))) (nd st))
       ∨ ((∃ exn, r = Raise exn) ∧ nd' = nd st)).
Proof.
  intros Hpos. unfold model_spec_fit, record_call, modify_nd. unfold_monad.
  rewrite Hpos. simpl. fold (fit_call data kwargs model_spec).
  destruct (model_fit collab _ e) as [exn |]; simpl.
  - eexists _, _. split; [done |]. right. eauto.
  - eexists _, _. split; [done |]. left. split; [done |].
    rewrite length_app. simpl length.
    by replace (length (nlog st) + 1 - 1)%nat with (length (nlog st)) by lia.
Qed.

(** The model specs from position [k] on are fitted in turn. *)
Lemma fit_each_result e data kwargs remaining : ∀ k st r st',
  (k + remaining ≤ length (model_specs (nd st)))%nat →
  fit_each collab (seq k remaining) e data kwargs st = (r, st') →
  _model_spec_to_gen_from (nd st') = _model_spec_to_gen_from (nd st)
  ∧ Forall2 same_spec (model_specs (nd st)) (model_specs (nd st'))
  ∧ take k (model_specs (nd st')) = take k (model_specs (nd st))
  ∧ ∃ j, (j ≤ remaining)%nat
         ∧ nlog st'
           = nlog st ++ (fit_call data kwargs
                           <$> take j (drop k (model_specs (nd st))))
         ∧ (r = Ok tt →
            j = remaining
            ∧ ∀ i s, (k ≤ i < k + remaining)%nat →
                     model_specs (nd st') !! i = Some s → is_Some (_fitted_model s)).
Proof.
  induction remaining as [| remaining IH]; intros k st r st' Hlen.
  - simpl. intros [= <- <-]. split; [done |]. split; [apply same_spec_all |].
    split; [done |]. exists 0%nat. rewrite take_0, app_nil_r.
    split; [done |]. split; [done |]. intros _. split; [done |]. intros; lia.
  - simpl. unfold mbind at 1. unfold M_bind at 1.
    destruct (lookup_lt_is_Some_2 (model_specs (nd st)) k) as [model_spec Hk]; [lia |].
    destruct (model_spec_fit_result k e data kwargs st model_spec Hk)
      as (r1 & nd1 & -> & [[-> ->] | [[exn ->] ->]]).
    + intros Hrest.
      apply IH in Hrest; [| simpl; rewrite length_insert; lia].
      simpl in Hrest. destruct Hrest as (Hcache & Hsame & Htake & j & Hj & Hlog & Hok).
      split; [done |]. split; [| split].
      * apply Forall2_same_length_lookup_2.
        { apply Forall2_length in Hsame. by rewrite length_insert in Hsame. }
        intros i a b Ha Hb.
        destruct (Forall2_lookup_r _ _ _ _ _ Hsame Hb) as (a' & Ha' & Hab).
        destruct (decide (i = k)) as [-> | Hne].
        -- rewrite list_lookup_insert_eq in Ha' by (by apply lookup_lt_Some in Hk).
           injection Ha' as <-. rewrite Hk in Ha. injection Ha as <-.
           unfold same_spec in *. by rewrite Hab.
        -- rewrite list_lookup_insert_ne in Ha' by done. unfold same_spec in *. congruence.
      * assert (take k (model_specs (nd st'))
                = take k (take (S k) (model_specs (nd st')))) as ->
          by (rewrite take_take; f_equal; lia).
        rewrite Htake, take_take, Nat.min_l by lia. apply take_insert_ge. lia.
      * exists (S j). split; [lia |]. split.
        -- rewrite Hlog, <- app_assoc. f_equal.
           rewrite (drop_S _ _ _ Hk). simpl. f_equal.
           by rewrite drop_insert_lt by lia.
        -- intros Hr. destruct (Hok Hr) as [-> Hfit]. split; [done |].
           intros i s Hi His. destruct (decide (i = k)) as [-> | Hne].
           ++ assert (take (S k) (model_specs (nd st')) !! k = Some s) as Hs
                by (rewrite lookup_take_lt by lia; done).
              rewrite Htake, lookup_take_lt in Hs by lia.
              rewrite list_lookup_insert_eq in Hs by (by apply lookup_lt_Some in Hk).
              injection Hs as <-. by eexists.
           ++ apply (Hfit i); [lia | done].
    + intros [= <- <-]. simpl. split; [done |].
      split; [apply same_spec_all |]. split; [done |].
      exists 1%nat. split; [lia |]. split.
      * by rewrite (drop_S _ _ _ Hk).
      * done.
Qed.

End fitting.


(** ** The calls a cycle of fitting makes *)

#[global] Instance same_calls_preorder : PreOrder same_calls.
Proof. split; unfold same_calls; [by intros st | intros s1 s2 s3; congruence]. Qed.

#[global] Instance calls_extend_preorder P : PreOrder (calls_extend P).
Proof.
  split.
  - intros st. exists []. by rewrite app_nil_r.
  - intros s1 s2 s3 (n1 & H1 & P1) (n2 & H2 & P2). exists (n1 ++ n2).
    rewrite H2, H1, app_assoc. split; [done |]. by apply Forall_app.
Qed.

Lemma same_calls_extend P st st' : same_calls st st' → calls_extend P st st'.
Proof. intros H. exists []. by rewrite app_nil_r. Qed.

Lemma modify_gs_same_calls f : preserves same_calls (modify_gs f).
Proof. by intros st. Qed.

Section cycle_calls.
Variable collab : Collaborators.
Variable experiments : nat → Experiment.

Lemma self_experiment_same_calls : preserves same_calls (self_experiment experiments).
Proof. unfold self_experiment. preserves_auto. Qed.

Lemma current_step_same_calls : preserves same_calls current_step.
Proof. unfold current_step. preserves_auto. Qed.

Lemma curr_model_spec_same_calls : preserves same_calls curr_model_spec.
Proof.
  unfold curr_model_spec. pose proof current_step_same_calls. preserves_auto.
Qed.

Lemma get_data_for_update_same_calls data :
  preserves same_calls (_get_data_for_update experiments data).
Proof.
  unfold _get_data_for_update, _find_trials_completed_since_last_gen.
  pose proof self_experiment_same_calls. preserves_auto.
Qed.

Lemma save_seen_same_calls : preserves same_calls (_save_seen_trial_indices experiments).
Proof.
  unfold _save_seen_trial_indices. pose proof self_experiment_same_calls.
  pose proof modify_gs_same_calls. preserves_auto.
Qed.

Variable P : Call → Prop.

Lemma node_fit_extends e data kwargs :
  (∀ model_spec, P (fit_call data kwargs model_spec)) →
  preserves (calls_extend P) (on_current_node (node_fit collab e data kwargs)).
Proof.
  intros HP st. unfold on_current_node.
  destruct (_steps (gs st) !! _curr (gs st)) as [step |]; [| reflexivity].
  destruct (node_fit collab e data kwargs _) as [r nst] eqn:Hfit. simpl.
  unfold node_fit, modify_nd in Hfit. unfold_monad. simpl in Hfit.
  apply fit_each_result in Hfit; [| simpl; lia]. simpl in Hfit.
  destruct Hfit as (_ & _ & _ & j & _ & Hlog & _).
  eexists. split; [exact Hlog |]. apply Forall_fmap, Forall_forall.
  intros spec _. apply HP.
Qed.

Lemma fit_current_model_extends data :
  (∀ m kw, P (CallFit m data kw)) →
  preserves (calls_extend P) (_fit_current_model collab experiments data).
Proof.
  intros HP. unfold _fit_current_model.
  pose proof (preserves_weaken _ _ _ (same_calls_extend P) current_step_same_calls).
  pose proof (preserves_weaken _ _ _ (same_calls_extend P) curr_model_spec_same_calls).
  pose proof (preserves_weaken _ _ _ (same_calls_extend P) self_experiment_same_calls).
  pose proof (λ f, preserves_weaken _ _ _ (same_calls_extend P)
                     (modify_gs_same_calls f)).
  pose proof (λ e k, node_fit_extends e data k (λ model_spec, HP _ _)).
  preserves_auto.
  all: destruct (_ && _); preserves_auto.
  all: destruct (_ || _); preserves_auto.
Qed.


Lemma update_current_model_extends new_data :
  (∀ m, P (CallUpdate m new_data)) →
  preserves (calls_extend P) (_update_current_model collab experiments new_data).
Proof.
  intros HP. unfold _update_current_model.
  pose proof (preserves_weaken _ _ _ (same_calls_extend P) self_experiment_same_calls).
  assert (∀ m, preserves (calls_extend P) (record (CallUpdate m new_data))) as Hrec.
  { intros m st. exists [CallUpdate m new_data]. split; [done |].
    constructor; [apply HP | constructor]. }
  preserves_auto.
Qed.

(** The calls of [_fit_or_update_current_model]: updates on a fitted model
    of a step that uses [update], and otherwise fits on the data that
    [get_data_for_fit] returns. *)
Lemma fit_or_update_extends data st curr :
  _steps (gs st) !! _curr (gs st) = Some curr →
  (is_Some (_model (gs st)) → use_update curr = true → ∀ m d, P (CallUpdate m d)) →
  (_model (gs st) = None ∨ use_update curr = false →
   ∀ previous_step_req_observations d m kw,
     ((index curr >? 0) = true →
      ∃ pos previous, py_index (_steps (gs st)) (index curr - 1) = Ok (pos, previous)
                      ∧ previous_step_req_observations
                        = (min_trials_observed previous >? 0)) →
     ((index curr >? 0) = false → previous_step_req_observations = false) →
     get_data_for_fit curr (bound_experiment experiments st) data
       previous_step_req_observations = Ok d →
     P (CallFit m d kw)) →
  calls_extend P st (_fit_or_update_current_model collab experiments data st).2.
Proof.
  intros Hcurr Hupd Hfit. unfold _fit_or_update_current_model.
  unfold mbind at 1. unfold M_bind at 1. unfold get at 1.
  unfold mbind at 1. unfold M_bind at 1. rewrite (current_step_eq _ _ Hcurr).
  rewrite bind_state.
  pose proof (save_seen_same_calls) as Hsave.
  match goal with |- context [(?m st).1] => set (cycle := m) end.
  assert (calls_extend P st (cycle st).2) as Hcycle.
  { subst cycle. cbv beta.
    destruct (bool_decide (is_Some (_model (gs st))) && use_update curr) eqn:Hpath.
    - apply andb_true_iff in Hpath as [Hm Hu]. apply bool_decide_eq_true in Hm.
      specialize (Hupd Hm Hu).
      pose proof (preserves_weaken _ _ _ (same_calls_extend P)
                    (get_data_for_update_same_calls data)).
      pose proof (λ d, update_current_model_extends d (λ m, Hupd m d)).
      assert (preserves (calls_extend P)
                (new_data ← _get_data_for_update experiments data;
                 match new_data with
                 | Some new_data => _update_current_model collab experiments new_data
                 | None => mret tt
                 end)) as Hp by preserves_auto.
      apply Hp.
    - assert (_model (gs st) = None ∨ use_update curr = false) as Hor.
      { apply andb_false_iff in Hpath as [Hm | Hu]; [left | by right].
        apply bool_decide_eq_false in Hm. destruct (_model (gs st)); [| done].
        destruct Hm. eauto. }
      specialize (Hfit Hor). rewrite bind_state.
      destruct (index curr >? 0) eqn:Hidx.
      + unfold mbind at 1. unfold M_bind at 1. unfold lift at 1.
        destruct (py_index (_steps (gs st)) (index curr - 1))
          as [[pos previous] |] eqn:Hprev; simpl; [| reflexivity].
        rewrite bind_state. unfold lift at 1. simpl.
        destruct (get_data_for_fit _ _ _ _) as [d |] eqn:Hd; simpl; [| reflexivity].
        apply fit_current_model_extends. intros m kw.
        eapply Hfit; [| | exact Hd]; [eauto | done].
      + unfold mret at 1. unfold M_ret at 1. simpl.
        rewrite bind_state. unfold lift at 1. simpl.
        destruct (get_data_for_fit _ _ _ _) as [d |] eqn:Hd; simpl; [| reflexivity].
        apply fit_current_model_extends. intros m kw.
        eapply Hfit; [| | exact Hd]; [done | done]. }
  destruct (cycle st) as [[[] | ?] st1]; simpl in *; [| done].
  etransitivity; [exact Hcycle |]. apply same_calls_extend, Hsave.
Qed.

End cycle_calls.

Lemma bind_Ok {S A B} (m : M S A) (k : A → M S B) (st : S) (b : B) (st' : S) :
  (m ≫= k) st = (Ok b, st') →
  ∃ a st1, m st = (Ok a, st1) ∧ k a st1 = (Ok b, st').
Proof.
  unfold mbind, M_bind. destruct (m st) as [[a | e] st1]; [eauto | done].
Qed.

#[global] Instance gs_kept_preorder : PreOrder gs_kept.
Proof. split; unfold gs_kept; [by intros st | intros s1 s2 s3; congruence]. Qed.

Section second_cycle.
Variable collab : Collaborators.
Variable experiments : nat → Experiment.

Lemma update_path_gs_kept data :
  preserves gs_kept
    (new_data ← _get_data_for_update experiments data;
     match new_data with
     | Some new_data => _update_current_model collab experiments new_data
     | None => mret tt
     end).
Proof.
  unfold _get_data_for_update, _find_trials_completed_since_last_gen,
    _update_current_model, self_experiment.
  assert (∀ c, preserves gs_kept (record c)) by (by intros c st).
  preserves_auto.
Qed.

(** A fit that returns leaves its model on the strategy. *)
Lemma fit_current_model_sets data st st' :
  _fit_current_model collab experiments data st = (Ok tt, st') →
  is_Some (_model (gs st')).
Proof.
  unfold _fit_current_model. intros H.
  apply bind_Ok in H as (? & ? & _ & H). apply bind_Ok in H as (? & ? & _ & H).
  apply bind_Ok in H as (? & ? & _ & H). apply bind_Ok in H as (? & ? & _ & H).
  apply bind_Ok in H as (? & ? & _ & H). apply bind_Ok in H as (? & ? & _ & H).
  apply bind_Ok in H as (fitted & ? & _ & H).
  unfold modify_gs in H. unfold_monad. injection H as <-. simpl. eauto.
Qed.

Lemma current_step_Ok st curr st' :
  current_step st = (Ok curr, st') →
  st' = st ∧ _steps (gs st) !! _curr (gs st) = Some curr.
Proof.
  unfold current_step. unfold_monad.
  destruct (_steps (gs st) !! _curr (gs st)); [| done]. by intros [= <- <-].
Qed.

Lemma save_seen_Ok st st' :
  _save_seen_trial_indices experiments st = (Ok tt, st') →
  ∃ r, _experiment (gs st) = Some r
       ∧ st' = {| gs := set_seen (Some (trial_indices_by_status (experiments r)))
                                 (gs st);
                  calls := calls st; heap := heap st |}.
Proof.
  unfold _save_seen_trial_indices, self_experiment, modify_gs. unfold_monad.
  destruct (_experiment (gs st)) as [r |]; [| done]. intros [= <-]. eauto.
Qed.

(** A cycle that returns leaves a fitted model on the strategy and, as the
    trials seen, those of the experiment. *)
Lemma fit_or_update_returns data st st1 :
  _fit_or_update_current_model collab experiments data st = (Ok tt, st1) →
  ∃ r, _experiment (gs st1) = Some r
       ∧ _seen_trial_indices_by_status (gs st1)
         = Some (trial_indices_by_status (experiments r))
       ∧ is_Some (_model (gs st1)).
Proof.
  unfold _fit_or_update_current_model. intros H.
  apply bind_Ok in H as (st0 & s & Hget & H). unfold get in Hget.
  injection Hget as <- <-.
  apply bind_Ok in H as (curr & s & Hcurr & H).
  apply current_step_Ok in Hcurr as [-> Hcurr].
  apply bind_Ok in H as ([] & st2 & Hcycle & Hsave).
  apply save_seen_Ok in Hsave as (r & Hr & ->). simpl.
  exists r. split; [done |]. split; [done |].
  destruct (bool_decide (is_Some (_model (gs st))) && use_update curr) eqn:Hpath.
  - apply andb_true_iff in Hpath as [Hm _]. apply bool_decide_eq_true in Hm.
    pose proof (update_path_gs_kept data st) as Hkept.
    rewrite Hcycle in Hkept. unfold gs_kept in Hkept. simpl in Hkept.
    by rewrite Hkept.
  - apply bind_Ok in Hcycle as (? & ? & _ & Hcycle).
    apply bind_Ok in Hcycle as (? & ? & Hlift & Hcycle).
    unfold lift in Hlift. injection Hlift as _ <-.
    by apply fit_current_model_sets in Hcycle.
Qed.

End second_cycle.

Lemma get_data_for_fit_not_empty (self : GenerationStep) e passed d :
  get_data_for_fit self e passed true = Ok d → d ≠ [].
Proof.
  unfold get_data_for_fit. unfold mbind, Result_bind.
  match goal with |- context [match ?x with Ok _ => _ | Raise _ => _ end] =>
    destruct x as [data |] end; [| done].
  rewrite andb_true_r. destruct data; simpl; [done |]. by intros [= <-].
Qed.

(** X12. After a step that requires observations no model is fitted on
    empty data: in a cycle of [_fit_or_update_current_model] on a step whose
    predecessor has a positive [min_trials_observed], every call of [fit] that
    is made is made on data that is not empty. *)
Theorem no_fit_on_empty_data (collab : Collaborators) (experiments : nat → Experiment)
    (data : option Data) (st : St) (k : nat) (previous : GenerationStep) :
  constructed (gs st) →
  _curr (gs st) = S k →
  _steps (gs st) !! k = Some previous →
  0 < min_trials_observed previous →
  calls_extend fits_on_data st
    (_fit_or_update_current_model collab experiments data st).2.
Proof.
  intros Hc Hk Hprev Hmin.
  destruct (constructed_current st Hc) as (curr & Hcurr & Hidx).
  apply (fit_or_update_extends collab experiments fits_on_data data st curr Hcurr).
  - done.
  - intros _ prev d m kw Hpos _ Hd. simpl.
    destruct Hpos as (pos & previous' & Hpy & ->);
      [apply Z.gtb_lt; rewrite Hidx, Hk; lia |].
    pose proof (py_index_nonneg _ _ _ _ Hpy) as Hp.
    apply py_index_Ok in Hpy. rewrite Hp in Hpy by (rewrite Hidx, Hk; lia).
    replace (Z.to_nat (index curr - 1)) with k in Hpy by (rewrite Hidx, Hk; lia).
    assert (previous' = previous) as -> by congruence.
    rewrite (proj2 (Z.gtb_lt _ _)) in Hd by lia.
    by apply get_data_for_fit_not_empty in Hd.
Qed.


(** X14. A cycle of [_fit_or_update_current_model] that returned has seen
    the trials of the experiment: on a step that uses [update], the next
    cycle on the same experiment returns and leaves the strategy, and the
    calls made to the model, as they are, whatever data it is passed. *)
Theorem next_cycle_changes_nothing (collab : Collaborators)
    (experiments : nat → Experiment) (data data' : option Data) (st st1 : St)
    (curr : GenerationStep) :
  _fit_or_update_current_model collab experiments data st = (Ok tt, st1) →
  _steps (gs st1) !! _curr (gs st1) = Some curr →
  use_update curr = true →
  _fit_or_update_current_model collab experiments data' st1 = (Ok tt, st1).
Proof.
  intros H Hcurr Hupd.
  apply fit_or_update_returns in H as (r & Hr & Hseen & Hm).
  unfold _fit_or_update_current_model.
  unfold mbind at 1. unfold M_bind at 1. unfold get at 1.
  unfold mbind at 1. unfold M_bind at 1. rewrite (current_step_eq _ _ Hcurr).
  rewrite Hupd, (bool_decide_true _ Hm). simpl andb. cbv iota.
  unfold mbind at 1. unfold M_bind at 1.
  unfold mbind at 1. unfold M_bind at 1.
  unfold _get_data_for_update.
  unfold mbind at 1. unfold M_bind at 1.
  rewrite (find_trials_eq experiments _ _ Hr), Hseen.
  assert (newly_completed (experiments r)
            (Some (trial_indices_by_status (experiments r))) = ∅) as ->
    by (unfold newly_completed; apply difference_diag_L).
  rewrite bool_decide_true by apply size_empty.
  unfold mret at 1 2. unfold M_ret at 1 2.
  unfold _save_seen_trial_indices.
  unfold mbind at 1. unfold M_bind at 1.
  rewrite (self_experiment_eq experiments _ _ Hr).
  unfold modify_gs, modify. f_equal.
  destruct st1 as [g c h]. simpl in *. f_equal.
  destruct g. simpl in *. by rewrite Hseen.
Qed.


Lemma get_data_for_fit_passed (self : GenerationStep) e passed previous d :
  get_data_for_fit self e (Some passed) previous = Ok d → d = passed.
Proof.
  unfold get_data_for_fit. unfold mbind, Result_bind.
  destruct (df_empty passed && previous); [done |]. by intros [= <-].
Qed.

(** X23. Data passed in is the data the model is fitted on: in a cycle of
    [_fit_or_update_current_model] that is given data, on a strategy that
    holds no model or on a step that does not use [update], every call made
    is a call of [fit] on that very data, not on data of the experiment. *)
Theorem fit_on_passed_data (collab : Collaborators) (experiments : nat → Experiment)
    (passed : Data) (st : St) (curr : GenerationStep) :
  _steps (gs st) !! _curr (gs st) = Some curr →
  _model (gs st) = None ∨ use_update curr = false →
  calls_extend (λ c, ∃ model kwargs, c = CallFit model passed kwargs) st
    (_fit_or_update_current_model collab experiments (Some passed) st).2.
Proof.
  intros Hcurr Hpath.
  apply (fit_or_update_extends collab experiments _ (Some passed) st curr Hcurr).
  - intros [m Hm] Hupd. destruct Hpath; congruence.
  - intros _ previous d model kwargs _ _ Hd.
    apply get_data_for_fit_passed in Hd as ->. eauto.
Qed.

(** ** A step of unlimited budget *)

#[global] Instance stays_preorder : PreOrder stays.
Proof.
  split.
  - by intros st.
  - intros s1 s2 s3 [H1 H2] [H1' H2']. split; congruence.
Qed.

Lemma evolves_stays st st' : evolves st st' → stays st st'.
Proof. by intros (? & ? & _). Qed.

Lemma on_current_node_stays {A} (m : M NodeSt A) : preserves stays (on_current_node m).
Proof. intros st. apply evolves_stays, on_current_node_evolves. Qed.

Lemma same_gs_stays st st' : same_gs st st' → stays st st'.
Proof. intros [H _]. unfold stays. by rewrite H. Qed.

Lemma stays_on_unlimited_step st st' :
  stays st st' → on_unlimited_step st → on_unlimited_step st'.
Proof.
  intros [Hdef Hcurr] (curr & Hlook & Hn & Hc). unfold on_unlimited_step.
  rewrite Hcurr.
  assert ((step_definition <$> _steps (gs st')) !! _curr (gs st)
          = Some (step_definition curr)) as H
    by (by rewrite Hdef, list_lookup_fmap, Hlook).
  rewrite list_lookup_fmap in H.
  destruct (_steps (gs st') !! _curr (gs st)) as [curr' |]; [| done].
  exists curr'. split; [done |].
  assert (step_definition curr' = step_definition curr) as Hd
    by (apply (inj Some); exact H).
  change (num_trials (step_definition curr') = -1
          ∧ completion_criteria (step_definition curr') = []).
  by rewrite Hd.
Qed.

Section unlimited.
Variable collab : Collaborators.
Variable experiments : nat → Experiment.

(** On such a step the check of the transition returns at once. *)
Lemma maybe_move_unlimited flag st :
  on_unlimited_step st →
  _maybe_move_to_next_step collab experiments flag st = (Ok false, st).
Proof.
  intros (curr & Hcurr & Hn & Hc).
  rewrite (maybe_move_unfold collab experiments flag st curr Hcurr).
  unfold num_trials_to_gen_and_complete. rewrite bool_decide_true by done.
  by rewrite Hc.
Qed.

Lemma gen_multiple_stays experiment num data n pending kwargs st :
  on_unlimited_step st →
  stays st (_gen_multiple collab experiments experiment num data n pending
              kwargs st).2.
Proof.
  intros Hu. rewrite gen_multiple_stages, bind_state.
  rewrite experiment_setter_result.
  destruct (match _experiment (gs st) with Some _ => _ | None => _ end);
    [reflexivity |].
  cbn [fst snd].
  set (st1 := {| gs := set_experiment (Some experiment) (gs st);
                 calls := calls st; heap := heap st |}).
  assert (stays st st1) as H1 by done.
  rewrite bind_state, (maybe_move_unlimited true st1)
    by (by apply (stays_on_unlimited_step st)).
  cbn [fst snd]. etransitivity; [exact H1 |].
  assert (preserves stays
            ('(turns, copy) ← limits_and_copy collab experiments num data pending;
             gen_loop collab experiments (Z.to_nat turns) experiment n copy kwargs []))
    as Htail; [| apply Htail].
  apply preserves_bind; [apply _ | | intros [turns copy]].
  - apply limits_and_copy_keeps; keeps_by (@on_current_node_stays) same_gs_stays.
  - apply gen_loop_keeps_relation; keeps_by (@on_current_node_stays) same_gs_stays.
Qed.

(** On such a step the limit is read without a change of the strategy, and
    the optimization is not completed. *)
Lemma limit_unlimited st :
  on_unlimited_step st →
  ∃ r, current_generator_run_limit collab experiments st = (r, st)
       ∧ ∀ limit, r ≠ Ok (limit, true).
Proof.
  intros Hu. pose proof Hu as (curr & Hcurr & Hn & Hc).
  unfold current_generator_run_limit.
  unfold mbind at 1. unfold M_bind at 1. unfold try_except.
  unfold mbind at 1. unfold M_bind at 1.
  rewrite (maybe_move_unlimited false st Hu).
  unfold mret at 1. unfold M_ret at 1. cbv iota beta.
  unfold mbind at 1. unfold M_bind at 1. rewrite (current_step_eq _ _ Hcurr).
  unfold_monad. unfold num_trials_to_gen_and_complete.
  rewrite bool_decide_true by done. simpl.
  destruct (num_remaining_trials_until_max_parallelism _ _ _) as [[until |] |];
    simpl; (eexists; split; [done | intros limit; discriminate]).
Qed.

Lemma attempt_stays a st :
  on_unlimited_step st → stays st (attempt collab experiments a st).
Proof.
  intros Hu. destruct a as [experiment data n pending kwargs
                           | experiment num data n pending kwargs |]; simpl.
  - unfold gen. rewrite bind_state.
    pose proof (gen_multiple_stays experiment 1 data n pending kwargs st Hu) as H.
    destruct (_gen_multiple _ _ _ _ _ _ _ _ _) as [[runs | ?] st1]; simpl in *;
      [| done].
    unfold mbind, M_bind, lift. by destruct (py_index runs 0) as [[] |].
  - by apply gen_multiple_stays.
  - destruct (limit_unlimited st Hu) as (r & -> & _). reflexivity.
Qed.

End unlimited.

(** X15. A step of unlimited budget without completion criteria is never
    left: whatever calls of [gen], [_gen_multiple] and
    [current_generator_run_limit] are made on a strategy that stands on such
    a step, on whatever experiments, the strategy stands on that step
    afterwards, and [current_generator_run_limit] does not report the
    optimization as completed. *)
Theorem unlimited_step_never_left (collab : Collaborators)
    (trace : list ((nat → Experiment) * (PHeap → PHeap) * Attempt)) (st : St) :
  on_unlimited_step st →
  let st' := run collab trace st in
  _curr (gs st') = _curr (gs st)
  ∧ on_unlimited_step st'
  ∧ ∀ experiments limit,
      (current_generator_run_limit collab experiments st').1 ≠ Ok (limit, true).
Proof.
  intros Hu. cbv zeta.
  assert (stays st (run collab trace st)) as Hstays.
  { revert st Hu. induction trace as [| [[experiments caller] a] rest IH];
      intros st Hu; simpl; [reflexivity |].
    assert (stays st (with_heap (caller (heap st)) st)) as Hheap by done.
    assert (stays st (attempt collab experiments a (with_heap (caller (heap st)) st)))
      as Hone.
    { etransitivity; [exact Hheap |]. apply attempt_stays.
      by apply (stays_on_unlimited_step st). }
    etransitivity; [exact Hone |]. apply IH.
    by apply (stays_on_unlimited_step st). }
  pose proof (stays_on_unlimited_step _ _ Hstays Hu) as Hu'.
  split; [apply Hstays |]. split; [done |].
  intros experiments limit.
  destruct (limit_unlimited collab experiments _ Hu') as (r & -> & Hr). apply Hr.
Qed.

(** ** What no call writes *)

(** A relation that every write of the strategy keeps is kept by every call,
    and by every sequence of calls. *)
Section calls_keep.
Variable collab : Collaborators.
Variable R : St → St → Prop.
Context `{!PreOrder R}.
Hypothesis R_fit : ∀ experiments data,
  preserves R (_fit_current_model collab experiments data).
Hypothesis R_gen : ∀ n pending max_draws arms kwargs,
  preserves R (on_current_node (node_gen collab n pending max_draws arms kwargs)).
Hypothesis R_record : ∀ c, preserves R (record c).
Hypothesis R_seen : ∀ o, preserves R (modify_gs (set_seen o)).
Hypothesis R_store : ∀ st st', same_gs st st' → R st st'.
Hypothesis R_runs :
  ∀ f, preserves R (modify_gs (λ self, set_generator_runs (f self) self)).
Hypothesis R_move : ∀ pos st, R st (moved_to pos st).
Hypothesis R_experiment : ∀ o, preserves R (modify_gs (set_experiment o)).
Hypothesis R_heap : ∀ h st, R st (with_heap h st).

Lemma experiment_setter_keeps experiments experiment :
  preserves R (experiment_setter experiments experiment).
Proof. unfold experiment_setter. preserves_auto. Qed.

Lemma maybe_move_keeps experiments flag :
  preserves R (_maybe_move_to_next_step collab experiments flag).
Proof.
  intros st.
  destruct (maybe_move_outcome collab experiments flag st)
    as [-> | (? & pos & ? & _ & _ & ->)]; [reflexivity | apply R_move].
Qed.

Lemma gen_multiple_keeps experiments experiment num data n pending kwargs :
  preserves R (_gen_multiple collab experiments experiment num data n pending kwargs).
Proof.
  intros st. rewrite gen_multiple_stages.
  assert (preserves R
            (experiment_setter experiments experiment;;
             _maybe_move_to_next_step collab experiments true;;
             '(turns, copy) ← limits_and_copy collab experiments num data pending;
             gen_loop collab experiments (Z.to_nat turns) experiment n copy kwargs []))
    as H; [| apply H].
  pose proof experiment_setter_keeps. pose proof maybe_move_keeps.
  pose proof (limits_and_copy_keeps collab experiments R (R_fit experiments)
                R_record R_seen R_store).
  pose proof (λ remaining, gen_loop_keeps_relation collab experiments R R_gen R_store
                             R_runs remaining).
  preserves_auto.
Qed.

Lemma gen_keeps experiments experiment data n pending kwargs :
  preserves R (gen collab experiments experiment data n pending kwargs).
Proof. unfold gen. pose proof gen_multiple_keeps. preserves_auto. Qed.

Lemma current_generator_run_limit_keeps experiments :
  preserves R (current_generator_run_limit collab experiments).
Proof.
  unfold current_generator_run_limit. pose proof maybe_move_keeps.
  pose proof (current_step_keeps R). preserves_auto.
Qed.

Lemma attempt_keeps experiments a st : R st (attempt collab experiments a st).
Proof.
  destruct a; simpl.
  - apply gen_keeps.
  - apply gen_multiple_keeps.
  - apply current_generator_run_limit_keeps.
Qed.

Lemma run_keeps trace : ∀ st, R st (run collab trace st).
Proof.
  induction trace as [| [[experiments caller] a] rest IH]; intros st; simpl;
    [reflexivity |].
  etransitivity; [| apply IH].
  etransitivity; [apply (R_heap (caller (heap st)) st) | apply attempt_keeps].
Qed.

End calls_keep.

#[global] Instance same_identity_preorder : PreOrder same_identity.
Proof.
  split.
  - by intros st.
  - intros s1 s2 s3 [H1 H2] [H1' H2']. split; congruence.
Qed.





(** ** The transitions between models *)

Lemma sum_snoc (l : list Z) (x : Z) :
  foldr Z.add 0 (l ++ [x]) = foldr Z.add 0 l + x.
Proof. induction l as [| y l IH]; simpl; lia. Qed.

Lemma model_transitions_length (g : GenerationStrategy) :
  length (model_transitions g) = pred (length (_steps g)).
Proof.
  unfold model_transitions. cbv zeta. rewrite removelast_firstn_len.
  rewrite length_take, !length_fmap, length_seq. lia.
Qed.

Lemma model_transitions_lookup (g : GenerationStrategy) (i : nat) :
  (S i < length (_steps g))%nat →
  model_transitions g !! i
  = Some (foldr Z.add 0 (take (S i) (num_trials <$> _steps g))).
Proof.
  intros Hi. unfold model_transitions. cbv zeta. rewrite removelast_firstn_len.
  rewrite !length_fmap, length_seq.
  rewrite lookup_take_lt by lia. rewrite list_lookup_fmap.
  rewrite lookup_seq_lt by lia. done.
Qed.

(** X16. [model_transitions] has an entry for every step but the last; the
    first entry is the budget of the first step, and every further entry is
    the entry before it plus the budget of its own step: entry [i] is the
    number of trials after which the strategy has left step [i]. *)
Theorem model_transitions_accumulate (g : GenerationStrategy) :
  length (model_transitions g) = pred (length (_steps g))
  ∧ (∀ first, _steps g !! 0%nat = Some first → (1 < length (_steps g))%nat →
              model_transitions g !! 0%nat = Some (num_trials first))
  ∧ (∀ i t step, model_transitions g !! i = Some t →
                 _steps g !! S i = Some step →
                 (S (S i) < length (_steps g))%nat →
                 model_transitions g !! S i = Some (t + num_trials step)).
Proof.
  split; [apply model_transitions_length |]. split.
  - intros first Hfirst Hlen. rewrite model_transitions_lookup by lia.
    destruct (_steps g) as [| s rest]; [done |]. injection Hfirst as <-.
    simpl. f_equal. lia.
  - intros i t step Ht Hstep Hlen.
    rewrite model_transitions_lookup in Ht by lia. injection Ht as <-.
    rewrite model_transitions_lookup by lia. f_equal.
    rewrite (take_S_r _ (S i) (num_trials step))
      by (by rewrite list_lookup_fmap, Hstep).
    apply sum_snoc.
Qed.

(** ** The model the strategy holds *)

#[global] Instance same_models_preorder : PreOrder same_models.
Proof. split; unfold same_models; [by intros st | intros s1 s2 s3; congruence]. Qed.

#[global] Instance unchanged_preorder : PreOrder unchanged.
Proof. split; unfold unchanged; [by intros st | intros s1 s2 s3; congruence]. Qed.

Lemma curr_model_spec_unchanged : preserves unchanged curr_model_spec.
Proof. unfold curr_model_spec, current_step. preserves_auto. Qed.

Lemma curr_model_spec_result st :
  (curr_model_spec st).1
  = match _steps (gs st) !! _curr (gs st) with
    | None => Raise DanglingReference
    | Some curr =>
        match model_specs (node curr) with
        | [] => Raise IndexError
        | model_spec :: _ => Ok model_spec
        end
    end.
Proof.
  unfold curr_model_spec, current_step. unfold_monad.
  destruct (_steps (gs st) !! _curr (gs st)) as [curr |]; simpl; [| done].
  unfold py_index. cbv zeta. rewrite (bool_decide_false (0 < 0)) by lia.
  rewrite bool_decide_false by lia.
  by destruct (model_specs (node curr)).
Qed.

(** The property [model], by the model specs of the steps. *)
Lemma model_property_result st :
  (model_property st).1
  = match (models_view st).1.1 !! (models_view st).1.2 with
    | None => Raise DanglingReference
    | Some [] => Raise IndexError
    | Some (model_spec :: _) => Ok (_fitted_model model_spec)
    end.
Proof.
  unfold model_property. unfold mbind, M_bind.
  pose proof (curr_model_spec_result st) as H.
  destruct (curr_model_spec st) as [[model_spec | e] st1]; simpl in *.
  all: rewrite list_lookup_fmap.
  all: destruct (_steps (gs st) !! _curr (gs st)) as [curr |]; simpl;
    [destruct (model_specs (node curr)) |]; congruence.
Qed.

Lemma same_models_kept st st' : same_models st st' → model_kept st → model_kept st'.
Proof.
  intros Hview [Hone Hcur]. split.
  - intros i step Hi.
    assert ((models_view st').1.1 !! i = Some (model_specs (node step))) as H
      by (simpl; by rewrite list_lookup_fmap, Hi).
    rewrite Hview in H. simpl in H. rewrite list_lookup_fmap in H.
    destruct (_steps (gs st) !! i) as [step0 |] eqn:Hi0; [| done].
    injection H as <-. by apply (Hone i).
  - intros m Hm.
    assert (_model (gs st) = Some m) as Hm0.
    { change ((models_view st).2 = Some m). rewrite <- Hview. done. }
    rewrite model_property_result, Hview, <- model_property_result. by apply Hcur.
Qed.

Lemma same_models_keeping st st' : same_models st st' → keeping model_kept st st'.
Proof. intros H Hk. by apply (same_models_kept st). Qed.

(** Generation writes no model spec. *)
Lemma gen_draws_nd collab pos n pending max_draws arms kwargs fuel :
  ∀ n_gen_draws st,
    nd (gen_draws collab fuel pos n pending max_draws arms kwargs n_gen_draws st).2
    = nd st.
Proof.
  induction fuel as [| fuel IH]; intros n_gen_draws st; simpl; [done |].
  unfold mbind, M_bind, get, from_option.
  destruct (model_specs (nd st) !! pos) as [model_spec |]; simpl; [| done].
  unfold model_spec_gen, mbind, M_bind, from_option.
  destruct (_fitted_model model_spec) as [fitted |]; simpl; [| done].
  unfold lift. destruct (model_gen collab _) as [gr | e]; simpl; [| done].
  destruct (should_deduplicate (nd st) && truthy arms
            && has_duplicate_arm (default ∅ arms) gr); simpl; [| done].
  destruct (n_gen_draws + 1 >? max_draws); simpl; [done |].
  by rewrite IH.
Qed.

Lemma node_gen_model_specs collab n pending max_draws arms kwargs st :
  model_specs (nd (node_gen collab n pending max_draws arms kwargs st).2)
  = model_specs (nd st).
Proof.
  unfold node_gen. rewrite bind_state.
  pose proof (model_spec_to_gen_from_quiet collab st) as (_ & _ & Hspecs).
  destruct (model_spec_to_gen_from collab st) as [[pos | e] st1];
    cbn [fst snd] in *; [| done].
  by rewrite gen_draws_nd.
Qed.

Lemma on_current_node_same_models {A} (m : M NodeSt A) :
  (∀ nst, model_specs (nd (m nst).2) = model_specs (nd nst)) →
  preserves same_models (on_current_node m).
Proof.
  intros Hm st. unfold on_current_node, same_models, models_view.
  destruct (_steps (gs st) !! _curr (gs st)) as [step |] eqn:Hcurr; [| done].
  specialize (Hm {| nd := node step; nlog := calls st |}).
  destruct (m _) as [r nst]. simpl in *. do 2 f_equal.
  rewrite list_fmap_insert. simpl. rewrite Hm.
  apply list_insert_id. by rewrite list_lookup_fmap, Hcurr.
Qed.

Section model_kept.
Variable collab : Collaborators.

(** The fit of a node of one model spec. *)
Lemma node_fit_single e data kwargs nst model_spec :
  model_specs (nd nst) = [model_spec] →
  ∃ r nd',
    node_fit collab e data kwargs nst
    = (r, {| nd := nd'; nlog := nlog nst ++ [fit_call data kwargs model_spec] |})
    ∧ ((r = Ok tt
        ∧ model_specs nd'
          = [set_fitted_model (Some (length (nlog nst))) model_spec])
       ∨ ((∃ exn, r = Raise exn) ∧ model_specs nd' = [model_spec])).
Proof.
  intros Hspecs. unfold node_fit, modify_nd.
  unfold mbind at 1. unfold M_bind at 1. unfold modify at 1.
  unfold mbind at 1. unfold M_bind at 1. unfold get at 1.
  cbn [nd nlog set_model_spec_to_gen_from model_specs]. rewrite Hspecs.
  cbn [length seq fit_each].
  unfold mbind at 1. unfold M_bind at 1.
  destruct (model_spec_fit_result collab 0 e data kwargs
              {| nd := set_model_spec_to_gen_from None (nd nst); nlog := nlog nst |}
              model_spec) as (r & nd' & Heq & Hcases).
  { simpl. by rewrite Hspecs. }
  rewrite Heq. cbn [nlog] in *.
  destruct Hcases as [[-> ->] | [[exn ->] ->]].
  - eexists _, _. split; [done |]. left. split; [done |].
    simpl. by rewrite Hspecs.
  - eexists _, _. split; [done |]. right. split; [eauto |]. done.
Qed.

(** The fit of the current model leaves the model it fitted on the strategy,
    and the model that was there if it fails. *)
Lemma fit_current_model_kept experiments data :
  preserves (keeping model_kept) (_fit_current_model collab experiments data).
Proof.
  intros st Hkept. pose proof Hkept as [Hone Hcur].
  destruct (_steps (gs st) !! _curr (gs st)) as [curr |] eqn:Hcurr.
  2:{ unfold _fit_current_model, current_step.
      unfold mbind, M_bind, get, from_option. rewrite Hcurr. exact Hkept. }
  unfold _fit_current_model. rewrite bind_state. unfold get. cbn [fst snd].
  rewrite bind_state, (current_step_eq st curr Hcurr). cbn [fst snd].
  destruct (model_specs (node curr)) as [| model_spec [| ? ?]] eqn:Hspecs;
    [by specialize (Hone _ _ Hcurr); rewrite Hspecs in Hone
    | | by specialize (Hone _ _ Hcurr); rewrite Hspecs in Hone].
  rewrite bind_state.
  match goal with |- context [(?m st).1] =>
    assert (preserves unchanged m) as Hstate end.
  { pose proof curr_model_spec_unchanged.
    destruct (last (_generator_runs (gs st))) as [lgr |]; preserves_auto.
    all: destruct (_ && _); preserves_auto.
    all: destruct (_ || _); preserves_auto. }
  match goal with |- context [(?m st).1] =>
    specialize (Hstate st); destruct (m st) as [[model_state | ?] st0] end;
    unfold unchanged in Hstate; simpl in Hstate; subst st0; cbn [fst snd];
    [| done].
  destruct (_experiment (gs st)) as [r |] eqn:Hr.
  2:{ rewrite bind_state. unfold self_experiment, mbind, M_bind, get, raise.
      rewrite Hr. exact Hkept. }
  rewrite bind_state, (self_experiment_eq experiments st r Hr). cbn [fst snd].
  rewrite bind_state. unfold on_current_node. rewrite Hcurr.
  destruct (node_fit_single (experiments r) data model_state
              {| nd := node curr; nlog := calls st |} model_spec Hspecs)
    as (res & nd' & -> & Hcases).
  cbn [fst snd nd nlog].
  set (st1 := {| gs := set_steps (<[_curr (gs st) := set_node nd' curr]>
                                    (_steps (gs st))) (gs st);
                 calls := calls st ++ [fit_call data model_state model_spec];
                 heap := heap st |}).
  destruct Hcases as [[-> Hfit] | [[exn ->] Hsame]].
  - rewrite bind_state.
    pose proof (curr_model_spec_unchanged st1) as Hst1.
    pose proof (curr_model_spec_result st1) as Hres.
    destruct (curr_model_spec st1) as [res st1']. unfold unchanged in Hst1.
    cbn [fst snd] in Hst1, Hres. subst st1'. cbn [fst snd].
    assert (_steps (gs st1) !! _curr (gs st1) = Some (set_node nd' curr)) as Hcurr1.
    { simpl. apply list_lookup_insert_eq. by apply lookup_lt_Some in Hcurr. }
    rewrite Hcurr1 in Hres. simpl in Hres. rewrite Hfit in Hres. subst res.
    unfold mbind, M_bind, from_option, mret, M_ret, modify_gs, modify. simpl.
    split.
    + intros i step Hi. simpl in Hi.
      destruct (decide (i = _curr (gs st))) as [-> | Hne].
      * rewrite list_lookup_insert_eq in Hi by (by apply lookup_lt_Some in Hcurr).
        injection Hi as <-. simpl. by rewrite Hfit.
      * rewrite list_lookup_insert_ne in Hi by done. by apply (Hone i).
    + intros m Hm. simpl in Hm. injection Hm as <-.
      rewrite model_property_result. simpl.
      rewrite list_lookup_fmap, list_lookup_insert_eq
        by (by apply lookup_lt_Some in Hcurr).
      simpl. by rewrite Hfit.
  - apply (same_models_kept st); [| done].
    unfold same_models, models_view. simpl. do 2 f_equal.
    rewrite list_fmap_insert. simpl. rewrite Hsame, <- Hspecs.
    apply list_insert_id. by rewrite list_lookup_fmap, Hcurr.
Qed.

End model_kept.

(** The invariant, over sequences of calls. *)
Lemma model_kept_run (collab : Collaborators)
    (trace : list ((nat → Experiment) * (PHeap → PHeap) * Attempt)) (st : St) :
  keeping model_kept st (run collab trace st).
Proof.
  apply run_keeps; try apply _.
  - intros experiments data. apply fit_current_model_kept.
  - intros n pending max_draws arms kwargs st0. apply same_models_keeping.
    apply on_current_node_same_models. intros nst. apply node_gen_model_specs.
  - intros c st0. by apply same_models_keeping.
  - intros o st0. by apply same_models_keeping.
  - intros st0 st1 [Hgs _]. apply same_models_keeping.
    unfold same_models, models_view. by rewrite Hgs.
  - intros f st0. by apply same_models_keeping.
  - intros pos st0 [Hone0 _]. split; [exact Hone0 | by intros m].
  - intros o st0. by apply same_models_keeping.
  - intros h st0. by apply same_models_keeping.
Qed.

Lemma number_from_nodes steps : ∀ idx,
  (λ s : GenerationStep, node s) <$> number_from idx steps
  = (λ s : GenerationStep, node s) <$> steps.
Proof. induction steps as [| s rest IH]; intros idx; simpl; [done | by rewrite IH]. Qed.

Lemma post_init_one_spec (fields step : GenerationStep) :
  __post_init__ fields = Ok step → length (model_specs (node step)) = 1%nat.
Proof.
  rewrite post_init_accepts. destruct (step_accepted fields); [| done].
  by intros [= <-].
Qed.

(** X18. The model a strategy holds is the fitted model of its current
    step: on a strategy constructed from steps as [GenerationStep] builds
    them, after any sequence of calls of [gen], [_gen_multiple] and
    [current_generator_run_limit], whether they returned or raised, [_model]
    is unset or is what the property [model] returns, and every step still
    has its one model spec. *)
Theorem model_is_fitted_model_of_current_step (collab : Collaborators)
    (fields steps : list GenerationStep) (name : option string)
    (g : GenerationStrategy)
    (trace : list ((nat → Experiment) * (PHeap → PHeap) * Attempt)) :
  Forall2 (λ f s, __post_init__ f = Ok s) fields steps →
  __init__ steps name = Ok g →
  let st' := run collab trace (no_calls_no_heap g) in
  model_is_current st' ∧ one_spec_each st'.
Proof.
  intros Hsteps Hinit. cbv zeta.
  assert (model_kept (no_calls_no_heap g)) as Hkept.
  { rewrite init_result in Hinit.
    destruct (steps_ok _ _ _); [| done]. destruct steps as [| s rest] eqn:Hs; [done |].
    injection Hinit as <-. split; [| by intros m].
    intros i step Hi. unfold no_calls_no_heap in Hi. cbn [gs _steps] in Hi.
    change (set_index 0 s :: number_from (0 + 1) rest)
      with (number_from 0 (s :: rest)) in Hi.
    assert (((λ s : GenerationStep, node s) <$> number_from 0 (s :: rest)) !! i
            = Some (node step)) as Hn by (by rewrite list_lookup_fmap, Hi).
    rewrite number_from_nodes, list_lookup_fmap in Hn.
    destruct ((s :: rest) !! i) as [s0 |] eqn:Hi0; [| done].
    injection Hn as <-.
    destruct (Forall2_lookup_r _ _ _ _ _ Hsteps Hi0) as (f & _ & Hf).
    by apply (post_init_one_spec f). }
  destruct (model_kept_run collab trace _ Hkept) as [Hone Hcur]. done.
Qed.

(** ** Deduplication against the arms of the experiment *)

#[global] Instance same_deduplication_preorder : PreOrder same_deduplication.
Proof.
  split; unfold same_deduplication; [by intros st | intros s1 s2 s3; congruence].
Qed.

Lemma node_gen_should_deduplicate collab n pending max_draws known kwargs st :
  should_deduplicate (nd (node_gen collab n pending max_draws known kwargs st).2)
  = should_deduplicate (nd st).
Proof.
  unfold node_gen. rewrite bind_state.
  pose proof (model_spec_to_gen_from_quiet collab st) as (_ & Hd & _).
  destruct (model_spec_to_gen_from collab st) as [[pos | e] st1];
    cbn [fst snd] in *; [| done].
  by rewrite gen_draws_nd.
Qed.

Lemma node_gen_same_deduplication collab n pending max_draws known kwargs :
  preserves same_deduplication
    (on_current_node (node_gen collab n pending max_draws known kwargs)).
Proof.
  intros st. unfold on_current_node, same_deduplication, current_deduplicates.
  destruct (_steps (gs st) !! _curr (gs st)) as [step |] eqn:Hcurr;
    [| simpl; by rewrite Hcurr].
  pose proof (node_gen_should_deduplicate collab n pending max_draws known kwargs
                {| nd := node step; nlog := calls st |}) as Hd.
  destruct (node_gen _ _ _ _ _ _ _) as [r nst]. simpl in *.
  rewrite list_lookup_insert_eq by (by apply lookup_lt_Some in Hcurr). done.
Qed.

Lemma same_gs_same_deduplication st st' : same_gs st st' → same_deduplication st st'.
Proof.
  intros [H _]. unfold same_deduplication, current_deduplicates. by rewrite H.
Qed.

Section deduplication.
Variable collab : Collaborators.
Variable experiments : nat → Experiment.

Lemma step_gen_new_arms n pending known kwargs st gr st' :
  current_deduplicates st = true →
  step_gen collab n pending (Some known) kwargs st = (Ok gr, st') →
  new_arms known gr.
Proof.
  unfold current_deduplicates, step_gen. intros Hdedup.
  unfold mbind at 1. unfold M_bind at 1. unfold current_step.
  unfold mbind at 1. unfold M_bind at 1. unfold get at 1.
  destruct (_steps (gs st) !! _curr (gs st)) as [curr |] eqn:Hcurr; [| done].
  cbn [from_option]. unfold mret at 1. unfold M_ret at 1.
  unfold mbind at 1. unfold M_bind at 1. unfold get at 1.
  unfold mbind at 1. unfold M_bind at 1. unfold on_current_node. rewrite Hcurr.
  destruct (node_gen _ _ _ _ _ _ _) as [[gr0 | e] nst] eqn:Hgen; [| done].
  unfold mret, M_ret. intros [= <- <-].
  apply node_gen_no_duplicate in Hgen; [| done].
  intros arm Harm. by apply (has_duplicate_arm_false known gr0 Hgen).
Qed.

Lemma gen_loop_same_deduplication remaining experiment n pending kwargs runs :
  preserves same_deduplication
    (gen_loop collab experiments remaining experiment n pending kwargs runs).
Proof.
  apply gen_loop_keeps_relation; try done; try apply _.
  - apply node_gen_same_deduplication.
  - apply same_gs_same_deduplication.
Qed.

Lemma keep_run_same_deduplication experiment pending gr :
  preserves same_deduplication (keep_run experiments experiment pending gr).
Proof.
  unfold keep_run.
  pose proof (λ e p g, preserves_weaken _ _ _ same_gs_same_deduplication
                         (extend_pending_observations_same_gs e p g)).
  preserves_auto.
Qed.

Lemma gen_loop_new_arms experiment n pending kwargs remaining :
  ∀ acc st runs st',
    current_deduplicates st = true →
    Forall (new_arms (arms_by_signature (experiments experiment))) acc →
    gen_loop collab experiments remaining experiment n pending kwargs acc st
    = (Ok runs, st') →
    Forall (new_arms (arms_by_signature (experiments experiment))) runs.
Proof.
  induction remaining as [| remaining IH]; intros acc st runs st' Hdedup Hacc.
  - simpl. by intros [= <- <-].
  - rewrite gen_loop_unfold.
    pose proof (step_gen_new_arms (Some n) pending
                  (arms_by_signature (experiments experiment)) kwargs st) as Hnew.
    pose proof (step_gen_keeps collab same_deduplication
                  (node_gen_same_deduplication collab) (Some n) pending
                  (Some (arms_by_signature (experiments experiment))) kwargs st)
      as Hd1.
    destruct (step_gen _ _ _ _ _ st) as [[gr | e] st1]; simpl in Hd1.
    + specialize (Hnew gr st1 Hdedup eq_refl).
      pose proof (keep_run_same_deduplication experiment pending gr st1) as Hd2.
      destruct (keep_run _ _ _ _ st1) as [[[] | e] st2]; simpl in Hd2; [| done].
      apply IH.
      * unfold same_deduplication in *. congruence.
      * apply Forall_app. split; [done |]. by constructor.
    + case_bool_decide; [| done]. case_bool_decide; [done |]. by intros [= <- <-].
Qed.

End deduplication.

(** X21. On a step that deduplicates, the generator runs [_gen_multiple]
    returns have no arm that is on the experiment: none of their arms has a
    signature among [experiment.arms_by_signature]. *)
Theorem gen_multiple_returns_new_arms (collab : Collaborators)
    (experiments : nat → Experiment) (experiment : nat) (num_generator_runs : Z)
    (data : option Data) (n : Z) (pending_observations : option nat)
    (model_gen_kwargs : Kwargs) (st st' : St) (runs : list GeneratorRun) :
  _gen_multiple collab experiments experiment num_generator_runs data n
    pending_observations model_gen_kwargs st = (Ok runs, st') →
  current_deduplicates st' = true →
  Forall (new_arms (arms_by_signature (experiments experiment))) runs.
Proof.
  rewrite gen_multiple_stages. intros H Hdedup.
  apply bind_Ok in H as (? & st1 & _ & H). apply bind_Ok in H as (? & st2 & _ & H).
  apply bind_Ok in H as ([turns copy] & st3 & _ & H).
  pose proof (gen_loop_same_deduplication collab experiments (Z.to_nat turns)
                experiment n copy model_gen_kwargs [] st3) as Hsame.
  rewrite H in Hsame. unfold same_deduplication in Hsame. simpl in Hsame.
  apply (gen_loop_new_arms collab experiments experiment n copy model_gen_kwargs
           (Z.to_nat turns) [] st3 runs st'); [congruence | constructor | done].
Qed.

(** ** The further properties at concrete inputs *)

(** A strategy made of steps that the constructor accepts is as the
    constructor leaves it, on whichever of its steps it stands. *)
Lemma constructed_strategy_of steps curr experiment seen model :
  steps ≠ [] →
  steps_ok (Z.of_nat (length steps)) 0 steps = true →
  (curr < length steps)%nat →
  constructed (strategy_of steps curr experiment seen model).
Proof.
  intros Hne Hok Hlt. unfold constructed. cbn [strategy_of _steps _curr].
  rewrite number_from_length. repeat split.
  - by destruct steps.
  - by rewrite steps_ok_number_from.
  - intros i step Hi. apply number_from_lookup in Hi. lia.
  - done.
Qed.

(** The choice of X3 on a node of one model spec. *)
Lemma model_spec_to_gen_from_kept_witness :
  ∃ st', model_spec_to_gen_from quiet_collaborators dedup_start = (Ok 0%nat, st')
         ∧ _model_spec_to_gen_from (nd st') = Some 0%nat
         ∧ model_spec_to_gen_from quiet_collaborators st' = (Ok 0%nat, st').
Proof.
  eexists. split; [vm_compute; reflexivity |].
  apply (model_spec_to_gen_from_kept quiet_collaborators dedup_start).
  vm_compute. reflexivity.
Defined.

(** The step of X4: a call of [gen] that moves a strategy of two steps from
    the first to the second. *)
Lemma one_call_at_most_one_step_witness :
  let st' := attempt quiet_collaborators (λ _, one_running)
               (CallsGen 0 None 1 None ∅) two_steps in
  _curr (gs st') = _curr (gs two_steps) ∨ _curr (gs st') = S (_curr (gs two_steps)).
Proof.
  apply (one_call_at_most_one_step quiet_collaborators (λ _, one_running)
           (CallsGen 0 None 1 None ∅) two_steps constructed_two_steps).
Defined.


(** The error of X6: the limit of a strategy that has no experiment. *)
Lemma current_generator_run_limit_raises_witness :
  (current_generator_run_limit quiet_collaborators (λ _, empty_experiment) five_shot).1
  = Raise ValueError
  ∧ (ValueError = ValueError ∨ ValueError = IndexError
     ∨ ValueError = DanglingReference).
Proof.
  split; [vm_compute; reflexivity |].
  apply (current_generator_run_limit_raises quiet_collaborators
           (λ _, empty_experiment) five_shot ValueError).
  vm_compute. reflexivity.
Defined.

(** The batch of X8: of three runs asked for, the model has data for two. *)
Lemma gen_multiple_history_witness :
  ∃ runs st',
    _gen_multiple (needs_data_after 2) (λ _, empty_experiment) 0 3 None 1 None ∅
      five_shot = (Ok runs, st')
    ∧ _generator_runs (gs st') = _generator_runs (gs five_shot) ++ runs
    ∧ Forall (λ gr, gr_generation_step_index gr = current_index st') runs.
Proof.
  eexists _, _. split; [vm_compute; reflexivity |].
  apply (gen_multiple_history (needs_data_after 2) (λ _, empty_experiment) 0 3 None 1
           None ∅ five_shot).
  vm_compute. reflexivity.
Defined.

(** The batch of X9: seven runs asked of a step with a budget of five. *)
Lemma gen_multiple_within_limits_witness :
  ∃ runs st',
    _gen_multiple (needs_data_after 9) (λ _, empty_experiment) 0 7 None 1 None ∅
      five_shot = (Ok runs, st')
    ∧ Z.of_nat (length runs) ≤ Z.max 7 0
    ∧ ∃ curr,
        _steps (gs st') !! _curr (gs st') = Some curr
        ∧ (∀ cap, max_parallelism curr = Some cap →
                  num_running_trials curr empty_experiment
                  + Z.of_nat (length runs) ≤ cap)
        ∧ (enforce_num_trials curr = true → 0 < num_trials curr → runs ≠ [] →
           num_can_complete curr empty_experiment
           + Z.of_nat (length runs) ≤ num_trials curr).
Proof.
  eexists _, _. split; [vm_compute; reflexivity |].
  apply (gen_multiple_within_limits (needs_data_after 9) (λ _, empty_experiment) 0 7
           None 1 None ∅ five_shot).
  vm_compute. reflexivity.
Defined.

(** The run of X10. *)
Lemma gen_returns_last_generator_run_witness :
  ∃ generator_run st',
    gen (needs_data_after 9) (λ _, empty_experiment) 0 None 1 None ∅ five_shot
    = (Ok generator_run, st')
    ∧ _generator_runs (gs st') = _generator_runs (gs five_shot) ++ [generator_run]
    ∧ last_generator_run (gs st') = Ok (Some generator_run).
Proof.
  eexists _, _. split; [vm_compute; reflexivity |].
  apply (gen_returns_last_generator_run (needs_data_after 9) (λ _, empty_experiment)
           0 None 1 None ∅ five_shot).
  vm_compute. reflexivity.
Defined.


(** The cycle of X12 on the second of two steps, the first of which requires
    two observations, with no data attached to the experiment. *)
Lemma no_fit_on_empty_data_witness :
  calls_extend fits_on_data after_required
    (_fit_or_update_current_model quiet_collaborators (λ _, boundary_experiment)
       None after_required).2.
Proof.
  apply (no_fit_on_empty_data quiet_collaborators (λ _, boundary_experiment) None
           after_required 0 (set_index 0 (make_step 3 2 None false false))).
  - apply constructed_strategy_of; [done | reflexivity | simpl; lia].
  - reflexivity.
  - reflexivity.
  - vm_compute. reflexivity.
Defined.

(** The cycles of X14 on a step that uses [update]: the first updates the
    model with the row of trial 2, the second does nothing. *)
Lemma next_cycle_changes_nothing_witness :
  ∃ st1,
    _fit_or_update_current_model quiet_collaborators
      (λ _, three_completed [row_of 0; row_of 1; row_of 2]) None updating
    = (Ok tt, st1)
    ∧ _fit_or_update_current_model quiet_collaborators
        (λ _, three_completed [row_of 0; row_of 1; row_of 2]) None st1
      = (Ok tt, st1).
Proof.
  eexists. split; [vm_compute; reflexivity |].
  apply (next_cycle_changes_nothing quiet_collaborators
           (λ _, three_completed [row_of 0; row_of 1; row_of 2]) None None updating _
           (set_index 0 (make_step 5 0 None true false))).
  - vm_compute. reflexivity.
  - vm_compute. reflexivity.
  - reflexivity.
Defined.

(** The calls of X15 on the last step of two, of unlimited budget. *)
Lemma unlimited_step_never_left_witness :
  let st' := run quiet_collaborators
               [((λ _, one_running), id, CallsGen 0 None 1 None ∅);
                ((λ _, one_running), id, CallsCurrentGeneratorRunLimit)]
               on_last_step in
  _curr (gs st') = _curr (gs on_last_step)
  ∧ on_unlimited_step st'
  ∧ ∀ experiments limit,
      (current_generator_run_limit quiet_collaborators experiments st').1
      ≠ Ok (limit, true).
Proof.
  apply (unlimited_step_never_left quiet_collaborators
           [((λ _, one_running), id, CallsGen 0 None 1 None ∅);
            ((λ _, one_running), id, CallsCurrentGeneratorRunLimit)] on_last_step).
  eexists. split; [reflexivity |]. split; reflexivity.
Defined.

(** The transitions of X16 for budgets of five, of three and without limit:
    after five and after eight trials. *)
Lemma model_transitions_accumulate_witness :
  model_transitions (strategy_of three_steps 0 None None None) !! 0%nat = Some 5
  ∧ model_transitions (strategy_of three_steps 0 None None None) !! 1%nat = Some 8.
Proof.
  destruct (model_transitions_accumulate (strategy_of three_steps 0 None None None))
    as (_ & Hfirst & Hnext).
  split.
  - apply (Hfirst (set_index 0 (make_step 5 0 None false false)));
      [reflexivity | simpl; lia].
  - apply (Hnext 0%nat 5 (set_index 1 (make_step 3 0 None false false)));
      [| reflexivity | simpl; lia].
    apply (Hfirst (set_index 0 (make_step 5 0 None false false)));
      [reflexivity | simpl; lia].
Defined.


(** The model of X18 after a call of [gen] on a strategy of one step. *)
Lemma model_is_fitted_model_of_current_step_witness :
  ∃ g, __init__ [make_step 5 0 None false false] None = Ok g
       ∧ model_is_current
           (run (needs_data_after 9)
              [((λ _, empty_experiment), id, CallsGen 0 None 1 None ∅)]
              (no_calls_no_heap g))
       ∧ one_spec_each
           (run (needs_data_after 9)
              [((λ _, empty_experiment), id, CallsGen 0 None 1 None ∅)]
              (no_calls_no_heap g)).
Proof.
  eexists. split; [vm_compute; reflexivity |].
  apply (model_is_fitted_model_of_current_step (needs_data_after 9)
           [dataclass_fields (RegistryModel "Sobol") 5 None None [] 0 None false true
              false ""]
           [make_step 5 0 None false false] None _
           [((λ _, empty_experiment), id, CallsGen 0 None 1 None ∅)]).
  - constructor; [vm_compute; reflexivity | constructor].
  - vm_compute. reflexivity.
Defined.

(** The trials of X19 at the boundary: those of step 0 and those of step 1
    have nothing in common. *)
Lemma trial_indices_disjoint_witness :
  trial_indices boundary_step boundary_experiment 0
  ## trial_indices boundary_step boundary_experiment 1.
Proof.
  apply (proj2 (trial_indices_disjoint boundary_step boundary_experiment 0 1)). lia.
Defined.

(** The draws of X20: the model returns the known arm once, then a new
    one. *)
Lemma gen_returns_new_arms_witness :
  ∃ generator_run st',
    node_gen (stub_collaborators 1 dup_arm unique_arm) (Some 1) None MAX_GEN_DRAWS
      (Some seen_arms) ∅ dedup_start = (Ok generator_run, st')
    ∧ ∀ arm, arm ∈ arms generator_run → signature arm ∉ dom (default ∅ (Some seen_arms)).
Proof.
  eexists _, _. split; [vm_compute; reflexivity |].
  eapply (gen_returns_new_arms (stub_collaborators 1 dup_arm unique_arm) (Some 1) None
            MAX_GEN_DRAWS (Some seen_arms) ∅ dedup_start).
  - reflexivity.
  - vm_compute. reflexivity.
Defined.

(** The run of X21 on an experiment that has the arm the model returns
    first. *)
Lemma gen_multiple_returns_new_arms_witness :
  ∃ runs st',
    _gen_multiple (stub_collaborators 1 dup_arm unique_arm) (λ _, experiment_with_arm)
      0 1 None 1 None ∅ deduplicating = (Ok runs, st')
    ∧ Forall (new_arms (arms_by_signature experiment_with_arm)) runs.
Proof.
  eexists _, _. split; [vm_compute; reflexivity |].
  eapply (gen_multiple_returns_new_arms (stub_collaborators 1 dup_arm unique_arm)
            (λ _, experiment_with_arm) 0 1 None 1 None ∅ deduplicating).
  - vm_compute. reflexivity.
  - vm_compute. reflexivity.
Defined.


(** The cycle of X23 on the step of the boundary, with one row passed in. *)
Lemma fit_on_passed_data_witness :
  calls_extend (λ c, ∃ model kwargs, c = CallFit model [row_of 0] kwargs) boundary_state
    (_fit_or_update_current_model quiet_collaborators (λ _, boundary_experiment)
       (Some [row_of 0]) boundary_state).2.
Proof.
  apply (fit_on_passed_data quiet_collaborators (λ _, boundary_experiment) [row_of 0]
           boundary_state boundary_step).
  - reflexivity.
  - left. reflexivity.
Defined.
